(** * Cluster manager: record parser, correlation engine, planner and reports

    A shallow embedding of [cluster_manager_Ira.py].  Python text is a list
    of Unicode code points, a [dict] read only through [get] is a finite
    map, the external administration utility is a transition of an abstract
    world that hands back an exit status and two texts, and a [for] loop
    that appends to a list is a left fold over the list it walks.  A
    [datetime] is offset-naive or offset-aware, and the two kinds do not
    compare: the loops of the collection pass can be left by an exception,
    which its handler turns into an entry of the error list. *)

From Stdlib Require Import ZArith NArith Lia Bool Ascii String DecimalString.
From Stdlib Require DecimalFacts DecimalPos DecimalZ.
From stdpp Require Import gmap list fin_maps strings.

Open Scope N_scope.

(** ** Python text *)

Module PyStr.

(** A [str] is a sequence of code points. *)
Definition str := list N.

(** String literals of this file are UTF-8 in the source text; [py] turns
    such a literal into the code points Python sees. *)
Fixpoint utf8_decode (bs : list N) : str :=
  match bs with
  | [] => []
  | b :: r =>
    if b <? 128 then b :: utf8_decode r
    else if b <? 224 then
      match r with
      | c1 :: r1 => ((b - 192) * 64 + (c1 - 128)) :: utf8_decode r1
      | _ => []
      end
    else if b <? 240 then
      match r with
      | c1 :: c2 :: r2 =>
        ((b - 224) * 4096 + (c1 - 128) * 64 + (c2 - 128)) :: utf8_decode r2
      | _ => []
      end
    else
      match r with
      | c1 :: c2 :: c3 :: r3 =>
        ((b - 240) * 262144 + (c1 - 128) * 4096 + (c2 - 128) * 64 + (c3 - 128))
          :: utf8_decode r3
      | _ => []
      end
  end.

Definition py (s : string) : str :=
  utf8_decode (N_of_ascii <$> list_ascii_of_string s).

Arguments py : simpl never.

Definition LF : N := 10.
Definition COLON : N := 58.
Definition SPACE : N := 32.

(** [str.isspace] on one code point: the white-space table of CPython
    (general category Zs, or bidirectional class WS, B or S). *)
Definition isspace (c : N) : bool :=
  ((9 <=? c) && (c <=? 13)) || ((28 <=? c) && (c <=? 32))
  || (c =? 133) || (c =? 160) || (c =? 5760)
  || ((8192 <=? c) && (c <=? 8202))
  || (c =? 8232) || (c =? 8233) || (c =? 8239) || (c =? 8287) || (c =? 12288).

Fixpoint lstrip (s : str) : str :=
  match s with
  | [] => []
  | c :: r => if isspace c then lstrip r else s
  end.

Definition rstrip (s : str) : str := reverse (lstrip (reverse s)).

(** [s.strip()] *)
Definition strip (s : str) : str := rstrip (lstrip s).

(** [s.split(sep)] for a one-character separator: never the empty list. *)
Fixpoint split (sep : N) (s : str) : list str :=
  match s with
  | [] => [[]]
  | c :: r =>
    if c =? sep then [] :: split sep r
    else match split sep r with
         | w :: ws => (c :: w) :: ws
         | [] => [[c]]
         end
  end.

(** [sep in s] for a one-character [sep]. *)
Definition has_char (sep : N) (s : str) : bool := existsb (N.eqb sep) s.

(** [s.partition(sep)] for a one-character separator: the text before the
    first occurrence, the separator (empty when there is none), the rest. *)
Fixpoint partition (sep : N) (s : str) : str * str * str :=
  match s with
  | [] => ([], [], [])
  | c :: r =>
    if c =? sep then ([], [sep], r)
    else let '(h, m, t) := partition sep r in (c :: h, m, t)
  end.

(** [sep.join(parts)] *)
Fixpoint join (sep : str) (parts : list str) : str :=
  match parts with
  | [] => []
  | [p] => p
  | p :: ps => p ++ sep ++ join sep ps
  end.

(** [s.replace(a, b)] for one-character [a] and [b]. *)
Definition replace (a b : N) (s : str) : str :=
  (fun c => if c =? a then b else c) <$> s.

(** [s.lower()], as far as the search for the word "error" sees it: the
    ASCII capitals are folded, and the other code points are left as they
    are, none of them having e, r or o in its lower case. *)
Definition lower_char (c : N) : N :=
  if (65 <=? c) && (c <=? 90) then c + 32 else c.

Definition lower (s : str) : str := lower_char <$> s.

Fixpoint starts_with (p s : str) : bool :=
  match p, s with
  | [], _ => true
  | _ :: _, [] => false
  | a :: p', b :: s' => (a =? b) && starts_with p' s'
  end.

(** [p in s] for texts. *)
Fixpoint contains (p s : str) : bool :=
  starts_with p s ||
  match s with
  | [] => false
  | _ :: r => contains p r
  end.

(** [str(n)] for an [int]. *)
Definition str_of_int (z : Z) : str :=
  N_of_ascii <$> list_ascii_of_string (NilZero.string_of_int (Z.to_int z)).

(** [c * n] *)
Definition times (c : N) (n : nat) : str := replicate n c.

End PyStr.

Import PyStr.

(** ** Data model *)

(** A [datetime]: the reading of the wall clock it stands for, in
    microseconds since 0001-01-01 00:00:00, and, when it is offset-aware,
    its offset from UTC in microseconds.  [fromisoformat] gives either
    kind, depending on the text. *)
Record datetime := mk_datetime { wall : Z; utcoffset : option Z }.

Definition naive (wall : Z) : datetime := mk_datetime wall None.
Definition aware (wall offset : Z) : datetime := mk_datetime wall (Some offset).

(** The last microsecond of the year 9999, [datetime.max]. *)
Definition MAX_WALL : Z := 3652059 * 86400000000 - 1.

(** The exceptions the manager can run into: an offset-naive and an
    offset-aware [datetime] compared, a [timedelta] of more than 999999999
    days, a date before the year 1 or after the year 9999. *)
Inductive Exception :=
| TypeError_compare
| OverflowError_days (days : Z)
| OverflowError_date.

(** [a > b] on [datetime]: two offset-aware values compare by the instant
    they stand for, two offset-naive ones by the wall clock. *)
Definition datetime_gt (a b : datetime) : Exception + bool :=
  match utcoffset a, utcoffset b with
  | None, None => inr (wall a >? wall b)%Z
  | Some oa, Some ob => inr (wall a - oa >? wall b - ob)%Z
  | _, _ => inl TypeError_compare
  end.

(** [timedelta(hours=hours)], in microseconds. *)
Definition timedelta_hours (hours : Z) : Exception + Z :=
  let days := (hours / 24)%Z in
  if (999999999 <? Z.abs days)%Z then inl (OverflowError_days days)
  else inr (hours * 3600000000)%Z.

(** [d - delta], for [delta] in microseconds. *)
Definition datetime_sub (d : datetime) (delta : Z) : Exception + datetime :=
  let w := (wall d - delta)%Z in
  if ((w <? 0) || (MAX_WALL <? w))%Z then inl OverflowError_date
  else inr (mk_datetime w (utcoffset d)).

(** How a block of statements ends: normally, or with an exception leaving
    it.  Either way the objects it worked on are as it left them. *)
Inductive completion (S : Type) :=
| Normal (s : S)
| Abrupt (exc : Exception) (s : S).

Arguments Normal {S} s.
Arguments Abrupt {S} exc s.

Definition state_of {S} (c : completion S) : S :=
  match c with Normal s => s | Abrupt _ s => s end.

Module ClusterConfig.
Record t := mk {
  rac_path : str;
  ras_host : str;
  ras_port : Z;
  cluster_user : str;
  cluster_pwd : str;
  infobase_user : str;
  infobase_pwd : str;
  inactive_hours : Z
}.
End ClusterConfig.

Module Cluster.
Record t := mk {
  cluster_id : str;
  host : str;
  port : str;
  name : str
}.
End Cluster.

Module WorkingServer.
Record t := mk {
  server_id : str;
  name : str;
  host : str;
  port : str;
  port_range : str;
  cluster_port : str
}.
End WorkingServer.

Module InfoBase.
Record t := mk {
  infobase_id : str;
  name : str;
  descr : str;
  sessions_deny : str;
  scheduled_jobs_deny : str;
  sessions_count : Z;
  last_session_time : option datetime;
  is_inactive : bool
}.

(** The constructor call of [get_infobases]: three fields given, the others
    at the defaults of the dataclass. *)
Definition new (infobase_id name descr : str) : t :=
  mk infobase_id name descr (py "off") (py "off") 0%Z None false.

(** Attribute assignments [ib.f = v]. *)
Definition set_sessions_count (v : Z) (ib : t) : t :=
  mk (infobase_id ib) (name ib) (descr ib) (sessions_deny ib)
     (scheduled_jobs_deny ib) v (last_session_time ib) (is_inactive ib).

Definition set_last_session_time (v : option datetime) (ib : t) : t :=
  mk (infobase_id ib) (name ib) (descr ib) (sessions_deny ib)
     (scheduled_jobs_deny ib) (sessions_count ib) v (is_inactive ib).

Definition set_is_inactive (v : bool) (ib : t) : t :=
  mk (infobase_id ib) (name ib) (descr ib) (sessions_deny ib)
     (scheduled_jobs_deny ib) (sessions_count ib) (last_session_time ib) v.
End InfoBase.

Module Session.
Record t := mk {
  session_id : str;
  infobase_id : str;
  user_name : str;
  app_id : str;
  started_at : option datetime;
  last_active_at : option datetime
}.
End Session.

Module ClusterReport.
Record t := mk {
  generated_at : datetime;
  clusters : list Cluster.t;
  servers : list WorkingServer.t;
  infobases : list InfoBase.t;
  sessions : list Session.t;
  inactive_bases : list InfoBase.t;
  errors : list str
}.

(** [ClusterReport()] created at time [now]. *)
Definition new (now : datetime) : t := mk now [] [] [] [] [] [].
End ClusterReport.

(** ** Record parser *)

(** A parsed record: the [dict] of one block of lines. *)
Abbreviation item := (gmap str str).

(** [d.get(key, '')] *)
Definition get (d : item) (key : str) : str := default [] (d !! key).

(** Truth value of a text, of a [dict] and of a list. *)
Definition nonempty {A} (l : list A) : bool :=
  match l with [] => false | _ :: _ => true end.

Definition nonempty_item (d : item) : bool := negb (bool_decide (d = ∅)).

(** One turn of the loop of [_parse_output]; the state is [items] and
    [current_item]. *)
Definition parse_line (st : list item * item) (line : str) : list item * item :=
  let '(items, current_item) := st in
  let line := strip line in
  if negb (nonempty line) then
    if nonempty_item current_item then (items ++ [current_item], ∅)
    else (items, current_item)
  else if has_char COLON line then
    let '(key, _, value) := partition COLON line in
    (items, <[strip key := strip value]> current_item)
  else (items, current_item).

Definition _parse_output (output : str) : list item :=
  let '(items, current_item) :=
    foldl parse_line ([], ∅) (split LF (strip output)) in
  if nonempty_item current_item then items ++ [current_item] else items.

(** ** The external utility *)

(** What [subprocess.run] can do: finish with an exit status and two texts,
    run into the 30 seconds limit, or fail to start. *)
Inductive RunResult :=
| Completed (returncode : Z) (stdout stderr : str)
| TimeoutExpired
| Raised.

Section Rac.

Context {World : Type}.

(** The utility as a transition of the world it administers. *)
Variable subprocess_run : list str -> World -> RunResult * World.

(** [datetime.fromisoformat]; [None] when it raises. *)
Variable fromisoformat : str -> option datetime.

Variable config : ClusterConfig.t.

(** [datetime.now()]: the clock of the world. *)
Variable datetime_now : World -> datetime.

(** [str(e)] of an exception. *)
Variable str_exception : Exception -> str.

(** The state the client works in: the world, and the command lines handed
    to [subprocess.run] so far. *)
Record Env := mkEnv { world : World; calls : list (list str) }.

Definition M (A : Type) : Type := Env -> A * Env.

#[global] Instance M_ret : MRet M := fun A x e => (x, e).
#[global] Instance M_bind : MBind M :=
  fun A B f m e => let '(x, e') := m e in f x e'.

(** [for x in l: s = body(s, x)] *)
Fixpoint for_each {A S} (l : list A) (body : S -> A -> M S) (s : S) : M S :=
  match l with
  | [] => mret s
  | x :: r => s' ← body s x; for_each r body s'
  end.

Definition _build_base_command : list str :=
  [ ClusterConfig.rac_path config;
    ClusterConfig.ras_host config ++ py ":" ++ str_of_int (ClusterConfig.ras_port config) ].

Definition _add_cluster_auth (cmd : list str) : list str :=
  let cmd :=
    if nonempty (ClusterConfig.cluster_user config)
    then cmd ++ [py "--cluster-user"; ClusterConfig.cluster_user config] else cmd in
  if nonempty (ClusterConfig.cluster_pwd config)
  then cmd ++ [py "--cluster-pwd"; ClusterConfig.cluster_pwd config] else cmd.

Definition _add_infobase_auth (cmd : list str) : list str :=
  let cmd :=
    if nonempty (ClusterConfig.infobase_user config)
    then cmd ++ [py "--infobase-user"; ClusterConfig.infobase_user config] else cmd in
  if nonempty (ClusterConfig.infobase_pwd config)
  then cmd ++ [py "--infobase-pwd"; ClusterConfig.infobase_pwd config] else cmd.

(** What [_execute_command] returns for one outcome of the run. *)
Definition command_output (r : RunResult) : str :=
  match r with
  | Completed returncode stdout stderr =>
    if negb (returncode =? 0)%Z then []
    else if negb (nonempty (strip stdout)) then []
    else stdout
  | TimeoutExpired => []
  | Raised => []
  end.

Definition _execute_command (cmd : list str) : M str :=
  fun e =>
    let '(r, w) := subprocess_run cmd (world e) in
    (command_output r, mkEnv w (calls e ++ [cmd])).

(** The command line each operation builds is named after it. *)
Definition get_clusters_cmd : list str :=
  _build_base_command ++ [py "cluster"; py "list"].

Definition get_clusters : M (list Cluster.t) :=
  let cmd := get_clusters_cmd in
  output ← _execute_command cmd;
  mret (foldl (fun clusters it =>
                 clusters ++ [Cluster.mk (get it (py "cluster")) (get it (py "host"))
                                         (get it (py "port")) (get it (py "name"))])
              [] (_parse_output output)).

Definition get_servers_cmd (cluster_id : str) : list str :=
  let cmd := _build_base_command ++
             [py "server"; py "list"; py "--cluster=" ++ cluster_id] in
  _add_cluster_auth cmd.

Definition get_servers (cluster_id : str) : M (list WorkingServer.t) :=
  let cmd := get_servers_cmd cluster_id in
  output ← _execute_command cmd;
  mret (foldl (fun servers it =>
                 servers ++ [WorkingServer.mk
                               (get it (py "server")) (get it (py "name"))
                               (get it (py "host")) (get it (py "port"))
                               (get it (py "port-range")) (get it (py "cluster-port"))])
              [] (_parse_output output)).

Definition get_infobases_cmd (cluster_id : str) : list str :=
  let cmd := _build_base_command ++
             [py "infobase"; py "summary"; py "list"; py "--cluster=" ++ cluster_id] in
  _add_cluster_auth cmd.

Definition get_infobases (cluster_id : str) : M (list InfoBase.t) :=
  let cmd := get_infobases_cmd cluster_id in
  output ← _execute_command cmd;
  mret (foldl (fun infobases it =>
                 infobases ++ [InfoBase.new (get it (py "infobase")) (get it (py "name"))
                                            (get it (py "descr"))])
              [] (_parse_output output)).

(** The two guarded [fromisoformat] calls of [get_sessions]. *)
Definition parse_time (it : item) (key : str) : option datetime :=
  if nonempty (get it key)
  then fromisoformat (replace 84 SPACE (get it key))
  else None.

Definition get_sessions_cmd (cluster_id : str) (infobase_id : option str)
  : list str :=
  let cmd := _build_base_command ++
             [py "session"; py "list"; py "--cluster=" ++ cluster_id] in
  let cmd :=
    match infobase_id with
    | Some i => if nonempty i then cmd ++ [py "--infobase=" ++ i] else cmd
    | None => cmd
    end in
  _add_cluster_auth cmd.

Definition get_sessions (cluster_id : str) (infobase_id : option str)
  : M (list Session.t) :=
  let cmd := get_sessions_cmd cluster_id infobase_id in
  output ← _execute_command cmd;
  mret (foldl (fun sessions it =>
                 let started_at := parse_time it (py "started-at") in
                 let last_active_at := parse_time it (py "last-active-at") in
                 sessions ++ [Session.mk (get it (py "session")) (get it (py "infobase"))
                                         (get it (py "user-name")) (get it (py "app-id"))
                                         started_at last_active_at])
              [] (_parse_output output)).

Definition on_off (b : bool) : str := if b then py "on" else py "off".

(** ["error" not in output.lower() if output else empty], the test both
    mutation operations end with. *)
Definition no_error_in (output : str) (empty : bool) : bool :=
  if nonempty output then negb (contains (py "error") (lower output)) else empty.

Definition block_infobase_cmd (cluster_id infobase_id : str)
    (sessions_deny scheduled_jobs_deny : bool) (denied_message : str) : list str :=
  let cmd := _build_base_command ++
             [ py "infobase"; py "update";
               py "--cluster=" ++ cluster_id;
               py "--infobase=" ++ infobase_id;
               py "--sessions-deny=" ++ on_off sessions_deny;
               py "--scheduled-jobs-deny=" ++ on_off scheduled_jobs_deny;
               py "--denied-message=" ++ denied_message ] in
  let cmd := _add_cluster_auth cmd in
  _add_infobase_auth cmd.

Definition block_infobase (cluster_id infobase_id : str)
    (sessions_deny scheduled_jobs_deny : bool) (denied_message : str) : M bool :=
  let cmd := block_infobase_cmd cluster_id infobase_id
               sessions_deny scheduled_jobs_deny denied_message in
  output ← _execute_command cmd;
  let success := no_error_in output false in
  mret success.

Definition unblock_infobase (cluster_id infobase_id : str) : M bool :=
  block_infobase cluster_id infobase_id false false [].

Definition terminate_session_cmd (cluster_id session_id : str) : list str :=
  let cmd := _build_base_command ++
             [ py "session"; py "terminate";
               py "--cluster=" ++ cluster_id;
               py "--session=" ++ session_id ] in
  _add_cluster_auth cmd.

Definition terminate_session (cluster_id session_id : str) : M bool :=
  let cmd := terminate_session_cmd cluster_id session_id in
  output ← _execute_command cmd;
  mret (no_error_in output true).

(** *** The manager *)

(** [max(t :: ts)]: the first item, replaced by each later item that is
    greater than the one kept so far; the comparison may raise. *)
Fixpoint py_max (t : datetime) (ts : list datetime) : Exception + datetime :=
  match ts with
  | [] => inr t
  | x :: r =>
    match datetime_gt x t with
    | inl exc => inl exc
    | inr greater => py_max (if greater then x else t) r
    end
  end.

(** One turn of the loop over [infobases] in [collect_cluster_info], on
    the object [ib] and on [report.inactive_bases]: what it makes of them,
    or the exception that leaves it and what they are then. *)
Definition correlate_infobase (all_sessions : list Session.t)
    (inactive_bases : list InfoBase.t) (ib : InfoBase.t)
  : completion (InfoBase.t * list InfoBase.t) :=
  let ib_sessions :=
    filter (fun s => Session.infobase_id s = InfoBase.infobase_id ib) all_sessions in
  let ib := InfoBase.set_sessions_count (Z.of_nat (length ib_sessions)) ib in
  let timed :=
    if nonempty ib_sessions then
      let last_active_times := omap Session.last_active_at ib_sessions in
      match last_active_times with
      | t :: ts =>
        match py_max t ts with
        | inr latest => Normal (InfoBase.set_last_session_time (Some latest) ib)
        | inl exc => Abrupt exc ib
        end
      | [] => Normal ib
      end
    else Normal ib in
  match timed with
  | Abrupt exc ib => Abrupt exc (ib, inactive_bases)
  | Normal ib =>
    if (InfoBase.sessions_count ib =? 0)%Z then
      let ib := InfoBase.set_is_inactive true ib in
      Normal (ib, inactive_bases ++ [ib])
    else Normal (ib, inactive_bases)
  end.

(** The loop [for ib in infobases] from the point where [walked] has had
    its turns and [infobases] is still to come.  The list it ends with is
    the list [infobases] of the code, whose objects the turns have
    changed: all of them when the loop ends normally, those up to the
    failing one when an exception leaves it. *)
Fixpoint correlate_from (all_sessions : list Session.t)
    (walked infobases inactive_bases : list InfoBase.t)
  : completion (list InfoBase.t * list InfoBase.t) :=
  match infobases with
  | [] => Normal (walked, inactive_bases)
  | ib :: rest =>
    match correlate_infobase all_sessions inactive_bases ib with
    | Normal (ib, inactive_bases) =>
      correlate_from all_sessions (walked ++ [ib]) rest inactive_bases
    | Abrupt exc (ib, inactive_bases) =>
      Abrupt exc (walked ++ ib :: rest, inactive_bases)
    end
  end.

(** The whole loop, started with the inactive bases gathered so far. *)
Definition correlate (infobases : list InfoBase.t) (all_sessions : list Session.t)
    (inactive_bases : list InfoBase.t)
  : completion (list InfoBase.t * list InfoBase.t) :=
  correlate_from all_sessions [] infobases inactive_bases.

(** [now - timedelta(hours=self.config.inactive_hours)] *)
Definition inactive_threshold (now : datetime) : Exception + datetime :=
  match timedelta_hours (ClusterConfig.inactive_hours config) with
  | inl exc => inl exc
  | inr delta => datetime_sub now delta
  end.

(** Reading the clock. *)
Definition clock : M datetime := fun e => (datetime_now (world e), e).

(** Attribute updates of the report, as the body makes them. *)
Definition extend_servers (servers : list WorkingServer.t) (r : ClusterReport.t)
  : ClusterReport.t :=
  ClusterReport.mk (ClusterReport.generated_at r) (ClusterReport.clusters r)
    (ClusterReport.servers r ++ servers) (ClusterReport.infobases r)
    (ClusterReport.sessions r) (ClusterReport.inactive_bases r)
    (ClusterReport.errors r).

Definition extend_sessions (sessions : list Session.t) (r : ClusterReport.t)
  : ClusterReport.t :=
  ClusterReport.mk (ClusterReport.generated_at r) (ClusterReport.clusters r)
    (ClusterReport.servers r) (ClusterReport.infobases r)
    (ClusterReport.sessions r ++ sessions) (ClusterReport.inactive_bases r)
    (ClusterReport.errors r).

Definition set_inactive_bases (inactive_bases : list InfoBase.t)
    (r : ClusterReport.t) : ClusterReport.t :=
  ClusterReport.mk (ClusterReport.generated_at r) (ClusterReport.clusters r)
    (ClusterReport.servers r) (ClusterReport.infobases r)
    (ClusterReport.sessions r) inactive_bases (ClusterReport.errors r).

Definition extend_infobases (infobases : list InfoBase.t) (r : ClusterReport.t)
  : ClusterReport.t :=
  ClusterReport.mk (ClusterReport.generated_at r) (ClusterReport.clusters r)
    (ClusterReport.servers r) (ClusterReport.infobases r ++ infobases)
    (ClusterReport.sessions r) (ClusterReport.inactive_bases r)
    (ClusterReport.errors r).

Definition append_error (error_msg : str) (r : ClusterReport.t) : ClusterReport.t :=
  ClusterReport.mk (ClusterReport.generated_at r) (ClusterReport.clusters r)
    (ClusterReport.servers r) (ClusterReport.infobases r)
    (ClusterReport.sessions r) (ClusterReport.inactive_bases r)
    (ClusterReport.errors r ++ [error_msg]).

(** The body of [for cluster in self.report.clusters], on the report as
    the turns before left it.  The threshold is computed and never read,
    but computing it may raise; so may [max] inside the loop over the
    infobases, after the loop has appended to [report.inactive_bases] and
    before [report.infobases] is extended. *)
Definition collect_cluster (report : ClusterReport.t) (cluster : Cluster.t)
  : M (completion ClusterReport.t) :=
  servers ← get_servers (Cluster.cluster_id cluster);
  let report := extend_servers servers report in
  infobases ← get_infobases (Cluster.cluster_id cluster);
  all_sessions ← get_sessions (Cluster.cluster_id cluster) None;
  let report := extend_sessions all_sessions report in
  now ← clock;
  match inactive_threshold now with
  | inl exc => mret (Abrupt exc report)
  | inr inactive_threshold =>
    match correlate infobases all_sessions (ClusterReport.inactive_bases report) with
    | Abrupt exc (_, inactive_bases) =>
      mret (Abrupt exc (set_inactive_bases inactive_bases report))
    | Normal (infobases, inactive_bases) =>
      mret (Normal (extend_infobases infobases
                      (set_inactive_bases inactive_bases report)))
    end
  end.

(** [for x in l: body], left by the first exception a turn raises. *)
Fixpoint try_each {A S} (l : list A) (body : S -> A -> M (completion S)) (s : S)
  : M (completion S) :=
  match l with
  | [] => mret (Normal s)
  | x :: r =>
    c ← body s x;
    match c with
    | Normal s' => try_each r body s'
    | Abrupt exc s' => mret (Abrupt exc s')
    end
  end.

(** [collect_cluster_info]: a new report, the guarded block, and its
    handler, which turns the exception that left the block into an entry
    of [errors]. *)
Definition collect_cluster_info : M ClusterReport.t :=
  generated_at ← clock;
  clusters ← get_clusters;
  let report := ClusterReport.mk generated_at clusters [] [] [] [] [] in
  c ← try_each clusters collect_cluster report;
  match c with
  | Normal report => mret report
  | Abrupt exc report =>
    let error_msg := py "Ошибка сбора информации: " ++ str_exception exc in
    mret (append_error error_msg report)
  end.

Definition inactivity_message : str :=
  py "База автоматически заблокирована из-за неактивности".

(** [block_inactive_bases] on the report held by the manager. *)
Definition block_inactive_bases (report : ClusterReport.t) (dry_run : bool)
  : M (list str) :=
  for_each (ClusterReport.clusters report)
    (fun blocked cluster =>
       for_each (ClusterReport.inactive_bases report)
         (fun blocked ib =>
            if dry_run then mret (blocked ++ [InfoBase.name ib])
            else
              ok ← block_infobase (Cluster.cluster_id cluster)
                     (InfoBase.infobase_id ib) true true inactivity_message;
              mret (if ok : bool then blocked ++ [InfoBase.name ib] else blocked))
         blocked)
    [].

End Rac.

(** ** Report projector *)

(** *** Text report *)

Section TextReport.

(** [d.strftime('%Y-%m-%d %H:%M:%S')] and [str(d)] of the standard library. *)
Variable strftime : datetime -> str.
Variable str_datetime : datetime -> str.

Definition rule : str := times 61 70.

(** Each block below is a run of statements of [_generate_text_report]: it
    takes [lines] as the statements before it left it and hands it on. *)
Definition header_block (report : ClusterReport.t) (lines : list str) : list str :=
  let lines := lines ++ [rule] in
  let lines := lines ++ [py "ОТЧЁТ О СОСТОЯНИИ КЛАСТЕРА 1С:ПРЕДПРИЯТИЕ"] in
  let lines := lines ++ [py "Дата формирования: "
                           ++ strftime (ClusterReport.generated_at report)] in
  lines ++ [rule].

Definition clusters_block (report : ClusterReport.t) (lines : list str) : list str :=
  let lines := lines ++ [LF :: py "### КЛАСТЕРЫ ###"] in
  foldl (fun lines cluster =>
           let lines := lines ++ [py "  - " ++ Cluster.name cluster] in
           let lines := lines ++ [py "    ID: " ++ Cluster.cluster_id cluster] in
           lines ++ [py "    Хост: " ++ Cluster.host cluster ++ py ":" ++ Cluster.port cluster])
        lines (ClusterReport.clusters report).

Definition servers_block (report : ClusterReport.t) (lines : list str) : list str :=
  let lines := lines ++ [LF :: py "### РАБОЧИЕ СЕРВЕРЫ ###"] in
  foldl (fun lines server =>
           let lines := lines ++ [py "  - " ++ WorkingServer.name server] in
           let lines := lines ++ [py "    ID: " ++ WorkingServer.server_id server] in
           lines ++ [py "    Хост: " ++ WorkingServer.host server ++ py ":"
                       ++ WorkingServer.port server])
        lines (ClusterReport.servers report).

Definition len {A} (l : list A) : Z := Z.of_nat (length l).

Definition infobases_block (report : ClusterReport.t) (lines : list str) : list str :=
  let lines := lines ++ [LF :: py "### ИНФОРМАЦИОННЫЕ БАЗЫ ###"] in
  let lines := lines ++ [py "Всего баз: "
                           ++ str_of_int (len (ClusterReport.infobases report))] in
  let lines := lines ++ [py "Неактивных баз (без сеансов): "
                           ++ str_of_int (len (ClusterReport.inactive_bases report))] in
  let lines := lines ++ [[]] in
  foldl (fun lines ib =>
           let status := if InfoBase.is_inactive ib
                         then py "[НЕАКТИВНА]" else py "[АКТИВНА]" in
           let lines := lines ++ [py "  " ++ status ++ py " " ++ InfoBase.name ib] in
           let lines := lines ++ [py "    ID: " ++ InfoBase.infobase_id ib] in
           let lines := lines ++ [py "    Сеансов: "
                                    ++ str_of_int (InfoBase.sessions_count ib)] in
           match InfoBase.last_session_time ib with
           | Some t => lines ++ [py "    Последняя активность: " ++ str_datetime t]
           | None => lines
           end)
        lines (ClusterReport.infobases report).

(** The lines one turn of the session loop appends. *)
Definition session_turn (lines : list str) (session : Session.t) : list str :=
  let lines := lines ++ [py "  - Пользователь: " ++ Session.user_name session] in
  let lines := lines ++ [py "    Приложение: " ++ Session.app_id session] in
  match Session.started_at session with
  | Some t => lines ++ [py "    Начало: " ++ str_datetime t]
  | None => lines
  end.

Definition sessions_block (report : ClusterReport.t) (lines : list str) : list str :=
  let lines := lines ++ [LF :: py "### АКТИВНЫЕ СЕАНСЫ ###"] in
  let lines := lines ++ [py "Всего сеансов: "
                           ++ str_of_int (len (ClusterReport.sessions report))] in
  let lines := foldl session_turn lines (take 20 (ClusterReport.sessions report)) in
  if (len (ClusterReport.sessions report) >? 20)%Z
  then lines ++ [py "  ... и ещё "
                   ++ str_of_int (len (ClusterReport.sessions report) - 20)
                   ++ py " сеансов"]
  else lines.

Definition errors_block (report : ClusterReport.t) (lines : list str) : list str :=
  if nonempty (ClusterReport.errors report) then
    let lines := lines ++ [LF :: py "### ERRORS ###"] in
    foldl (fun lines error => lines ++ [py "  ! " ++ error])
          lines (ClusterReport.errors report)
  else lines.

Definition recommendations_block (report : ClusterReport.t) (lines : list str)
  : list str :=
  let lines := lines ++ [LF :: py "### RECOMMENDATIONS ###"] in
  if nonempty (ClusterReport.inactive_bases report) then
    let lines := lines ++
      [py "  - Рассмотрите возможность блокировки следующих неактивных баз:"] in
    foldl (fun lines ib => lines ++ [py "    * " ++ InfoBase.name ib])
          lines (ClusterReport.inactive_bases report)
  else lines ++ [py "  - Все базы активны, действий не требуется"].

Definition footer_block (lines : list str) : list str :=
  let lines := lines ++ [LF :: rule] in
  let lines := lines ++ [py "КОНЕЦ ОТЧЁТА"] in
  lines ++ [rule].

(** [lines] as [_generate_text_report] has it before the final join. *)
Definition text_report_lines (report : ClusterReport.t) : list str :=
  let lines := [] in
  let lines := header_block report lines in
  let lines := clusters_block report lines in
  let lines := servers_block report lines in
  let lines := infobases_block report lines in
  let lines := sessions_block report lines in
  let lines := errors_block report lines in
  let lines := recommendations_block report lines in
  footer_block lines.

Definition _generate_text_report (report : ClusterReport.t) : str :=
  join [LF] (text_report_lines report).

End TextReport.

(** *** JSON documents: [json.dumps] and [json.loads] of the standard library *)

Module Json.

#[local] Set Warnings "-register-all".

(** What the report puts into a document: [None], [bool], [int], [str],
    [list], and [dict] with text keys, kept in insertion order. *)
Inductive t :=
| Null
| Bool (b : bool)
| Int (z : Z)
| Str (s : str)
| List (l : list t)
| Dict (d : list (str * t)).

(** [d[key]] on the pairs of a [dict]. *)
Fixpoint lookup (key : str) (d : list (str * t)) : option t :=
  match d with
  | [] => None
  | (k, v) :: r => if bool_decide (k = key) then Some v else lookup key r
  end.

Definition field (key : str) (v : t) : option t :=
  match v with
  | Dict d => lookup key d
  | _ => None
  end.

(** [d[key] = v]: an old key keeps its place. *)
Fixpoint dict_set (key : str) (v : t) (d : list (str * t)) : list (str * t) :=
  match d with
  | [] => [(key, v)]
  | (k, w) :: r =>
    if bool_decide (k = key) then (k, v) :: r else (k, w) :: dict_set key v r
  end.

(** [dict(pairs)] *)
Definition dict_of_pairs (pairs : list (str * t)) : list (str * t) :=
  foldl (fun d kv => dict_set kv.1 kv.2 d) [] pairs.

(** **** Encoder, with [ensure_ascii=False] *)

Definition QUOTE : N := 34.
Definition BACKSLASH : N := 92.

Definition hex_digit (n : N) : N := if n <? 10 then 48 + n else 87 + n.

(** The replacement table of the encoder: the quote, the backslash and the
    code points below 32. *)
Definition escape (c : N) : str :=
  if c =? QUOTE then [BACKSLASH; QUOTE]
  else if c =? BACKSLASH then [BACKSLASH; BACKSLASH]
  else if c =? 10 then [BACKSLASH; 110]
  else if c =? 13 then [BACKSLASH; 114]
  else if c =? 9 then [BACKSLASH; 116]
  else if c =? 8 then [BACKSLASH; 98]
  else if c =? 12 then [BACKSLASH; 102]
  else if c <? 32 then [BACKSLASH; 117; 48; 48; hex_digit (c / 16); hex_digit (c mod 16)]
  else [c].

Fixpoint escape_all (s : str) : str :=
  match s with
  | [] => []
  | c :: r => escape c ++ escape_all r
  end.

Definition encode_str (s : str) : str := QUOTE :: escape_all s ++ [QUOTE].

Definition newline_indent (indent level : nat) : str :=
  LF :: replicate (indent * level) SPACE.

(** [json.dumps(v, indent=indent, ensure_ascii=False)] at nesting depth
    [level]: items one per line, [','] between them, [': '] after a key. *)
Fixpoint encode (indent level : nat) (v : t) : str :=
  match v with
  | Null => py "null"
  | Bool true => py "true"
  | Bool false => py "false"
  | Int z => str_of_int z
  | Str s => encode_str s
  | List [] => py "[]"
  | List (x :: xs) =>
    py "[" ++ newline_indent indent (S level) ++ encode indent (S level) x
    ++ (fix items (l : list t) : str :=
          match l with
          | [] => []
          | y :: r => py "," ++ newline_indent indent (S level)
                      ++ encode indent (S level) y ++ items r
          end) xs
    ++ newline_indent indent level ++ py "]"
  | Dict [] => py "{}"
  | Dict ((k, x) :: xs) =>
    py "{" ++ newline_indent indent (S level)
    ++ encode_str k ++ py ": " ++ encode indent (S level) x
    ++ (fix items (l : list (str * t)) : str :=
          match l with
          | [] => []
          | (k', y) :: r => py "," ++ newline_indent indent (S level)
                            ++ encode_str k' ++ py ": "
                            ++ encode indent (S level) y ++ items r
          end) xs
    ++ newline_indent indent level ++ py "}"
  end.

Definition dumps (indent : nat) (v : t) : str := encode indent 0 v.

(** **** Decoder *)

Definition is_ws (c : N) : bool :=
  (c =? 32) || (c =? 9) || (c =? 10) || (c =? 13).

Fixpoint skip_ws (s : str) : str :=
  match s with
  | [] => []
  | c :: r => if is_ws c then skip_ws r else s
  end.

Definition hex_value (c : N) : option N :=
  if (48 <=? c) && (c <=? 57) then Some (c - 48)
  else if (97 <=? c) && (c <=? 102) then Some (c - 87)
  else if (65 <=? c) && (c <=? 70) then Some (c - 55)
  else None.

Definition hex4 (a b c d : N) : option N :=
  x ← hex_value a; y ← hex_value b; z ← hex_value c; w ← hex_value d;
  Some (((x * 16 + y) * 16 + z) * 16 + w).

(** The one-letter escapes the decoder knows. *)
Definition unescape (c : N) : option N :=
  if c =? QUOTE then Some QUOTE
  else if c =? BACKSLASH then Some BACKSLASH
  else if c =? 47 then Some 47
  else if c =? 98 then Some 8
  else if c =? 102 then Some 12
  else if c =? 110 then Some 10
  else if c =? 114 then Some 13
  else if c =? 116 then Some 9
  else None.

(** [scanstring] in strict mode, from just after the opening quote: the
    text and what follows the closing quote. *)
Fixpoint scanstring (s : str) : option (str * str) :=
  match s with
  | [] => None
  | c :: r =>
    if c =? QUOTE then Some ([], r)
    else if c =? BACKSLASH then
      match r with
      | [] => None
      | e :: r1 =>
        if e =? 117 then
          match r1 with
          | h1 :: h2 :: h3 :: h4 :: r2 =>
            match hex4 h1 h2 h3 h4 with
            | None => None
            | Some uni =>
              let single := '(x, rest) ← scanstring r2; Some (uni :: x, rest) in
              if (55296 <=? uni) && (uni <=? 56319) then
                match r2 with
                | b :: u :: g1 :: g2 :: g3 :: g4 :: r3 =>
                  if (b =? BACKSLASH) && (u =? 117) then
                    match hex4 g1 g2 g3 g4 with
                    | None => None
                    | Some uni2 =>
                      if (56320 <=? uni2) && (uni2 <=? 57343) then
                        '(x, rest) ← scanstring r3;
                        Some ((65536 + ((uni - 55296) * 1024 + (uni2 - 56320))) :: x, rest)
                      else single
                    end
                  else single
                | _ => single
                end
              else single
            end
          | _ => None
          end
        else
          match unescape e with
          | None => None
          | Some x => '(y, rest) ← scanstring r1; Some (x :: y, rest)
          end
      end
    else if c <? 32 then None
    else '(x, rest) ← scanstring r; Some (c :: x, rest)
  end.

Definition is_digit (c : N) : bool := (48 <=? c) && (c <=? 57).

Definition digit (c : N) (u : Decimal.uint) : Decimal.uint :=
  if c =? 48 then Decimal.D0 u else if c =? 49 then Decimal.D1 u
  else if c =? 50 then Decimal.D2 u else if c =? 51 then Decimal.D3 u
  else if c =? 52 then Decimal.D4 u else if c =? 53 then Decimal.D5 u
  else if c =? 54 then Decimal.D6 u else if c =? 55 then Decimal.D7 u
  else if c =? 56 then Decimal.D8 u else Decimal.D9 u.

(** The longest run of digits at the head of [s]. *)
Fixpoint read_digits (s : str) : Decimal.uint * str :=
  match s with
  | [] => (Decimal.Nil, [])
  | c :: r =>
    if is_digit c then let '(u, rest) := read_digits r in (digit c u, rest)
    else (Decimal.Nil, s)
  end.

(** Does a fraction or an exponent follow the integer part?  Then the
    number is a [float], which this model of the documents leaves out. *)
Definition float_follows (s : str) : bool :=
  match s with
  | c :: r =>
    if c =? 46 then
      match r with d :: _ => is_digit d | [] => false end
    else
      ((c =? 101) || (c =? 69)) &&
      match r with
      | d :: r' =>
        is_digit d ||
        (((d =? 43) || (d =? 45))
         && match r' with d' :: _ => is_digit d' | [] => false end)
      | [] => false
      end
  | [] => false
  end.

(** The integer part [0|[1-9][0-9]*] of the number pattern. *)
Definition read_int_part (s : str) : option (Decimal.uint * str) :=
  match s with
  | [] => None
  | c :: r =>
    if c =? 48 then Some (Decimal.D0 Decimal.Nil, r)
    else if is_digit c then Some (read_digits s)
    else None
  end.

Definition scan_number (s : str) : option (t * str) :=
  match s with
  | c :: r =>
    if c =? 45 then
      '(u, rest) ← read_int_part r;
      if float_follows rest then None else Some (Int (Z.of_int (Decimal.Neg u)), rest)
    else
      '(u, rest) ← read_int_part s;
      if float_follows rest then None else Some (Int (Z.of_int (Decimal.Pos u)), rest)
  | [] => None
  end.

(** [scan_once], and the loops of [JSONArray] and [JSONObject] entered
    where the next item is due.  [fuel] bounds the nesting of calls. *)
Fixpoint scan_once (fuel : nat) (s : str) : option (t * str) :=
  match fuel with
  | O => None
  | S fuel =>
    match s with
    | [] => None
    | c :: r =>
      if c =? QUOTE then '(x, rest) ← scanstring r; Some (Str x, rest)
      else if c =? 123 then
        match skip_ws r with
        | c' :: r' =>
          if c' =? 125 then Some (Dict [], r')
          else '(pairs, rest) ← scan_pairs fuel (skip_ws r);
               Some (Dict (dict_of_pairs pairs), rest)
        | [] => None
        end
      else if c =? 91 then
        match skip_ws r with
        | c' :: r' =>
          if c' =? 93 then Some (List [], r')
          else '(l, rest) ← scan_items fuel (skip_ws r); Some (List l, rest)
        | [] => None
        end
      else if starts_with (py "null") s then Some (Null, drop 4 s)
      else if starts_with (py "true") s then Some (Bool true, drop 4 s)
      else if starts_with (py "false") s then Some (Bool false, drop 5 s)
      else scan_number s
    end
  end
with scan_items (fuel : nat) (s : str) : option (list t * str) :=
  match fuel with
  | O => None
  | S fuel =>
    '(x, rest) ← scan_once fuel s;
    match skip_ws rest with
    | c :: r =>
      if c =? 93 then Some ([x], r)
      else if c =? 44 then
        '(l, rest') ← scan_items fuel (skip_ws r); Some (x :: l, rest')
      else None
    | [] => None
    end
  end
with scan_pairs (fuel : nat) (s : str) : option (list (str * t) * str) :=
  match fuel with
  | O => None
  | S fuel =>
    match s with
    | c :: r =>
      if c =? QUOTE then
        '(k, rest) ← scanstring r;
        match skip_ws rest with
        | c1 :: r1 =>
          if c1 =? 58 then
            '(x, rest1) ← scan_once fuel (skip_ws r1);
            match skip_ws rest1 with
            | c2 :: r2 =>
              if c2 =? 125 then Some ([(k, x)], r2)
              else if c2 =? 44 then
                '(l, rest2) ← scan_pairs fuel (skip_ws r2); Some ((k, x) :: l, rest2)
              else None
            | [] => None
            end
          else None
        | [] => None
        end
      else None
    | [] => None
    end
  end.

(** [json.loads(s)]: one value, white space around it, nothing else. *)
Definition loads (s : str) : option t :=
  '(v, rest) ← scan_once (S (length s)) (skip_ws s);
  match skip_ws rest with
  | [] => Some v
  | _ :: _ => None
  end.

End Json.

(** *** JSON report *)

Section JsonReport.

(** [d.isoformat()] of the standard library. *)
Variable isoformat : datetime -> str.

(** The [dict] that [_generate_json_report] hands to [json.dumps]. *)
Definition data (report : ClusterReport.t) : Json.t :=
  Json.Dict
    [ (py "generated_at", Json.Str (isoformat (ClusterReport.generated_at report)));
      (py "clusters",
       Json.List
         ((fun c => Json.Dict
             [ (py "id", Json.Str (Cluster.cluster_id c));
               (py "name", Json.Str (Cluster.name c));
               (py "host", Json.Str (Cluster.host c));
               (py "port", Json.Str (Cluster.port c)) ])
          <$> ClusterReport.clusters report));
      (py "servers",
       Json.List
         ((fun s => Json.Dict
             [ (py "id", Json.Str (WorkingServer.server_id s));
               (py "name", Json.Str (WorkingServer.name s));
               (py "host", Json.Str (WorkingServer.host s));
               (py "port", Json.Str (WorkingServer.port s)) ])
          <$> ClusterReport.servers report));
      (py "infobases",
       Json.List
         ((fun ib => Json.Dict
             [ (py "id", Json.Str (InfoBase.infobase_id ib));
               (py "name", Json.Str (InfoBase.name ib));
               (py "sessions_count", Json.Int (InfoBase.sessions_count ib));
               (py "is_inactive", Json.Bool (InfoBase.is_inactive ib));
               (py "last_session_time",
                match InfoBase.last_session_time ib with
                | Some t => Json.Str (isoformat t)
                | None => Json.Null
                end) ])
          <$> ClusterReport.infobases report));
      (py "sessions_count", Json.Int (len (ClusterReport.sessions report)));
      (py "inactive_bases_count", Json.Int (len (ClusterReport.inactive_bases report)));
      (py "errors", Json.List (Json.Str <$> ClusterReport.errors report)) ].

Definition _generate_json_report (report : ClusterReport.t) : str :=
  Json.dumps 2 (data report).

End JsonReport.

Definition generate_report (strftime str_datetime isoformat : datetime -> str)
    (report : ClusterReport.t) (output_format : str) : str :=
  if bool_decide (output_format = py "json")
  then _generate_json_report isoformat report
  else _generate_text_report strftime str_datetime report.

(** ** The properties, in the words of the specification *)

Module Spec.

(** *** Record grammar *)

Definition is_blank (line : str) : bool := negb (nonempty (strip line)).

(** The lines between blank lines: one run per separator, plus one. *)
Fixpoint runs (lines : list str) : list (list str) :=
  match lines with
  | [] => [[]]
  | l :: r =>
    if is_blank l then [] :: runs r
    else match runs r with
         | b :: bs => (l :: b) :: bs
         | [] => [[l]]
         end
  end.

(** A line with a colon gives a key and a value, both trimmed; a line
    without one gives nothing. *)
Definition key_value (line : str) : option (str * str) :=
  let line := strip line in
  if has_char COLON line then
    let '(key, _, value) := partition COLON line in Some (strip key, strip value)
  else None.

Definition fields (block : list str) : list (str * str) := omap key_value block.

(** The mapping of a record: of two fields with one key the later stands. *)
Definition last_wins (kvs : list (str * str)) : item := list_to_map (reverse kvs).

(** The values written under [key], in the order of the lines. *)
Definition written (key : str) (kvs : list (str * str)) : list str :=
  snd <$> filter (fun kv => kv.1 = key) kvs.

(** Records are the runs of lines between blank lines that hold a field. *)
Definition parse (text : str) : list item :=
  last_wins <$> filter (fun f => f ≠ []) (fields <$> runs (split LF (strip text))).

(** [t] is [s] without the white space around it. *)
Definition trimmed (s t : str) : Prop :=
  (exists l r, s = l ++ t ++ r /\ Forall (fun c => isspace c = true) l
                                /\ Forall (fun c => isspace c = true) r)
  /\ (forall c, head t = Some c -> isspace c = false)
  /\ (forall c, last t = Some c -> isspace c = false).

(** *** Correlation *)

(** The sessions of an infobase. *)
Definition sessions_of (ib : InfoBase.t) (S : list Session.t) : list Session.t :=
  filter (fun s => Session.infobase_id s = InfoBase.infobase_id ib) S.

(** [sum(ib.sessions_count for ib in B)] *)
Definition sum_sessions_count (B : list InfoBase.t) : Z :=
  foldr (fun ib acc => (InfoBase.sessions_count ib + acc)%Z) 0%Z B.

(** The sessions whose [infobase_id] is that of some infobase of [B]. *)
Definition matched_sessions (B : list InfoBase.t) (S : list Session.t)
  : list Session.t :=
  filter (fun s => Session.infobase_id s ∈ (InfoBase.infobase_id <$> B)) S.

(** The [last_active_at] values the sessions of an infobase have set. *)
Definition active_times (ib : InfoBase.t) (S : list Session.t) : list datetime :=
  omap Session.last_active_at (sessions_of ib S).

(** The instant a [datetime] stands for on the scale of its kind: the wall
    clock, less the offset when there is one. *)
Definition instant (t : datetime) : Z := (wall t - default 0 (utcoffset t))%Z.

(** Time stamps that are all offset-naive or all offset-aware: any two of
    them compare. *)
Definition uniform (ts : list datetime) : Prop :=
  Forall (fun t => utcoffset t = None) ts \/ Forall (fun t => utcoffset t ≠ None) ts.

(** [m] is the greatest of [ts]. *)
Definition greatest (m : datetime) (ts : list datetime) : Prop :=
  m ∈ ts /\ Forall (fun t => (instant t <= instant m)%Z) ts.

(** The sessions of every infobase of [B] carry time stamps of one kind. *)
Definition comparable_times (B : list InfoBase.t) (S : list Session.t) : Prop :=
  Forall (fun ib => uniform (active_times ib S)) B.

(** The inactivity threshold of [hours] before [now] can be computed: the
    hours make no more than 999999999 days, and the date they lead back
    (or forward) to lies in the years 1 to 9999. *)
Definition threshold_in_range (hours : Z) (now : datetime) : Prop :=
  (Z.abs (hours / 24) <= 999999999
   /\ 0 <= wall now - hours * 3600000000 <= MAX_WALL)%Z.

Definition no_sessions (ib : InfoBase.t) : Prop := InfoBase.sessions_count ib = 0%Z.

(** *** Error word *)

(** [c] is the lower-case ASCII letter [w] or its capital. *)
Definition same_letter (c w : N) : Prop := c = w \/ c + 32 = w.

(** The word occurs in [s], in any mix of cases. *)
Definition occurs_ci (word s : str) : Prop :=
  exists pre mid post, s = pre ++ mid ++ post /\ Forall2 same_letter mid word.

(** What an external call that yields no output looks like: a non-zero exit
    status, the time limit, a failure to run, or blank standard output. *)
Definition empty_outcome (r : RunResult) : Prop :=
  match r with
  | Completed returncode stdout _ => returncode ≠ 0%Z \/ strip stdout = []
  | TimeoutExpired => True
  | Raised => True
  end.

(** The external call ended with a non-zero exit status. *)
Definition exit_nonzero (r : RunResult) : Prop :=
  match r with
  | Completed returncode _ _ => returncode ≠ 0%Z
  | TimeoutExpired => False
  | Raised => False
  end.

(** The collection pass recorded an error. *)
Definition error_recorded (report : ClusterReport.t) : Prop :=
  ClusterReport.errors report ≠ [].

End Spec.

(** ** Sample runs *)

Module Fixture.

Definition config : ClusterConfig.t :=
  ClusterConfig.mk (py "rac") (py "localhost") 1545 [] [] [] [] 24.

(** No world to speak of, and no call made yet. *)
Definition env0 : @Env unit := mkEnv tt [].

Definition no_time (s : str) : option datetime := None.

(** [m] minutes into 2024-01-01, on an offset-free clock. *)
Definition morning (m : Z) : datetime := naive (63839664000000000 + m * 60000000).

(** A clock that stands at nine in the morning. *)
Definition clock (w : unit) : datetime := morning 540.

(** [str(e)] as CPython words it. *)
Definition message (exc : Exception) : str :=
  match exc with
  | TypeError_compare => py "can't compare offset-naive and offset-aware datetimes"
  | OverflowError_days days =>
    py "days=" ++ str_of_int days ++ py "; must have magnitude <= 999999999"
  | OverflowError_date => py "date value out of range"
  end.

(** [fromisoformat] on the two time stamps of [mixed_stamps]: ten o'clock
    without an offset, and noon at three hours east of UTC. *)
Definition iso_time (s : str) : option datetime :=
  if bool_decide (s = py "2024-01-01 10:00:00") then Some (morning 600)
  else if bool_decide (s = py "2024-01-01 12:00:00+03:00")
       then Some (aware (63839664000000000 + 720 * 60000000) 10800000000)
       else None.

(** A utility that cannot reach the server: every call ends with exit
    status 1 and a message about an error on standard output. *)
Definition unreachable (cmd : list str) (w : unit) : RunResult * unit :=
  (Completed 1 (py "Error: connection refused") [], w).

(** A utility that turns every call down: exit status 1 and a message
    without the word "error". *)
Definition refusing (cmd : list str) (w : unit) : RunResult * unit :=
  (Completed 1 (py "access denied") [], w).

(** A utility that ends every call with exit status 0 and a complaint. *)
Definition complaining (cmd : list str) (w : unit) : RunResult * unit :=
  (Completed 0 (py "Server ERROR: access denied") [], w).

(** A utility that knows two clusters; the first holds one infobase, which
    nobody is connected to. *)
Definition two_clusters (cmd : list str) (w : unit) : RunResult * unit :=
  let stdout :=
    if bool_decide (cmd !! 2%nat = Some (py "cluster")) then
      join [LF] [py "cluster: c1"; py "name: Main"; [];
                 py "cluster: c2"; py "name: Spare"; []]
    else if bool_decide (cmd !! 2%nat = Some (py "infobase")
                         /\ cmd !! 5%nat = Some (py "--cluster=c1")) then
      join [LF] [py "infobase: ib3"; py "name: Archive"; []]
    else [] in
  (Completed 0 stdout [], w).

(** A utility that knows two clusters; the first holds an idle infobase
    and a busy one, and the two sessions on the busy one were last active
    at times of different kinds.  The second cluster holds an infobase
    too. *)
Definition mixed_stamps (cmd : list str) (w : unit) : RunResult * unit :=
  let stdout :=
    if bool_decide (cmd !! 2%nat = Some (py "cluster")) then
      join [LF] [py "cluster: c1"; py "name: Main"; [];
                 py "cluster: c2"; py "name: Spare"; []]
    else if bool_decide (cmd !! 2%nat = Some (py "infobase")
                         /\ cmd !! 5%nat = Some (py "--cluster=c1")) then
      join [LF] [py "infobase: ibA"; py "name: Idle"; [];
                 py "infobase: ibB"; py "name: Busy"; []]
    else if bool_decide (cmd !! 2%nat = Some (py "infobase")) then
      join [LF] [py "infobase: ibC"; py "name: Other"; []]
    else if bool_decide (cmd !! 2%nat = Some (py "session")
                         /\ cmd !! 4%nat = Some (py "--cluster=c1")) then
      join [LF] [py "session: 1"; py "infobase: ibB";
                 py "last-active-at: 2024-01-01T10:00:00"; [];
                 py "session: 2"; py "infobase: ibB";
                 py "last-active-at: 2024-01-01T12:00:00+03:00"; []]
    else [] in
  (Completed 0 stdout [], w).

(** The infobases and sessions of the correlation scenario: two sessions
    on [ib1], one on [ib2], none on [ib3]. *)
Definition three_infobases : list InfoBase.t :=
  [ InfoBase.new (py "ib1") (py "Accounting") [];
    InfoBase.new (py "ib2") (py "Payroll") [];
    InfoBase.new (py "ib3") (py "Archive") [] ].

Definition session_on (infobase_id : str) (last_active_at : option datetime)
  : Session.t :=
  Session.mk (py "s") infobase_id (py "admin") (py "1CV8C") None last_active_at.

Definition three_sessions : list Session.t :=
  [ session_on (py "ib1") (Some (morning 100));
    session_on (py "ib2") None;
    session_on (py "ib1") (Some (morning 250)) ].

(** Two records of the infobase list that carry one id, and one session
    with that id. *)
Definition twin_infobases : list InfoBase.t :=
  [ InfoBase.new (py "ib1") (py "Accounting") [];
    InfoBase.new (py "ib1") (py "Accounting copy") [] ].

Definition one_session : list Session.t := [ session_on (py "ib1") None ].

(** Two sessions on the infobase of [two_clusters], both with a time. *)
Definition archive_sessions : list Session.t :=
  [ session_on (py "ib3") (Some (morning 100));
    session_on (py "ib3") (Some (morning 250));
    session_on (py "ib3") None ].

(** Two infobases, and sessions on both; the two on the first were last
    active at times of different kinds. *)
Definition busy_infobases : list InfoBase.t :=
  [ InfoBase.new (py "ibB") (py "Busy") [];
    InfoBase.new (py "ibL") (py "Later") [] ].

Definition mixed_sessions : list Session.t :=
  [ session_on (py "ibB") (Some (morning 600));
    session_on (py "ibB")
      (Some (aware (63839664000000000 + 720 * 60000000) 10800000000));
    session_on (py "ibL") None ].

(** Two lines under one key, and no blank line after them. *)
Definition unterminated : list str := [py "name: first"; py "name : second"].

End Fixture.

(** *** Session section of the text report *)

Module SessionSection.

(** The line that stands for the [k] sessions left out. *)
Definition notice (k : nat) : str :=
  py "  ... и ещё " ++ str_of_int (Z.of_nat k) ++ py " сеансов".

(** What the section says of one session: a line for the user, a line for
    the application, and a line for the start time when there is one. *)
Definition entry (str_datetime : datetime -> str) (s : Session.t) : list str :=
  [ py "  - Пользователь: " ++ Session.user_name s;
    py "    Приложение: " ++ Session.app_id s ]
  ++ match Session.started_at s with
     | Some t => [py "    Начало: " ++ str_datetime t]
     | None => []
     end.

(** The user a line names, when it is the first line of an entry. *)
Definition listed_user (line : str) : option str :=
  let mark := py "  - Пользователь: " in
  if starts_with mark line then Some (drop (length mark) line) else None.

(** The section for a list of [n] sessions of which [shown] are listed:
    the heading, the total, the entries of the sessions listed, in their
    order, and the notice if there is one. *)
Definition section (str_datetime : datetime -> str) (n : nat)
    (shown : list Session.t) (notice : list str) : list str :=
  [ LF :: py "### АКТИВНЫЕ СЕАНСЫ ###";
    py "Всего сеансов: " ++ str_of_int (Z.of_nat n) ]
  ++ concat (entry str_datetime <$> shown)
  ++ notice.

End SessionSection.

(** ** Closed forms and invariants used in the proofs *)

(** An infobase after the first statement of its turn: counted. *)
Definition counted (S : list Session.t) (ib : InfoBase.t) : InfoBase.t :=
  InfoBase.set_sessions_count (len (Spec.sessions_of ib S)) ib.

(** The attributes of an infobase after a turn of the loop that ended
    normally. *)
Definition correlated (S : list Session.t) (ib : InfoBase.t) : InfoBase.t :=
  let n := len (Spec.sessions_of ib S) in
  InfoBase.mk (InfoBase.infobase_id ib) (InfoBase.name ib) (InfoBase.descr ib)
    (InfoBase.sessions_deny ib) (InfoBase.scheduled_jobs_deny ib) n
    (match Spec.active_times ib S with
     | t :: ts =>
       match py_max t ts with
       | inr latest => Some latest
       | inl _ => InfoBase.last_session_time ib
       end
     | [] => InfoBase.last_session_time ib
     end)
    (if (n =? 0)%Z then true else InfoBase.is_inactive ib).

(** The kind of a time stamp: offset-aware or not. *)
Definition is_aware (t : datetime) : bool :=
  match utcoffset t with Some _ => true | None => false end.

(** The attributes a fetched infobase starts with. *)
Definition fresh (ib : InfoBase.t) : Prop :=
  InfoBase.last_session_time ib = None /\ InfoBase.is_inactive ib = false.

(** What holds of a report between two turns of the loop over clusters. *)
Definition inactive_consistent (report : ClusterReport.t) : Prop :=
  Forall (fun ib => InfoBase.is_inactive ib = true <-> Spec.no_sessions ib)
         (ClusterReport.infobases report)
  /\ ClusterReport.inactive_bases report
     = filter Spec.no_sessions (ClusterReport.infobases report).

(** What holds of a report however the loop over clusters was left: the
    flags of its infobases are right, its inactive bases are flagged and
    without sessions, and they begin with the inactive ones among its
    infobases. *)
Definition inactive_sound (report : ClusterReport.t) : Prop :=
  Forall (fun ib => InfoBase.is_inactive ib = true <-> Spec.no_sessions ib)
         (ClusterReport.infobases report)
  /\ Forall (fun ib => InfoBase.is_inactive ib = true /\ Spec.no_sessions ib)
            (ClusterReport.inactive_bases report)
  /\ filter Spec.no_sessions (ClusterReport.infobases report)
     `prefix_of` ClusterReport.inactive_bases report.

(** The records still to come when the block being read has given the
    fields [pending] so far. *)
Definition records_after (pending : list (str * str)) (lines : list str)
  : list item :=
  match Spec.runs lines with
  | b :: bs =>
    Spec.last_wins <$> filter (fun f => f ≠ [])
                              ((pending ++ Spec.fields b) :: (Spec.fields <$> bs))
  | [] => []
  end.

(** ** JSON documents: what the decoder needs to get a document back *)

Module JsonDoc.
Import Json.

(** The keys of every [dict] are pairwise distinct, as in any [dict]. *)
Fixpoint wf (v : t) : Prop :=
  match v with
  | List l =>
    (fix all (l : list t) : Prop :=
       match l with [] => True | x :: r => wf x /\ all r end) l
  | Dict d =>
    NoDup d.*1 /\
    (fix all (d : list (str * t)) : Prop :=
       match d with [] => True | (_, x) :: r => wf x /\ all r end) d
  | _ => True
  end.

(** Fuel that lets [scan_once] read a document back. *)
Fixpoint weight (v : t) : nat :=
  match v with
  | List l =>
    S ((fix sum (l : list t) : nat :=
          match l with [] => O | x :: r => S (weight x + sum r) end) l)
  | Dict d =>
    S ((fix sum (d : list (str * t)) : nat :=
          match d with [] => O | (_, x) :: r => S (weight x + sum r) end) d)
  | _ => 1%nat
  end.

Definition weight_items (l : list t) : nat :=
  (fix sum (l : list t) : nat :=
     match l with [] => O | x :: r => S (weight x + sum r) end) l.

Definition weight_pairs (d : list (str * t)) : nat :=
  (fix sum (d : list (str * t)) : nat :=
     match d with [] => O | (_, x) :: r => S (weight x + sum r) end) d.

(** The items after the first, as the encoder lays them out. *)
Fixpoint encode_more (indent level : nat) (l : list t) : str :=
  match l with
  | [] => []
  | y :: r => py "," ++ newline_indent indent level
              ++ encode indent level y ++ encode_more indent level r
  end.

Fixpoint encode_more_pairs (indent level : nat) (d : list (str * t)) : str :=
  match d with
  | [] => []
  | (k, y) :: r => py "," ++ newline_indent indent level
                   ++ encode_str k ++ py ": "
                   ++ encode indent level y ++ encode_more_pairs indent level r
  end.

(** What may follow a value in a document: nothing, a comma, a line end. *)
Definition delimited (rest : str) : Prop :=
  match rest with
  | [] => True
  | c :: _ => c = 44 \/ c = LF
  end.

(** The decimal digits of [u], as code points. *)
Definition digits (u : Decimal.uint) : str :=
  N_of_ascii <$> list_ascii_of_string (NilEmpty.string_of_uint u).

Definition nonzero_head (u : Decimal.uint) : Prop :=
  match u with
  | Decimal.Nil | Decimal.D0 _ => False
  | _ => True
  end.

Definition no_digit_ahead (rest : str) : Prop :=
  match rest with
  | [] => True
  | c :: _ => is_digit c = false
  end.

(** A value starts with a character that is neither white space nor a
    closing bracket. *)
Definition opens (c : N) : Prop := is_ws c = false /\ c ≠ 93 /\ c ≠ 125.

(** What the induction gives for a value: it is read back from any place
    where something that may follow a value follows it. *)
Definition reads_back (v : t) : Prop :=
  forall indent level rest fuel,
    delimited rest -> (weight v <= fuel)%nat ->
    scan_once fuel (encode indent level v ++ rest) = Some (v, rest).

End JsonDoc.

(** ** Saving a report *)

Section SaveReport.

Variable strftime : datetime -> str.
Variable str_datetime : datetime -> str.
Variable isoformat : datetime -> str.

(** [d.strftime('%Y%m%d_%H%M%S')] of the standard library. *)
Variable timestamp : datetime -> str.

(** The name [save_report] makes up when it is given none, at time [now]. *)
Definition default_filename (now : datetime) (output_format : str) : str :=
  let timestamp := timestamp now in
  let ext := if bool_decide (output_format = py "json") then py "json" else py "txt" in
  py "cluster_report_" ++ timestamp ++ py "." ++ ext.

(** [%(asctime)s] of the log format, for a record made at the given
    time. *)
Variable asctime : datetime -> str.

(** The file the logger of the module writes to. *)
Definition LOG_FILE : str := py "cluster_report.log".

(** [logger.info(message)] at time [t], as far as files go: the file
    handler appends one line, in the format of the module, to the log. *)
Definition logger_info (t : datetime) (message : str) (files : gmap str str)
  : gmap str str :=
  <[LOG_FILE := default [] (files !! LOG_FILE)
                ++ asctime t ++ py " - INFO - " ++ message ++ [LF]]> files.

(** [save_report], called at time [now] and logging at time [logged], on
    the files there are: the text each name holds, names taken as they
    are written.  Opening a name for writing and writing the content
    leaves the name with that content, whatever it held before; the
    message to the log follows. *)
Definition save_report (report : ClusterReport.t) (filename : option str)
    (output_format : str) (now logged : datetime) (files : gmap str str)
  : str * gmap str str :=
  let filename :=
    match filename with
    | None => default_filename now output_format
    | Some filename => filename
    end in
  let report_content :=
    generate_report strftime str_datetime isoformat report output_format in
  let files := <[filename := report_content]> files in
  let files := logger_info logged (py "Отчёт сохранён: " ++ filename) files in
  (filename, files).

End SaveReport.

(** ** Listings, as the utility prints them *)

Module Listing.

(** One field: the key, a colon with a space on either side, the value. *)
Definition line (kv : str * str) : str := kv.1 ++ py " : " ++ kv.2.

(** One record: its fields, a line each, and a blank line after them. *)
Definition record (kvs : list (str * str)) : list str := (line <$> kvs) ++ [[]].

Definition lines (records : list (list (str * str))) : list str :=
  concat (record <$> records).

(** The text of a listing: every line ended by a line feed. *)
Definition text (records : list (list (str * str))) : str :=
  join [LF] (lines records ++ [[]]).

(** A field the utility can print on one line and the parser can get back:
    no white space around the key or the value, no colon in the key, no
    line feed in either. *)
Definition printable (kv : str * str) : Prop :=
  strip kv.1 = kv.1 /\ strip kv.2 = kv.2
  /\ (COLON ∉ kv.1) /\ (LF ∉ kv.1) /\ (LF ∉ kv.2).

(** The fields of a cluster in the listing of [cluster list]. *)
Definition cluster (c : Cluster.t) : list (str * str) :=
  [ (py "cluster", Cluster.cluster_id c); (py "host", Cluster.host c);
    (py "port", Cluster.port c); (py "name", Cluster.name c) ].

End Listing.

(** ** The command lines of a run *)

(** What [_parse_output] returns once its loop has left [items] and
    [current_item]. *)
Definition finish (st : list item * item) : list item :=
  let '(items, current_item) := st in
  if nonempty_item current_item then items ++ [current_item] else items.

(** The command lines of a collection pass over [clusters]. *)
Definition collect_commands (config : ClusterConfig.t) (clusters : list Cluster.t)
  : list (list str) :=
  get_clusters_cmd config
  :: concat ((fun c => [ get_servers_cmd config (Cluster.cluster_id c);
                         get_infobases_cmd config (Cluster.cluster_id c);
                         get_sessions_cmd config (Cluster.cluster_id c) None ])
             <$> clusters).

(** The command lines of a live run of the planner. *)
Definition block_commands (config : ClusterConfig.t) (report : ClusterReport.t)
  : list (list str) :=
  concat ((fun c =>
             (fun ib => block_infobase_cmd config (Cluster.cluster_id c)
                          (InfoBase.infobase_id ib) true true inactivity_message)
             <$> ClusterReport.inactive_bases report)
          <$> ClusterReport.clusters report).

(** A command line that only lists: its fourth word is [list] or
    [summary], where [infobase update] and [session terminate] differ. *)
Definition listing_command (cmd : list str) : Prop :=
  cmd !! 3%nat = Some (py "list") \/ cmd !! 3%nat = Some (py "summary").

(** ** What a report holds *)

(** The counters of an infobase are backed by the sessions [S]: its count
    is no more than there are sessions, a base flagged inactive has no last
    session time, and a last session time is the last activity of one of
    the sessions on that base. *)
Definition backed_by (S : list Session.t) (ib : InfoBase.t) : Prop :=
  (0 <= InfoBase.sessions_count ib <= len S)%Z
  /\ (InfoBase.is_inactive ib = true -> InfoBase.last_session_time ib = None)
  /\ (forall t, InfoBase.last_session_time ib = Some t ->
        (0 < InfoBase.sessions_count ib)%Z
        /\ exists s, s ∈ S
             /\ Session.infobase_id s = InfoBase.infobase_id ib
             /\ Session.last_active_at s = Some t).

(** An inactive base as the loop leaves it: flagged, without a session and
    without a last session time. *)
Definition idle (ib : InfoBase.t) : Prop :=
  InfoBase.is_inactive ib = true
  /\ InfoBase.sessions_count ib = 0%Z
  /\ InfoBase.last_session_time ib = None.

(** What every turn of the loop over clusters keeps, however it ends, in
    a pass begun at [now]. *)
Definition settled (now : datetime) (report : ClusterReport.t) : Prop :=
  ClusterReport.generated_at report = now
  /\ Forall (backed_by (ClusterReport.sessions report))
            (ClusterReport.infobases report)
  /\ Forall idle (ClusterReport.inactive_bases report).

(** The entry of an infobase in the JSON document says it is inactive. *)
Definition flagged (entry : Json.t) : bool :=
  match Json.field (py "is_inactive") entry with
  | Some (Json.Bool b) => b
  | _ => false
  end.

(** *** More sample runs *)

Module Scenario.

Definition main_cluster : Cluster.t := Cluster.mk (py "c1") (py "srv1") (py "1540") (py "Main").
Definition spare_cluster : Cluster.t := Cluster.mk (py "c2") (py "srv2") (py "1541") [].

(** A utility that prints the listing of two clusters, whatever it is asked. *)
Definition lists_two (cmd : list str) (w : unit) : RunResult * unit :=
  (Completed 0 (Listing.text (Listing.cluster <$> [main_cluster; spare_cluster])) [], w).

(** A utility that carries out whatever it is asked and says so. *)
Definition obliging (cmd : list str) (w : unit) : RunResult * unit :=
  (Completed 0 (py "Infobase updated") [], w).

(** A report with two clusters and two inactive bases. *)
Definition planned : ClusterReport.t :=
  ClusterReport.mk (naive 0) [main_cluster; spare_cluster] [] [] []
    [ InfoBase.new (py "ib3") (py "Archive") [];
      InfoBase.new (py "ib4") (py "Sandbox") [] ] [].

End Scenario.

(** ** The headings of the text report *)

(** A line of the text report that opens a section: it begins with a line
    feed, which sets it off from the line before. *)
Definition heading (line : str) : Prop := head line = Some LF.

#[global] Instance heading_dec (line : str) : Decision (heading line).
Proof. unfold heading. apply _. Defined.

(** * Proofs *)

(** ** Python text *)

Example py_ascii : py "a: 1" = [97; 58; 32; 49].
Proof. reflexivity. Qed.

Example py_cyrillic : py "ещё" = [1077; 1097; 1105].
Proof. reflexivity. Qed.

Example strip_example : strip (py "  host : srv1 ") = py "host : srv1".
Proof. reflexivity. Qed.

Example split_example :
  split LF (py "a" ++ [LF; LF] ++ py "b") = [py "a"; []; py "b"].
Proof. reflexivity. Qed.

Example partition_example :
  partition COLON (py "k: v:w") = (py "k", [COLON], py " v:w").
Proof. reflexivity. Qed.

Example str_of_int_examples :
  str_of_int 1545 = py "1545" /\ str_of_int 0 = py "0" /\ str_of_int (-7) = py "-7".
Proof. repeat split; reflexivity. Qed.

Lemma split_nonempty (sep : N) (s : str) : split sep s ≠ [].
Proof.
  destruct s as [|c r]; cbn; [done|].
  destruct (c =? sep); [done|]. by destruct (split sep r).
Qed.

(** [split] cuts at every separator and nowhere else. *)
Lemma join_split (sep : N) (s : str) : join [sep] (split sep s) = s.
Proof.
  induction s as [|c r IH]; [reflexivity|].
  cbn [split]. pose proof (split_nonempty sep r) as Hne.
  destruct (N.eqb_spec c sep) as [->|Hc].
  - destruct (split sep r) as [|w ws]; [done|].
    cbn [join app] in IH |- *. by rewrite IH.
  - destruct (split sep r) as [|w ws]; [done|].
    destruct ws as [|w' ws]; cbn [join app] in IH |- *; by rewrite IH.
Qed.

Lemma split_lines_whole (sep : N) (s : str) :
  Forall (fun line => sep ∉ line) (split sep s).
Proof.
  induction s as [|c r IH]; cbn [split].
  - repeat constructor. intros H. inversion H.
  - destruct (N.eqb_spec c sep) as [->|Hc].
    + constructor; [|exact IH]. intros H. inversion H.
    + destruct (split sep r) as [|w ws]; [repeat constructor|].
      * intros H. apply elem_of_cons in H as [->|H]; [done | inversion H].
      * apply Forall_cons in IH as [Hw Hws]. constructor; [|exact Hws].
        intros H. apply elem_of_cons in H as [->|H]; done.
Qed.

(** ** White space *)

Local Abbreviation spaces := (Forall (fun c => isspace c = true)).

Lemma lstrip_spec (s : str) :
  exists l, s = l ++ lstrip s /\ spaces l
            /\ (forall c, head (lstrip s) = Some c -> isspace c = false).
Proof.
  induction s as [|c s (l & Hs & Hl & Hhd)]; cbn.
  - exists []. done.
  - destruct (isspace c) eqn:Hc.
    + exists (c :: l). split; [by rewrite Hs at 1|]. split; [by constructor|done].
    + exists []. split; [done|]. split; [constructor|]. intros c' [= <-]. done.
Qed.

Lemma lstrip_nil (s : str) : lstrip s = [] <-> spaces s.
Proof.
  induction s as [|c s IH]; cbn.
  - split; [constructor|done].
  - destruct (isspace c) eqn:Hc.
    + rewrite IH. split; [by constructor|]. intros H. by apply Forall_cons in H as [_ H].
    + split; [done|]. intros H. apply Forall_cons in H as [H _]. congruence.
Qed.

Lemma rstrip_spec (s : str) :
  exists r, s = rstrip s ++ r /\ spaces r
            /\ (forall c, last (rstrip s) = Some c -> isspace c = false).
Proof.
  unfold rstrip. destruct (lstrip_spec (reverse s)) as (l & Hs & Hl & Hhd).
  exists (reverse l). split; [|split].
  - rewrite <- reverse_app, <- Hs, reverse_involutive. done.
  - by apply Forall_reverse.
  - intros c. rewrite last_reverse. apply Hhd.
Qed.

Lemma rstrip_nil (s : str) : rstrip s = [] <-> spaces s.
Proof.
  unfold rstrip. rewrite <- (Forall_reverse _ s), <- lstrip_nil.
  split; [|by intros ->].
  intros H. apply (f_equal reverse) in H. by rewrite reverse_involutive in H.
Qed.

Lemma rstrip_head (s : str) c :
  head s = Some c -> isspace c = false -> head (rstrip s) = Some c.
Proof.
  intros Hhd Hc. destruct (rstrip_spec s) as (r & Hs & Hr & _).
  destruct (rstrip s) as [|c' t] eqn:Ht.
  - apply rstrip_nil in Ht. destruct s as [|c0 s]; [done|].
    injection Hhd as ->. apply Forall_cons in Ht as [Ht _]. congruence.
  - rewrite Hs in Hhd. exact Hhd.
Qed.

Lemma strip_trimmed (s : str) : Spec.trimmed s (strip s).
Proof.
  unfold Spec.trimmed, strip.
  destruct (lstrip_spec s) as (l & Hs & Hl & Hhd).
  destruct (rstrip_spec (lstrip s)) as (r & Ht & Hr & Hlast).
  split; [|split].
  - exists l, r. rewrite <- Ht. done.
  - intros c Hc. destruct (lstrip s) as [|c0 t] eqn:Hl0.
    + done.
    + destruct (isspace c0) eqn:Hc0.
      * specialize (Hhd c0 eq_refl). congruence.
      * rewrite (rstrip_head (c0 :: t) c0 eq_refl Hc0) in Hc. congruence.
  - exact Hlast.
Qed.

Lemma strip_nil (s : str) : strip s = [] <-> spaces s.
Proof.
  unfold strip. rewrite rstrip_nil. split.
  - intros H. apply lstrip_nil. destruct (lstrip_spec s) as (l & _ & _ & Hhd).
    destruct (lstrip s) as [|c t]; [done|].
    apply Forall_cons in H as [H _]. specialize (Hhd c eq_refl). congruence.
  - intros H. apply lstrip_nil in H. rewrite H. constructor.
Qed.

(** ** Loops that append *)

Lemma foldl_snoc_fmap {A B} (f : A -> B) (l : list A) (acc : list B) :
  foldl (fun acc x => acc ++ [f x]) acc l = acc ++ (f <$> l).
Proof.
  revert acc. induction l as [|x l IH]; intros acc; simpl.
  - by rewrite app_nil_r.
  - rewrite IH, <- app_assoc. done.
Qed.

(** ** The greatest of time stamps *)

Lemma uniform_head (a : datetime) (ts : list datetime) :
  Spec.uniform (a :: ts) <-> Forall (fun t => is_aware t = is_aware a) ts.
Proof.
  unfold Spec.uniform, is_aware. rewrite !Forall_cons. split.
  - intros [[Ha H]|[Ha H]]; eapply Forall_impl; try exact H; intros t Ht; cbn in *.
    + by rewrite Ha, Ht.
    + destruct (utcoffset a), (utcoffset t); done.
  - intros H. destruct (utcoffset a) eqn:Ha; [right | left]; (split; [done|]);
      eapply Forall_impl; try exact H; intros t Ht; cbn in *;
      destruct (utcoffset t); done.
Qed.

Lemma datetime_gt_same_kind (a b : datetime) :
  is_aware a = is_aware b ->
  datetime_gt a b = inr (Spec.instant a >? Spec.instant b)%Z.
Proof.
  unfold is_aware, datetime_gt, Spec.instant.
  destruct (utcoffset a), (utcoffset b); intros; try done; cbn.
  by rewrite !Z.sub_0_r.
Qed.

Lemma datetime_gt_other_kind (a b : datetime) :
  is_aware a ≠ is_aware b -> datetime_gt a b = inl TypeError_compare.
Proof.
  unfold is_aware, datetime_gt. destruct (utcoffset a), (utcoffset b); done.
Qed.

Lemma py_max_uniform (t : datetime) (ts : list datetime) :
  Spec.uniform (t :: ts) ->
  exists latest, py_max t ts = inr latest /\ Spec.greatest latest (t :: ts).
Proof.
  rewrite uniform_head. unfold Spec.greatest.
  enough (forall t0, is_aware t0 = is_aware t ->
            Forall (fun x => is_aware x = is_aware t) ts ->
            exists latest, py_max t0 ts = inr latest
              /\ latest ∈ t0 :: ts
              /\ Forall (fun x => (Spec.instant x <= Spec.instant latest)%Z) (t0 :: ts))
    as H by (intros Hts; apply (H t eq_refl Hts)).
  induction ts as [|x ts IH]; intros t0 Ht0 Hts.
  - exists t0. cbn. split; [done|]. split; [left | repeat constructor; lia].
  - apply Forall_cons in Hts as [Hx Hts]. cbn [py_max].
    rewrite datetime_gt_same_kind by congruence.
    destruct (IH (if (Spec.instant x >? Spec.instant t0)%Z then x else t0))
      as (latest & Hmax & Hin & Hle); [by destruct (_ >? _)%Z | exact Hts |].
    exists latest. split; [exact Hmax|].
    apply Forall_cons in Hle as [Hhd Htl]. split.
    + apply elem_of_cons in Hin as [->|Hin].
      * destruct (_ >? _)%Z; [right; left | left].
      * right; right; exact Hin.
    + destruct (Z.gtb_spec (Spec.instant x) (Spec.instant t0));
        repeat constructor; try lia; exact Htl.
Qed.

Lemma py_max_mixed (t : datetime) (ts : list datetime) :
  ~ Spec.uniform (t :: ts) -> py_max t ts = inl TypeError_compare.
Proof.
  rewrite uniform_head.
  enough (forall t0, is_aware t0 = is_aware t ->
            ~ Forall (fun x => is_aware x = is_aware t) ts ->
            py_max t0 ts = inl TypeError_compare)
    as H by (intros Hts; apply (H t eq_refl Hts)).
  induction ts as [|x ts IH]; intros t0 Ht0 Hts.
  - destruct Hts. constructor.
  - cbn [py_max]. destruct (decide (is_aware x = is_aware t)) as [Hx|Hx].
    + rewrite datetime_gt_same_kind by congruence. apply IH.
      * by destruct (_ >? _)%Z.
      * intros H. apply Hts. by constructor.
    + rewrite datetime_gt_other_kind by congruence. reflexivity.
Qed.

Lemma uniform_dec (ts : list datetime) : Spec.uniform ts \/ ~ Spec.uniform ts.
Proof.
  destruct ts as [|t ts]; [left; left; constructor|].
  rewrite uniform_head.
  destruct (decide (Forall (fun x => is_aware x = is_aware t) ts)); [left | right]; done.
Qed.

(** ** Correlation *)

Lemma active_times_nil S ib :
  Spec.sessions_of ib S = [] -> Spec.active_times ib S = [].
Proof. unfold Spec.active_times. by intros ->. Qed.

Lemma sessions_count_zero S ib :
  (len (Spec.sessions_of ib S) =? 0)%Z = nonempty (Spec.sessions_of ib S) ->
  False.
Proof.
  unfold len. destruct (Spec.sessions_of ib S); cbn [nonempty length].
  - by rewrite Z.eqb_refl.
  - intros H. apply Z.eqb_eq in H. lia.
Qed.

Lemma correlate_infobase_normal S inactive ib :
  Spec.uniform (Spec.active_times ib S) ->
  correlate_infobase S inactive ib =
  Normal (correlated S ib,
          inactive ++ (if (InfoBase.sessions_count (correlated S ib) =? 0)%Z
                       then [correlated S ib] else [])).
Proof.
  intros Huniform. unfold correlate_infobase, correlated.
  fold (Spec.sessions_of ib S). fold (Spec.active_times ib S).
  fold (len (Spec.sessions_of ib S)).
  pose proof (active_times_nil S ib) as Hnil.
  pose proof (sessions_count_zero S ib) as Hzero.
  destruct (Spec.sessions_of ib S) as [|s m] eqn:Hsessions.
  - rewrite Hnil by done. cbn. reflexivity.
  - cbn [nonempty] in *.
    destruct ((len (s :: m) =? 0)%Z) eqn:Hn; [by destruct Hzero|].
    destruct (Spec.active_times ib S) as [|t ts] eqn:Htimes.
    + cbn. rewrite Hn, app_nil_r. reflexivity.
    + destruct (py_max_uniform t ts Huniform) as (latest & -> & _).
      cbn. rewrite Hn, app_nil_r. reflexivity.
Qed.

Lemma correlate_infobase_abrupt S inactive ib :
  ~ Spec.uniform (Spec.active_times ib S) ->
  correlate_infobase S inactive ib = Abrupt TypeError_compare (counted S ib, inactive).
Proof.
  intros Hmixed. unfold correlate_infobase, counted.
  fold (Spec.sessions_of ib S). fold (Spec.active_times ib S).
  fold (len (Spec.sessions_of ib S)).
  pose proof (active_times_nil S ib) as Hnil.
  destruct (Spec.sessions_of ib S) as [|s m] eqn:Hsessions.
  - destruct Hmixed. rewrite Hnil by done. left. constructor.
  - cbn [nonempty]. destruct (Spec.active_times ib S) as [|t ts] eqn:Htimes.
    + destruct Hmixed. left. constructor.
    + rewrite (py_max_mixed t ts Hmixed). reflexivity.
Qed.

Lemma correlate_from_normal S B walked inactive :
  Spec.comparable_times B S ->
  correlate_from S walked B inactive =
  Normal (walked ++ (correlated S <$> B),
          inactive ++ filter Spec.no_sessions (correlated S <$> B)).
Proof.
  unfold Spec.comparable_times. intros HB. revert walked inactive.
  induction HB as [|ib B Hib _ IH]; intros walked inactive;
    cbn [correlate_from fmap list_fmap].
  - by rewrite !app_nil_r.
  - rewrite (correlate_infobase_normal _ _ _ Hib), IH, <- !app_assoc.
    do 2 f_equal. rewrite filter_cons. unfold Spec.no_sessions at 2.
    destruct (Z.eqb_spec (InfoBase.sessions_count (correlated S ib)) 0);
      case_decide; done.
Qed.

Lemma correlate_from_abrupt S B ib rest walked inactive :
  Spec.comparable_times B S ->
  ~ Spec.uniform (Spec.active_times ib S) ->
  correlate_from S walked (B ++ ib :: rest) inactive =
  Abrupt TypeError_compare
    (walked ++ (correlated S <$> B) ++ counted S ib :: rest,
     inactive ++ filter Spec.no_sessions (correlated S <$> B)).
Proof.
  unfold Spec.comparable_times. intros HB Hib. revert walked inactive.
  induction HB as [|x B Hx _ IH]; intros walked inactive;
    cbn [correlate_from fmap list_fmap app].
  - rewrite (correlate_infobase_abrupt _ _ _ Hib), app_nil_r. reflexivity.
  - rewrite (correlate_infobase_normal _ _ _ Hx), IH, <- !app_assoc.
    do 2 f_equal. rewrite filter_cons. unfold Spec.no_sessions at 2.
    destruct (Z.eqb_spec (InfoBase.sessions_count (correlated S x)) 0);
      case_decide; done.
Qed.

(** The loop ends normally when the time stamps of every infobase compare;
    otherwise it is left at the first infobase whose time stamps do not. *)
Lemma correlate_cases B S inactive :
  (Spec.comparable_times B S
   /\ correlate B S inactive
      = Normal (correlated S <$> B,
                inactive ++ filter Spec.no_sessions (correlated S <$> B)))
  \/ (exists before ib rest,
        B = before ++ ib :: rest
        /\ Spec.comparable_times before S
        /\ ~ Spec.uniform (Spec.active_times ib S)
        /\ correlate B S inactive
           = Abrupt TypeError_compare
               ((correlated S <$> before) ++ counted S ib :: rest,
                inactive ++ filter Spec.no_sessions (correlated S <$> before))).
Proof.
  unfold correlate.
  assert (Spec.comparable_times B S
          \/ exists before ib rest, B = before ++ ib :: rest
               /\ Spec.comparable_times before S
               /\ ~ Spec.uniform (Spec.active_times ib S)) as [HB|Hsplit].
  { unfold Spec.comparable_times. induction B as [|ib B IH]; [left; constructor|].
    destruct (uniform_dec (Spec.active_times ib S)) as [Hib|Hib].
    - destruct IH as [HB|(before & x & rest & -> & Hdone & Hx)].
      + left. by constructor.
      + right. exists (ib :: before), x, rest. split; [done|]. split; [|done].
        by constructor.
    - right. exists [], ib, B. split; [done|]. split; [constructor | done]. }
  - left. split; [exact HB|]. apply (correlate_from_normal S B [] inactive HB).
  - right. destruct Hsplit as (before & ib & rest & -> & Hdone & Hib).
    exists before, ib, rest. split; [done|]. split; [done|]. split; [done|].
    apply (correlate_from_abrupt S before ib rest [] inactive Hdone Hib).
Qed.

Lemma correlate_normal B S inactive :
  Spec.comparable_times B S ->
  correlate B S inactive
  = Normal (correlated S <$> B,
            inactive ++ filter Spec.no_sessions (correlated S <$> B)).
Proof. apply (correlate_from_normal S B []). Qed.

Lemma correlate_normal_inv B S inactive B' inactive' :
  correlate B S inactive = Normal (B', inactive') ->
  Spec.comparable_times B S
  /\ B' = correlated S <$> B
  /\ inactive' = inactive ++ filter Spec.no_sessions (correlated S <$> B).
Proof.
  destruct (correlate_cases B S inactive)
    as [[HB ->]|(before & ib & rest & _ & _ & _ & ->)]; [|done].
  intros [= <- <-]. done.
Qed.
Lemma correlated_infobase_id S ib :
  InfoBase.infobase_id (correlated S ib) = InfoBase.infobase_id ib.
Proof. reflexivity. Qed.

Lemma correlated_sessions_count S ib :
  InfoBase.sessions_count (correlated S ib) = len (Spec.sessions_of (correlated S ib) S).
Proof. reflexivity. Qed.

Lemma matched_sessions_cons ib B S :
  InfoBase.infobase_id ib ∉ (InfoBase.infobase_id <$> B) ->
  length (Spec.matched_sessions (ib :: B) S) =
  (length (Spec.sessions_of ib S) + length (Spec.matched_sessions B S))%nat.
Proof.
  intros Hfresh. unfold Spec.matched_sessions, Spec.sessions_of.
  induction S as [|s S IH]; [done|].
  rewrite !filter_cons.
  assert (Session.infobase_id s ∈ (InfoBase.infobase_id <$> ib :: B) <->
          Session.infobase_id s = InfoBase.infobase_id ib
          \/ Session.infobase_id s ∈ (InfoBase.infobase_id <$> B)) as Hin
    by (rewrite fmap_cons, elem_of_cons; done).
  repeat case_decide; cbn [length]; rewrite IH; try lia; exfalso;
    first [ tauto | apply Hfresh; congruence ].
Qed.

Lemma sum_sessions_count_matched B S :
  NoDup (InfoBase.infobase_id <$> B) ->
  Spec.sum_sessions_count (correlated S <$> B)
  = len (Spec.matched_sessions (correlated S <$> B) S).
Proof.
  unfold len. induction B as [|ib B IH]; intros Hnd.
  - simpl. unfold Spec.matched_sessions.
    induction S as [|s S IHS]; [done|].
    rewrite filter_cons. case_decide; [set_solver|done].
  - rewrite fmap_cons in Hnd. apply NoDup_cons in Hnd as [Hfresh Hnd].
    rewrite fmap_cons. cbn [Spec.sum_sessions_count foldr].
    fold (Spec.sum_sessions_count (correlated S <$> B)).
    rewrite IH by done. rewrite matched_sessions_cons.
    + rewrite correlated_sessions_count. unfold len. lia.
    + rewrite <- list_fmap_compose. exact Hfresh.
Qed.

(** C1 (amended): after one correlation pass every infobase keeps its id and
    has as [sessions_count] the number of sessions of [S] that carry its id;
    when the ids of [B] are pairwise distinct, the counts add up to the
    number of sessions of [S] whose id is that of some infobase of [B]. *)

(** C1 (amended): when the time stamps of the sessions of every infobase
    compare, the correlation pass ends normally; every infobase then keeps
    its id and has as [sessions_count] the number of sessions of [S] that
    carry its id, and when the ids of [B] are pairwise distinct, the counts
    add up to the number of sessions of [S] whose id is that of some
    infobase of [B]. *)
Theorem sessions_count_after_correlation
    (B : list InfoBase.t) (S : list Session.t) (inactive : list InfoBase.t)
    (Hcomparable : Spec.comparable_times B S) :
  exists B' inactive',
    correlate B S inactive = Normal (B', inactive')
    /\ InfoBase.infobase_id <$> B' = InfoBase.infobase_id <$> B
    /\ Forall (fun ib => InfoBase.sessions_count ib = len (Spec.sessions_of ib S)) B'
    /\ (NoDup (InfoBase.infobase_id <$> B) ->
        Spec.sum_sessions_count B' = len (Spec.matched_sessions B' S)).
Proof.
  eexists _, _. split; [apply correlate_normal, Hcomparable|].
  split; [|split].
  - rewrite <- list_fmap_compose. done.
  - apply Forall_fmap, Forall_true. intros ib. apply correlated_sessions_count.
  - apply sum_sessions_count_matched.
Qed.

(** C1 fails as stated, in two ways.  With two infobases of one id and one
    session on that id the counts add up to 2, and one session matches.
    With two sessions on the first infobase whose time stamps are of
    different kinds, [max] raises in the turn of that infobase, and the
    second infobase is left with the count 0 although one session is on
    it. *)
Lemma sessions_count_not_as_claimed :
  (exists B' inactive',
     correlate Fixture.twin_infobases Fixture.one_session []
     = Normal (B', inactive')
     /\ Spec.sum_sessions_count B' = 2%Z
     /\ len (Spec.matched_sessions B' Fixture.one_session) = 1%Z)
  /\ (exists B' inactive',
        correlate Fixture.busy_infobases Fixture.mixed_sessions []
        = Abrupt TypeError_compare (B', inactive')
        /\ InfoBase.sessions_count <$> B' = [2%Z; 0%Z]
        /\ (fun ib => len (Spec.sessions_of ib Fixture.mixed_sessions)) <$> B'
           = [2%Z; 1%Z]).
Proof.
  split; eexists _, _; (split; [vm_compute; reflexivity|]);
    split; vm_compute; reflexivity.
Qed.

Lemma comparable_times_naive (B : list InfoBase.t) (S : list Session.t) :
  Forall (fun s => from_option is_aware false (Session.last_active_at s) = false) S ->
  Spec.comparable_times B S.
Proof.
  intros HS. apply Forall_true. intros ib. left.
  unfold Spec.active_times, Spec.sessions_of.
  apply Forall_forall. intros t Ht.
  apply list_elem_of_omap in Ht as (s & Hs & Ht).
  apply list_elem_of_filter in Hs as [_ Hs].
  rewrite Forall_forall in HS. specialize (HS s Hs). rewrite Ht in HS.
  unfold is_aware in HS. cbn in HS. by destruct (utcoffset t).
Qed.

Ltac naive_sessions :=
  apply comparable_times_naive; refine (bool_decide_unpack _ _);
  vm_compute; exact I.

Lemma sessions_count_after_correlation_witness :
  NoDup (InfoBase.infobase_id <$> Fixture.three_infobases)
  /\ Spec.comparable_times Fixture.three_infobases Fixture.three_sessions
  /\ exists B' inactive',
       correlate Fixture.three_infobases Fixture.three_sessions []
       = Normal (B', inactive')
       /\ Spec.sum_sessions_count B'
          = len (Spec.matched_sessions B' Fixture.three_sessions).
Proof.
  assert (NoDup (InfoBase.infobase_id <$> Fixture.three_infobases)) as Hnd.
  { refine (bool_decide_unpack _ _). vm_compute. exact I. }
  assert (Spec.comparable_times Fixture.three_infobases Fixture.three_sessions)
    as Hcomparable by naive_sessions.
  split; [exact Hnd|]. split; [exact Hcomparable|].
  destruct (sessions_count_after_correlation
              Fixture.three_infobases Fixture.three_sessions [] Hcomparable)
    as (B' & inactive' & Hrun & _ & _ & Hsum).
  exists B', inactive'. split; [exact Hrun | exact (Hsum Hnd)].
Defined.

Example correlation_scenario :
  correlate Fixture.three_infobases Fixture.three_sessions [] =
  Normal
    ([ InfoBase.mk (py "ib1") (py "Accounting") [] (py "off") (py "off") 2
         (Some (Fixture.morning 250)) false;
       InfoBase.mk (py "ib2") (py "Payroll") [] (py "off") (py "off") 1 None false;
       InfoBase.mk (py "ib3") (py "Archive") [] (py "off") (py "off") 0 None true ],
     [ InfoBase.mk (py "ib3") (py "Archive") [] (py "off") (py "off") 0 None true ]).
Proof. vm_compute. reflexivity. Qed.

Lemma correlated_inactive S ib :
  InfoBase.is_inactive ib = false ->
  InfoBase.is_inactive (correlated S ib) = true
  <-> InfoBase.sessions_count (correlated S ib) = 0%Z.
Proof.
  intros Hib. unfold correlated. cbn [InfoBase.is_inactive InfoBase.sessions_count].
  destruct (Z.eqb_spec (len (Spec.sessions_of ib S)) 0) as [->|Hne]; [done|].
  rewrite Hib. split; [done|]. intros; done.
Qed.

Lemma correlated_last_session_time S ib :
  Spec.uniform (Spec.active_times ib S) ->
  InfoBase.last_session_time ib = None ->
  (InfoBase.last_session_time (correlated S ib) = None
   <-> Spec.active_times (correlated S ib) S = [])
  /\ (forall t, InfoBase.last_session_time (correlated S ib) = Some t ->
                Spec.greatest t (Spec.active_times (correlated S ib) S)).
Proof.
  intros Huniform Hib.
  change (Spec.active_times (correlated S ib) S) with (Spec.active_times ib S).
  unfold correlated. cbn [InfoBase.last_session_time].
  destruct (Spec.active_times ib S) as [|t ts].
  - rewrite Hib. split; [done|]. intros t; done.
  - destruct (py_max_uniform t ts Huniform) as (latest & -> & Hgreatest).
    split; [done|]. intros t' [= <-]. exact Hgreatest.
Qed.

Section RacProofs.

Context {World : Type}.
Variable subprocess_run : list str -> World -> RunResult * World.
Variable fromisoformat : str -> option datetime.
Variable config : ClusterConfig.t.
Variable datetime_now : World -> datetime.
Variable str_exception : Exception -> str.

Local Abbreviation M := (@M World).

Lemma bind_run {A B} (m : M A) (f : A -> M B) e :
  (m ≫= f) e = let '(x, e') := m e in f x e'.
Proof. reflexivity. Qed.

Lemma ret_run {A} (x : A) (e : @Env World) : mret (M := M) x e = (x, e).
Proof. reflexivity. Qed.

Lemma clock_run (e : @Env World) :
  clock datetime_now e = (datetime_now (world e), e).
Proof. reflexivity. Qed.

Lemma for_each_cons {A S} (body : S -> A -> M S) x l s e :
  for_each (x :: l) body s e =
  let '(s', e') := body s x e in for_each l body s' e'.
Proof. reflexivity. Qed.

Lemma for_each_invariant {A S} (P : S -> Prop) (body : S -> A -> M S) :
  (forall s x e, P s -> P (body s x e).1) ->
  forall l s e, P s -> P (for_each l body s e).1.
Proof.
  intros Hbody l. induction l as [|x l IH]; intros s e Hs.
  - exact Hs.
  - rewrite for_each_cons. specialize (Hbody s x e Hs).
    destruct (body s x e) as [s' e']. apply IH, Hbody.
Qed.

Lemma try_each_cons {A S} (body : S -> A -> M (completion S)) x l s e :
  try_each (x :: l) body s e =
  let '(c, e') := body s x e in
  match c with
  | Normal s' => try_each l body s' e'
  | Abrupt exc s' => (Abrupt exc s', e')
  end.
Proof.
  cbn [try_each]. rewrite bind_run. destruct (body s x e) as [[s'|exc s'] e'];
    reflexivity.
Qed.

(** What holds between the turns of a loop that an exception can leave,
    and what that gives for the way the loop ends. *)
Lemma try_each_outcome {A S} (P : S -> Prop) (Q : completion S -> Prop)
    (body : S -> A -> M (completion S)) :
  (forall s, P s -> Q (Normal s)) ->
  (forall s x e, P s ->
     match (body s x e).1 with
     | Normal s' => P s'
     | Abrupt exc s' => Q (Abrupt exc s')
     end) ->
  forall l s e, P s -> Q (try_each l body s e).1.
Proof.
  intros Hend Hbody l. induction l as [|x l IH]; intros s e Hs.
  - apply Hend, Hs.
  - rewrite try_each_cons. specialize (Hbody s x e Hs).
    destruct (body s x e) as [[s'|exc s'] e']; cbn [fst] in *.
    + apply IH, Hbody.
    + exact Hbody.
Qed.

Lemma get_infobases_result cluster_id e :
  (get_infobases subprocess_run config cluster_id e).1 =
  (fun it => InfoBase.new (get it (py "infobase")) (get it (py "name"))
                          (get it (py "descr")))
  <$> _parse_output (_execute_command subprocess_run
                       (get_infobases_cmd config cluster_id) e).1.
Proof.
  unfold get_infobases. rewrite bind_run.
  destruct (_execute_command _ _ e) as [output e'].
  apply (foldl_snoc_fmap _ _ []).
Qed.

Lemma get_infobases_fresh cluster_id e :
  Forall fresh (get_infobases subprocess_run config cluster_id e).1.
Proof.
  rewrite get_infobases_result. apply Forall_fmap, Forall_true.
  intros it. split; reflexivity.
Qed.

Lemma get_sessions_result cluster_id infobase_id (e : Env) :
  (get_sessions subprocess_run fromisoformat config cluster_id infobase_id e).1 =
  (fun it => Session.mk (get it (py "session")) (get it (py "infobase"))
               (get it (py "user-name")) (get it (py "app-id"))
               (parse_time fromisoformat it (py "started-at"))
               (parse_time fromisoformat it (py "last-active-at")))
  <$> _parse_output (_execute_command subprocess_run
                       (get_sessions_cmd config cluster_id infobase_id) e).1.
Proof.
  unfold get_sessions. rewrite bind_run.
  destruct (_execute_command _ _ e) as [output e'].
  apply (foldl_snoc_fmap _ _ []).
Qed.

(** *** One turn of the loop over clusters *)

(** The three queries of the turn, and what the rest of the turn makes of
    their results. *)
Lemma collect_cluster_outcome report cluster (e : Env) :
  let cid := Cluster.cluster_id cluster in
  exists servers infobases all_sessions e1 e2 e3,
    get_servers subprocess_run config cid e = (servers, e1)
    /\ get_infobases subprocess_run config cid e1 = (infobases, e2)
    /\ get_sessions subprocess_run fromisoformat config cid None e2
       = (all_sessions, e3)
    /\ collect_cluster subprocess_run fromisoformat config datetime_now
         report cluster e
       = (let report' := extend_sessions all_sessions (extend_servers servers report) in
          match inactive_threshold config (datetime_now (world e3)) with
          | inl exc => Abrupt exc report'
          | inr _ =>
            match correlate infobases all_sessions
                    (ClusterReport.inactive_bases report) with
            | Abrupt exc (_, inactive_bases) =>
              Abrupt exc (set_inactive_bases inactive_bases report')
            | Normal (infobases, inactive_bases) =>
              Normal (extend_infobases infobases
                        (set_inactive_bases inactive_bases report'))
            end
          end, e3).
Proof.
  cbn zeta.
  destruct (get_servers subprocess_run config (Cluster.cluster_id cluster) e)
    as [servers e1] eqn:H1.
  destruct (get_infobases subprocess_run config (Cluster.cluster_id cluster) e1)
    as [infobases e2] eqn:H2.
  destruct (get_sessions subprocess_run fromisoformat config
              (Cluster.cluster_id cluster) None e2) as [all_sessions e3] eqn:H3.
  exists servers, infobases, all_sessions, e1, e2, e3.
  do 3 (split; [done|]).
  unfold collect_cluster. rewrite bind_run, H1, bind_run, H2, bind_run, H3.
  rewrite bind_run, clock_run.
  destruct (inactive_threshold _ _); [reflexivity|].
  cbn [ClusterReport.inactive_bases extend_sessions extend_servers].
  destruct (correlate _ _ _) as [[B' inactive']|exc [B' inactive']]; reflexivity.
Qed.

Lemma consistent_sound report : inactive_consistent report -> inactive_sound report.
Proof.
  intros [Hflags Hinactive]. split; [exact Hflags|]. rewrite Hinactive. split; [|done].
  apply Forall_forall. intros ib Hib. apply list_elem_of_filter in Hib as [Hzero Hib].
  rewrite Forall_forall in Hflags. split; [apply Hflags|]; done.
Qed.

Lemma correlated_settled S (B : list InfoBase.t) :
  Forall fresh B ->
  Forall (fun ib => InfoBase.is_inactive ib = true /\ Spec.no_sessions ib)
         (filter Spec.no_sessions (correlated S <$> B)).
Proof.
  intros HB. apply Forall_forall. intros x Hx.
  apply list_elem_of_filter in Hx as [Hzero Hx].
  apply list_elem_of_fmap in Hx as (ib & -> & Hib).
  rewrite Forall_forall in HB. destruct (HB ib Hib) as [_ Hflag].
  split; [|exact Hzero]. apply correlated_inactive; done.
Qed.

(** A turn that ends normally keeps the inactive bases in step with the
    infobases; a turn that an exception leaves may have added inactive
    bases whose infobases the report never gets. *)
Lemma collect_cluster_consistent report cluster e :
  inactive_consistent report ->
  match (collect_cluster subprocess_run fromisoformat config datetime_now
           report cluster e).1 with
  | Normal report' => inactive_consistent report'
  | Abrupt _ report' => inactive_sound report'
  end.
Proof.
  intros Hreport.
  destruct (collect_cluster_outcome report cluster e)
    as (servers & infobases & all_sessions & e1 & e2 & e3 & _ & Hib & _ & ->).
  pose proof (get_infobases_fresh (Cluster.cluster_id cluster) e1) as Hfresh.
  rewrite Hib in Hfresh. cbn [fst] in Hfresh. cbn zeta. cbn [fst].
  destruct (inactive_threshold _ _) as [exc|_].
  { apply (consistent_sound _ Hreport). }
  destruct Hreport as [Hflags Hinactive].
  destruct (correlate_cases infobases all_sessions
              (ClusterReport.inactive_bases report))
    as [[_ ->]|(before & ib & rest & -> & _ & _ & ->)].
  - split; cbn.
    + apply Forall_app. split; [exact Hflags|].
      apply Forall_fmap. eapply Forall_impl; [exact Hfresh|].
      intros ib [_ Hib']. apply correlated_inactive, Hib'.
    + rewrite filter_app, Hinactive. reflexivity.
  - apply Forall_app in Hfresh as [Hbefore _].
    split; [exact Hflags|]. cbn. split.
    + apply Forall_app. split; [|by apply correlated_settled].
      apply (consistent_sound _ (conj Hflags Hinactive)).
    + rewrite Hinactive. by apply prefix_app_r.
Qed.

Lemma threshold_computed (now : datetime) :
  Spec.threshold_in_range (ClusterConfig.inactive_hours config) now ->
  exists threshold, inactive_threshold config now = inr threshold.
Proof.
  intros [Hdays Hdate]. unfold inactive_threshold, timedelta_hours, datetime_sub.
  destruct (Z.ltb_spec 999999999 (Z.abs (ClusterConfig.inactive_hours config / 24)));
    [lia|].
  destruct (Z.ltb_spec (wall now - ClusterConfig.inactive_hours config * 3600000000) 0);
    [lia|].
  destruct (Z.ltb_spec MAX_WALL
              (wall now - ClusterConfig.inactive_hours config * 3600000000)); [lia|].
  cbn. eauto.
Qed.

Lemma sessions_naive cluster_id infobase_id (e : Env) :
  (forall s t, fromisoformat s = Some t -> utcoffset t = None) ->
  Forall (fun s => from_option is_aware false (Session.last_active_at s) = false)
         (get_sessions subprocess_run fromisoformat config cluster_id infobase_id e).1.
Proof.
  intros Hnaive. rewrite get_sessions_result. apply Forall_fmap, Forall_true.
  intros it. cbn. unfold parse_time. destruct (nonempty _); [|reflexivity].
  destruct (fromisoformat _) as [t|] eqn:Ht; [|reflexivity].
  cbn. unfold is_aware. by rewrite (Hnaive _ _ Ht).
Qed.

(** With time stamps that compare and a threshold in range the turn ends
    normally. *)
Lemma collect_cluster_normal report cluster (e : Env) :
  (forall s t, fromisoformat s = Some t -> utcoffset t = None) ->
  (forall w, Spec.threshold_in_range (ClusterConfig.inactive_hours config)
               (datetime_now w)) ->
  exists report',
    (collect_cluster subprocess_run fromisoformat config datetime_now
       report cluster e).1 = Normal report'
    /\ ClusterReport.errors report' = ClusterReport.errors report.
Proof.
  intros Hnaive Hrange.
  destruct (collect_cluster_outcome report cluster e)
    as (servers & infobases & all_sessions & e1 & e2 & e3 & _ & _ & Hs & ->).
  pose proof (sessions_naive (Cluster.cluster_id cluster) None e2 Hnaive) as HS.
  rewrite Hs in HS. cbn [fst] in HS. cbn zeta. cbn [fst].
  destruct (threshold_computed _ (Hrange (world e3))) as (threshold & ->).
  rewrite (correlate_normal infobases all_sessions _
             (comparable_times_naive infobases all_sessions HS)).
  eexists. split; reflexivity.
Qed.

Lemma collect_cluster_errors report cluster (e : Env) :
  ClusterReport.errors
    (state_of (collect_cluster subprocess_run fromisoformat config datetime_now
                 report cluster e).1)
  = ClusterReport.errors report.
Proof.
  destruct (collect_cluster_outcome report cluster e)
    as (servers & infobases & all_sessions & e1 & e2 & e3 & _ & _ & _ & ->).
  cbn zeta. cbn [fst]. destruct (inactive_threshold _ _); [reflexivity|].
  destruct (correlate _ _ _) as [[B' inactive']|exc [B' inactive']]; reflexivity.
Qed.

(** How the loop over clusters ends: normally, with the inactive bases in
    step with the infobases, or left by an exception, with inactive bases
    that are sound; it never writes to [errors]. *)
Lemma collect_loop_consistent (clusters : list Cluster.t) report (e : Env) :
  inactive_consistent report -> ClusterReport.errors report = [] ->
  match (try_each clusters
           (collect_cluster subprocess_run fromisoformat config datetime_now)
           report e).1 with
  | Normal report' =>
    inactive_consistent report' /\ ClusterReport.errors report' = []
  | Abrupt _ report' =>
    inactive_sound report' /\ ClusterReport.errors report' = []
  end.
Proof.
  intros Hreport Herrors.
  apply (try_each_outcome
           (fun r => inactive_consistent r /\ ClusterReport.errors r = [])
           (fun c => match c with
                     | Normal r => inactive_consistent r /\ ClusterReport.errors r = []
                     | Abrupt _ r => inactive_sound r /\ ClusterReport.errors r = []
                     end)); [| |done].
  - intros r Hr. exact Hr.
  - intros r x e0 [Hr Hr0].
    pose proof (collect_cluster_consistent r x e0 Hr) as H.
    pose proof (collect_cluster_errors r x e0) as H0.
    destruct (collect_cluster _ _ _ _ r x e0).1; cbn in H0; (split; [exact H|]);
      congruence.
Qed.

(** The report of a pass: the report the loop over clusters ends with,
    with an error appended when an exception left the loop. *)
Lemma collect_cluster_info_outcome (e : Env) :
  exists clusters e1 c e2,
    get_clusters subprocess_run config e = (clusters, e1)
    /\ try_each clusters
         (collect_cluster subprocess_run fromisoformat config datetime_now)
         (ClusterReport.mk (datetime_now (world e)) clusters [] [] [] [] []) e1
       = (c, e2)
    /\ collect_cluster_info subprocess_run fromisoformat config datetime_now
         str_exception e
       = (match c with
          | Normal report => report
          | Abrupt exc report =>
            append_error (py "Ошибка сбора информации: " ++ str_exception exc) report
          end, e2).
Proof.
  destruct (get_clusters subprocess_run config e) as [clusters e1] eqn:H1.
  destruct (try_each clusters
              (collect_cluster subprocess_run fromisoformat config datetime_now)
              (ClusterReport.mk (datetime_now (world e)) clusters [] [] [] [] []) e1)
    as [c e2] eqn:H2.
  exists clusters, e1, c, e2. do 2 (split; [done|]).
  unfold collect_cluster_info. rewrite bind_run, clock_run, bind_run, H1.
  rewrite bind_run, H2. destruct c; reflexivity.
Qed.

(** C2 (amended): in the report of a collection pass every infobase is
    flagged inactive exactly when its session count is zero, and every
    inactive base is flagged and has no session.  When the pass recorded no
    error, the inactive bases are the zero-session infobases of the report,
    in the order of the infobase list; it records none when the time
    stamps it reads are all offset-naive and the inactivity threshold is in
    range.  Within one cluster a pass that ends normally keeps ids and
    names in the order in which they were fetched and adds the
    zero-session infobases in that order. *)
Theorem inactive_iff_no_sessions (e : Env) :
  let report :=
    (collect_cluster_info subprocess_run fromisoformat config datetime_now
       str_exception e).1 in
  Forall (fun ib => InfoBase.is_inactive ib = true <-> InfoBase.sessions_count ib = 0%Z)
         (ClusterReport.infobases report)
  /\ Forall (fun ib => InfoBase.is_inactive ib = true
                       /\ InfoBase.sessions_count ib = 0%Z)
            (ClusterReport.inactive_bases report)
  /\ (ClusterReport.errors report = [] ->
      ClusterReport.inactive_bases report
      = filter (fun ib => InfoBase.sessions_count ib = 0%Z)
               (ClusterReport.infobases report))
  /\ ((forall s t, fromisoformat s = Some t -> utcoffset t = None) ->
      (forall w, Spec.threshold_in_range (ClusterConfig.inactive_hours config)
                   (datetime_now w)) ->
      ClusterReport.errors report = [])
  /\ (forall cluster_id e' S inactive B' inactive',
        let B := (get_infobases subprocess_run config cluster_id e').1 in
        correlate B S inactive = Normal (B', inactive') ->
        InfoBase.infobase_id <$> B' = InfoBase.infobase_id <$> B
        /\ InfoBase.name <$> B' = InfoBase.name <$> B
        /\ inactive' = inactive ++ filter (fun ib => InfoBase.sessions_count ib = 0%Z) B').
Proof.
  cbn zeta.
  destruct (collect_cluster_info_outcome e) as (clusters & e1 & c & e2 & _ & Hloop & ->).
  cbn [fst].
  set (report0 := ClusterReport.mk (datetime_now (world e)) clusters [] [] [] [] [])
    in Hloop.
  pose proof (collect_loop_consistent clusters report0 e1
                (conj (Forall_nil_2 _) eq_refl) eq_refl) as Hc.
  rewrite Hloop in Hc. cbn [fst] in Hc.
  split; [|split; [|split; [|split]]].
  - destruct c as [report|exc report]; apply Hc.
  - destruct c as [report|exc report];
      [apply (consistent_sound _ (proj1 Hc)) | apply Hc].
  - destruct c as [report|exc report]; [intros _; apply Hc|].
    cbn. intros H. by apply app_eq_nil in H as [_ ?].
  - intros Hnaive Hrange.
    assert (exists report, c = Normal report) as [report ->].
    { replace c with (try_each clusters
                        (collect_cluster subprocess_run fromisoformat config
                           datetime_now) report0 e1).1 by (by rewrite Hloop).
      apply (try_each_outcome (fun _ => True)
               (fun c => exists report, c = Normal report)).
      - intros r _. by exists r.
      - intros r x e0 _.
        destruct (collect_cluster_normal r x e0 Hnaive Hrange) as (r' & -> & _).
        exact I.
      - exact I. }
    apply Hc.
  - intros cluster_id e' S inactive B' inactive' Hrun.
    apply correlate_normal_inv in Hrun as (_ & -> & ->).
    rewrite <- !list_fmap_compose. done.
Qed.

(** C4 (amended): when the time stamps of the sessions of every fetched
    infobase compare (all offset-naive or all offset-aware), the
    correlation pass ends normally, and then [last_session_time] is absent
    exactly when no session of the infobase has [last_active_at] set, and
    otherwise it is the greatest of the values that are set. *)
Theorem last_session_time_is_latest
    (cluster_id : str) (e : Env) (S : list Session.t) (inactive : list InfoBase.t)
    (Hcomparable :
       Spec.comparable_times (get_infobases subprocess_run config cluster_id e).1 S) :
  let B := (get_infobases subprocess_run config cluster_id e).1 in
  exists B' inactive',
    correlate B S inactive = Normal (B', inactive')
    /\ InfoBase.infobase_id <$> B' = InfoBase.infobase_id <$> B
    /\ Forall (fun ib =>
                 (InfoBase.last_session_time ib = None <-> Spec.active_times ib S = [])
                 /\ (forall t, InfoBase.last_session_time ib = Some t ->
                               Spec.greatest t (Spec.active_times ib S)))
              B'.
Proof.
  cbn zeta. eexists _, _. split; [apply correlate_normal, Hcomparable|]. split.
  - rewrite <- list_fmap_compose. done.
  - apply Forall_fmap.
    pose proof (get_infobases_fresh cluster_id e) as Hfresh.
    unfold Spec.comparable_times in Hcomparable.
    rewrite Forall_forall in Hfresh, Hcomparable. apply Forall_forall.
    intros ib Hib. destruct (Hfresh ib Hib) as [Hlast _].
    apply correlated_last_session_time; [apply Hcomparable, Hib | exact Hlast].
Qed.
(** *** Outcomes of the external call *)

Lemma execute_command_output cmd (e : Env) :
  (_execute_command subprocess_run cmd e).1
  = command_output (subprocess_run cmd (world e)).1.
Proof.
  unfold _execute_command. destruct (subprocess_run cmd (world e)). reflexivity.
Qed.

Lemma execute_command_calls cmd (e : Env) :
  calls (_execute_command subprocess_run cmd e).2 = calls e ++ [cmd].
Proof.
  unfold _execute_command. destruct (subprocess_run cmd (world e)). reflexivity.
Qed.

Lemma nonempty_false {A} (l : list A) : nonempty l = false <-> l = [].
Proof. destruct l; split; done. Qed.

Lemma empty_outcome_output r : Spec.empty_outcome r <-> command_output r = [].
Proof.
  destruct r as [rc out err| |]; cbn; [|done..].
  destruct (Z.eqb_spec rc 0) as [->|Hrc]; cbn.
  - destruct (strip out) eqn:Hs; cbn.
    + split; [done|]. intros _. right; done.
    + split.
      * intros [?|?]; done.
      * intros ->. cbn in Hs. done.
  - split; [done|]. intros _. left; done.
Qed.

Lemma block_infobase_result cid ibid sd sjd msg (e : Env) :
  (block_infobase subprocess_run config cid ibid sd sjd msg e).1
  = no_error_in
      (_execute_command subprocess_run
         (block_infobase_cmd config cid ibid sd sjd msg) e).1 false.
Proof.
  unfold block_infobase. rewrite bind_run.
  destruct (_execute_command _ _ e). reflexivity.
Qed.

Lemma terminate_session_result cid sid (e : Env) :
  (terminate_session subprocess_run config cid sid e).1
  = no_error_in
      (_execute_command subprocess_run (terminate_session_cmd config cid sid) e).1
      true.
Proof.
  unfold terminate_session. rewrite bind_run.
  destruct (_execute_command _ _ e). reflexivity.
Qed.

(** C10: when the external call yields no output (a non-zero exit status,
    the time limit, or blank standard output), [terminate_session] reports
    success and [block_infobase] reports failure. *)
Theorem empty_output_asymmetry
    (cid ibid sid msg : str) (sd sjd : bool) (e : Env)
    (Hterminate : Spec.empty_outcome
       (subprocess_run (terminate_session_cmd config cid sid) (world e)).1)
    (Hblock : Spec.empty_outcome
       (subprocess_run (block_infobase_cmd config cid ibid sd sjd msg) (world e)).1) :
  (terminate_session subprocess_run config cid sid e).1 = true
  /\ (block_infobase subprocess_run config cid ibid sd sjd msg e).1 = false.
Proof.
  rewrite terminate_session_result, block_infobase_result.
  rewrite !execute_command_output.
  apply empty_outcome_output in Hterminate, Hblock.
  rewrite Hterminate, Hblock. split; reflexivity.
Qed.

(** *** The error word *)

Lemma starts_with_prefix (p s : str) :
  starts_with p s = true <-> exists post, s = p ++ post.
Proof.
  revert s. induction p as [|a p IH]; intros s.
  - cbn. split; [eauto|done].
  - destruct s as [|b s]; cbn.
    + split; [done|]. intros [post ?]; done.
    + rewrite andb_true_iff, N.eqb_eq, IH. split.
      * intros [-> [post ->]]. eauto.
      * intros [post [= -> ->]]. eauto.
Qed.

Lemma contains_infix (p s : str) :
  contains p s = true <-> exists pre post, s = pre ++ p ++ post.
Proof.
  induction s as [|c s IH].
  - cbn. rewrite orb_false_r, starts_with_prefix. split.
    + intros [post ->]. exists [], post. done.
    + intros (pre & post & H). symmetry in H.
      apply app_eq_nil in H as [-> H]. exists post. done.
  - cbn [contains]. rewrite orb_true_iff, starts_with_prefix, IH. split.
    + intros [[post ->]|(pre & post & ->)].
      * exists [], post. done.
      * exists (c :: pre), post. done.
    + intros (pre & post & H). destruct pre as [|c' pre].
      * left. exists post. done.
      * right. injection H as -> ->. eauto.
Qed.

Lemma lower_char_same_letter (c w : N) :
  97 <= w <= 122 -> lower_char c = w <-> Spec.same_letter c w.
Proof.
  intros Hw. unfold lower_char, Spec.same_letter.
  destruct (N.leb_spec 65 c), (N.leb_spec c 90); cbn; lia.
Qed.

Lemma lower_is_word (mid word : str) :
  Forall (fun w => 97 <= w <= 122) word ->
  lower mid = word <-> Forall2 Spec.same_letter mid word.
Proof.
  unfold lower. revert mid. induction word as [|w word IH]; intros mid Hword.
  - destruct mid; split; try done. intros H; inversion H.
  - apply Forall_cons in Hword as [Hw Hword]. destruct mid as [|c mid].
    + split; [done|]. intros H; inversion H.
    + rewrite fmap_cons. split.
      * intros [= Hc Hmid]. constructor.
        -- by apply lower_char_same_letter.
        -- by apply IH.
      * intros H. inversion H; subst. f_equal.
        -- by apply lower_char_same_letter.
        -- by apply IH.
Qed.

Lemma contains_lower_occurs (word s : str) :
  Forall (fun w => 97 <= w <= 122) word ->
  contains word (lower s) = true <-> Spec.occurs_ci word s.
Proof.
  intros Hword. rewrite contains_infix. unfold Spec.occurs_ci, lower. split.
  - intros (pre & post & H).
    apply fmap_app_inv in H as (pre' & rest & -> & H & ->). symmetry in H.
    apply fmap_app_inv in H as (mid & post' & Hmid & -> & ->).
    exists pre', mid, post'. split; [done|]. by apply lower_is_word.
  - intros (pre & mid & post & -> & H). apply lower_is_word in H; [|done].
    exists (lower_char <$> pre), (lower_char <$> post).
    rewrite !fmap_app. unfold lower in H. rewrite H. done.
Qed.

Lemma error_is_lower_case : Forall (fun w => 97 <= w <= 122) (py "error").
Proof. vm_compute. repeat constructor; discriminate. Qed.

Lemma no_error_in_true (output : str) (empty : bool) :
  no_error_in output empty = true <->
  (output = [] /\ empty = true)
  \/ (output ≠ [] /\ ~ Spec.occurs_ci (py "error") output).
Proof.
  unfold no_error_in. destruct output as [|c output]; cbn [nonempty].
  - split; [left; done|]. intros [[_ ?]|[? _]]; done.
  - rewrite negb_true_iff, <- not_true_iff_false.
    rewrite (contains_lower_occurs _ _ error_is_lower_case). split.
    + right; done.
    + intros [[? _]|[_ ?]]; done.
Qed.

Lemma error_word : py "error" = [101; 114; 114; 111; 114].
Proof. reflexivity. Qed.

Lemma occurs_ci_error_not_blank (s : str) :
  Spec.occurs_ci (py "error") s -> strip s ≠ [].
Proof.
  rewrite error_word.
  intros (pre & mid & post & -> & Hmid) Hs. apply strip_nil in Hs.
  apply Forall_app in Hs as [_ Hs]. apply Forall_app in Hs as [Hs _].
  inversion Hmid as [|c w mid' word' Hc _]; subst.
  apply Forall_cons in Hs as [Hs _].
  destruct Hc as [->|Hc]; [vm_compute in Hs; discriminate|].
  assert (c = 69) as -> by lia. vm_compute in Hs. discriminate.
Qed.

Lemma occurs_ci_error_nil : ~ Spec.occurs_ci (py "error") [].
Proof.
  rewrite error_word. intros (pre & mid & post & Hs & Hmid).
  symmetry in Hs. apply app_eq_nil in Hs as [_ Hs].
  apply app_eq_nil in Hs as [-> _]. inversion Hmid.
Qed.

Lemma command_output_completed stdout stderr :
  strip stdout ≠ [] -> command_output (Completed 0 stdout stderr) = stdout.
Proof.
  intros Hs. cbn. destruct (strip stdout); done.
Qed.

(** C7 (amended): a mutation operation reports failure whenever the word
    "error" occurs, in any mix of cases, in the text [_execute_command]
    hands it, which is the standard output of a call that ended with exit
    status 0 and printed more than white space, and is empty otherwise;
    [block_infobase], and [unblock_infobase] with it, reports success
    exactly when that text is not empty and the word does not occur in
    it. *)
Theorem error_word_means_failure
    (cid ibid sid msg : str) (sd sjd : bool) (e : Env) :
  let block_cmd := block_infobase_cmd config cid ibid sd sjd msg in
  let unblock_cmd := block_infobase_cmd config cid ibid false false [] in
  let terminate_cmd := terminate_session_cmd config cid sid in
  let output cmd := (_execute_command subprocess_run cmd e).1 in
  ((block_infobase subprocess_run config cid ibid sd sjd msg e).1 = true
   <-> output block_cmd ≠ [] /\ ~ Spec.occurs_ci (py "error") (output block_cmd))
  /\ ((unblock_infobase subprocess_run config cid ibid e).1 = true
      <-> output unblock_cmd ≠ []
          /\ ~ Spec.occurs_ci (py "error") (output unblock_cmd))
  /\ (Spec.occurs_ci (py "error") (output terminate_cmd) ->
      (terminate_session subprocess_run config cid sid e).1 = false)
  /\ (forall stdout stderr,
        (subprocess_run block_cmd (world e)).1 = Completed 0 stdout stderr ->
        Spec.occurs_ci (py "error") stdout ->
        (block_infobase subprocess_run config cid ibid sd sjd msg e).1 = false)
  /\ (forall stdout stderr,
        (subprocess_run terminate_cmd (world e)).1 = Completed 0 stdout stderr ->
        Spec.occurs_ci (py "error") stdout ->
        (terminate_session subprocess_run config cid sid e).1 = false).
Proof using subprocess_run config.
  cbn zeta.
  assert (forall cid ibid sd sjd msg,
    (block_infobase subprocess_run config cid ibid sd sjd msg e).1 = true
    <-> (_execute_command subprocess_run
           (block_infobase_cmd config cid ibid sd sjd msg) e).1 ≠ []
        /\ ~ Spec.occurs_ci (py "error")
               (_execute_command subprocess_run
                  (block_infobase_cmd config cid ibid sd sjd msg) e).1) as Hblock.
  { intros. rewrite block_infobase_result, no_error_in_true. split.
    - intros [[_ ?]|?]; done.
    - right; done. }
  assert (Spec.occurs_ci (py "error")
            (_execute_command subprocess_run
               (terminate_session_cmd config cid sid) e).1 ->
          (terminate_session subprocess_run config cid sid e).1 = false)
    as Hterminate.
  { intros Hocc. rewrite terminate_session_result. apply not_true_iff_false.
    rewrite no_error_in_true. intros [[Hnil _]|[_ Hno]]; [|done].
    rewrite Hnil in Hocc. by apply occurs_ci_error_nil in Hocc. }
  split; [apply Hblock|]. split; [apply Hblock|]. split; [exact Hterminate|].
  assert (forall cmd stdout stderr,
            (subprocess_run cmd (world e)).1 = Completed 0 stdout stderr ->
            Spec.occurs_ci (py "error") stdout ->
            (_execute_command subprocess_run cmd e).1 = stdout) as Hout.
  { intros cmd stdout stderr Hrun Hocc. rewrite execute_command_output, Hrun.
    apply command_output_completed, occurs_ci_error_not_blank, Hocc. }
  split; intros stdout stderr Hrun Hocc.
  - apply not_true_iff_false. rewrite Hblock, (Hout _ _ _ Hrun Hocc).
    intros [_ Hno]. exact (Hno Hocc).
  - apply Hterminate. rewrite (Hout _ _ _ Hrun Hocc). exact Hocc.
Qed.
(** *** Failed queries *)

Lemma parse_output_empty : _parse_output [] = [].
Proof. reflexivity. Qed.

Lemma exit_nonzero_output r : Spec.exit_nonzero r -> command_output r = [].
Proof.
  destruct r as [rc out err| |]; cbn; [|done..].
  intros Hrc. apply Z.eqb_neq in Hrc. rewrite Hrc. reflexivity.
Qed.

Lemma get_clusters_result (e : Env) :
  (get_clusters subprocess_run config e).1 =
  (fun it => Cluster.mk (get it (py "cluster")) (get it (py "host"))
                        (get it (py "port")) (get it (py "name")))
  <$> _parse_output (_execute_command subprocess_run (get_clusters_cmd config) e).1.
Proof.
  unfold get_clusters. rewrite bind_run.
  destruct (_execute_command _ _ e) as [output e'].
  apply (foldl_snoc_fmap _ _ []).
Qed.

Lemma get_servers_result cluster_id (e : Env) :
  (get_servers subprocess_run config cluster_id e).1 =
  (fun it => WorkingServer.mk (get it (py "server")) (get it (py "name"))
               (get it (py "host")) (get it (py "port"))
               (get it (py "port-range")) (get it (py "cluster-port")))
  <$> _parse_output (_execute_command subprocess_run
                       (get_servers_cmd config cluster_id) e).1.
Proof.
  unfold get_servers. rewrite bind_run.
  destruct (_execute_command _ _ e) as [output e'].
  apply (foldl_snoc_fmap _ _ []).
Qed.

Lemma failed_output cmd (e : Env) :
  Spec.exit_nonzero (subprocess_run cmd (world e)).1 ->
  _parse_output (_execute_command subprocess_run cmd e).1 = [].
Proof.
  intros H. rewrite execute_command_output, (exit_nonzero_output _ H).
  apply parse_output_empty.
Qed.

Lemma comparable_times_no_sessions (B : list InfoBase.t) :
  Spec.comparable_times B [].
Proof. apply Forall_true. intros ib. left. constructor. Qed.

(** C6 (amended): a query whose external call ends with a non-zero exit
    status returns the empty list, as a plain value, and the collection
    pass records no error for it.  When the cluster query fails the report
    is the empty report.  When the session query of a cluster fails, the
    turn of that cluster ends normally (given a threshold in range) and
    leaves [errors] as it was.  What a pass records in [errors] is at most
    one entry, the text of an exception that left its guarded block: time
    stamps that do not compare, or a threshold out of range. *)
Theorem failed_query_gives_empty_list (e : Env) :
  let failed cmd := Spec.exit_nonzero (subprocess_run cmd (world e)).1 in
  let report :=
    (collect_cluster_info subprocess_run fromisoformat config datetime_now
       str_exception e).1 in
  (failed (get_clusters_cmd config) ->
   (get_clusters subprocess_run config e).1 = [])
  /\ (forall cid, failed (get_servers_cmd config cid) ->
                  (get_servers subprocess_run config cid e).1 = [])
  /\ (forall cid, failed (get_infobases_cmd config cid) ->
                  (get_infobases subprocess_run config cid e).1 = [])
  /\ (forall cid ib, failed (get_sessions_cmd config cid ib) ->
                     (get_sessions subprocess_run fromisoformat config cid ib e).1 = [])
  /\ (failed (get_clusters_cmd config) ->
      report = ClusterReport.new (datetime_now (world e)))
  /\ (forall report0 cluster e0,
        (forall w, Spec.exit_nonzero
                     (subprocess_run
                        (get_sessions_cmd config (Cluster.cluster_id cluster) None)
                        w).1) ->
        (forall w, Spec.threshold_in_range (ClusterConfig.inactive_hours config)
                     (datetime_now w)) ->
        exists report',
          (collect_cluster subprocess_run fromisoformat config datetime_now
             report0 cluster e0).1 = Normal report'
          /\ ClusterReport.errors report' = ClusterReport.errors report0)
  /\ (ClusterReport.errors report = []
      \/ exists exc,
           ClusterReport.errors report
           = [py "Ошибка сбора информации: " ++ str_exception exc]).
Proof.
  cbn zeta.
  split; [|split; [|split; [|split; [|split; [|split]]]]].
  - intros H. rewrite get_clusters_result, (failed_output _ _ H). reflexivity.
  - intros cid H. rewrite get_servers_result, (failed_output _ _ H). reflexivity.
  - intros cid H. rewrite get_infobases_result, (failed_output _ _ H). reflexivity.
  - intros cid ib H. rewrite get_sessions_result, (failed_output _ _ H). reflexivity.
  - intros H.
    destruct (collect_cluster_info_outcome e)
      as (clusters & e1 & c & e2 & Hclusters & Hloop & ->).
    pose proof (get_clusters_result e) as Hc.
    rewrite (failed_output _ _ H), Hclusters in Hc. cbn in Hc. subst clusters.
    cbn in Hloop. injection Hloop as <- _. reflexivity.
  - intros report0 cluster e0 Hfailed Hrange.
    destruct (collect_cluster_outcome report0 cluster e0)
      as (servers & infobases & all_sessions & e1 & e2 & e3 & _ & _ & Hs & ->).
    pose proof (get_sessions_result (Cluster.cluster_id cluster) None e2) as Hnone.
    rewrite (failed_output _ _ (Hfailed (world e2))), Hs in Hnone.
    cbn in Hnone. subst all_sessions. cbn zeta. cbn [fst].
    destruct (threshold_computed _ (Hrange (world e3))) as (threshold & ->).
    rewrite (correlate_normal infobases [] _ (comparable_times_no_sessions _)).
    eexists. split; reflexivity.
  - destruct (collect_cluster_info_outcome e)
      as (clusters & e1 & c & e2 & _ & Hloop & ->). cbn [fst].
    assert (ClusterReport.errors (state_of c) = []) as Herrors.
    { replace c with (try_each clusters
                        (collect_cluster subprocess_run fromisoformat config
                           datetime_now)
                        (ClusterReport.mk (datetime_now (world e)) clusters
                           [] [] [] [] []) e1).1 by (by rewrite Hloop).
      apply (try_each_outcome (fun r => ClusterReport.errors r = [])
               (fun c => ClusterReport.errors (state_of c) = [])).
      - intros r Hr. exact Hr.
      - intros r x e0 Hr. pose proof (collect_cluster_errors r x e0) as H.
        destruct (collect_cluster _ _ _ _ r x e0).1; cbn in H |- *; congruence.
      - reflexivity. }
    destruct c as [report|exc report]; cbn in Herrors |- *; [by left|].
    right. exists exc. by rewrite Herrors.
Qed.

(** *** Dry run *)

Lemma dry_run_inner (l : list InfoBase.t) (blocked : list str) (e : Env) :
  for_each l (fun blocked ib => mret (M := M) (blocked ++ [InfoBase.name ib]))
           blocked e
  = (blocked ++ (InfoBase.name <$> l), e).
Proof.
  revert blocked. induction l as [|ib l IH]; intros blocked.
  - cbn. by rewrite app_nil_r.
  - rewrite for_each_cons, ret_run, IH, <- app_assoc. reflexivity.
Qed.

Lemma dry_run_outer (cs : list Cluster.t) (l : list InfoBase.t)
    (blocked : list str) (e : Env) :
  for_each cs
    (fun blocked (_ : Cluster.t) =>
       for_each l (fun blocked ib => mret (M := M) (blocked ++ [InfoBase.name ib]))
                blocked)
    blocked e
  = (blocked ++ concat (replicate (length cs) (InfoBase.name <$> l)), e).
Proof.
  revert blocked. induction cs as [|c cs IH]; intros blocked.
  - cbn. by rewrite app_nil_r.
  - rewrite for_each_cons, dry_run_inner, IH, <- app_assoc. reflexivity.
Qed.

(** X1: in a dry run the planner issues no command and lists the names of
    the inactive bases once for every cluster of the report. *)
Lemma dry_run_names_per_cluster (report : ClusterReport.t) (e : Env) :
  block_inactive_bases subprocess_run config report true e
  = (concat (replicate (length (ClusterReport.clusters report))
                       (InfoBase.name <$> ClusterReport.inactive_bases report)),
     e).
Proof.
  unfold block_inactive_bases. cbv iota. apply (dry_run_outer _ _ []).
Qed.

End RacProofs.

Lemma empty_output_asymmetry_witness :
  Spec.empty_outcome
    (Fixture.unreachable (terminate_session_cmd Fixture.config (py "c1") (py "7"))
       (world Fixture.env0)).1
  /\ (terminate_session Fixture.unreachable Fixture.config (py "c1") (py "7")
        Fixture.env0).1 = true
  /\ (block_infobase Fixture.unreachable Fixture.config (py "c1") (py "ib3")
        true true inactivity_message Fixture.env0).1 = false.
Proof.
  split; [left; done|].
  apply (empty_output_asymmetry Fixture.unreachable Fixture.config
           (py "c1") (py "ib3") (py "7") inactivity_message true true Fixture.env0);
    left; done.
Defined.

Lemma failed_query_gives_empty_list_witness :
  Spec.exit_nonzero
    (Fixture.unreachable (get_clusters_cmd Fixture.config) (world Fixture.env0)).1
  /\ (get_clusters Fixture.unreachable Fixture.config Fixture.env0).1 = []
  /\ (collect_cluster_info Fixture.unreachable Fixture.no_time Fixture.config
        Fixture.clock Fixture.message Fixture.env0).1
     = ClusterReport.new (Fixture.clock tt).
Proof.
  assert (Spec.exit_nonzero
            (Fixture.unreachable (get_clusters_cmd Fixture.config)
               (world Fixture.env0)).1) as H by done.
  pose proof (failed_query_gives_empty_list Fixture.unreachable Fixture.no_time
                Fixture.config Fixture.clock Fixture.message Fixture.env0)
    as (Hc & _ & _ & _ & Hr & _).
  split; [exact H|]. split; [exact (Hc H) | exact (Hr H)].
Defined.

Lemma last_session_time_is_latest_witness :
  let S := Fixture.archive_sessions in
  let B := (get_infobases Fixture.two_clusters Fixture.config (py "c1")
              Fixture.env0).1 in
  Spec.comparable_times B S
  /\ exists B' inactive',
       correlate B S [] = Normal (B', inactive')
       /\ Forall (fun ib => forall t, InfoBase.last_session_time ib = Some t ->
                                      Spec.greatest t (Spec.active_times ib S)) B'.
Proof.
  cbv zeta.
  assert (Spec.comparable_times
            (get_infobases Fixture.two_clusters Fixture.config (py "c1")
               Fixture.env0).1 Fixture.archive_sessions) as Hcomparable
    by naive_sessions.
  split; [exact Hcomparable|].
  destruct (last_session_time_is_latest Fixture.two_clusters Fixture.config
              (py "c1") Fixture.env0 Fixture.archive_sessions [] Hcomparable)
    as (B' & inactive' & Hrun & _ & Hall).
  exists B', inactive'. split; [exact Hrun|].
  eapply Forall_impl; [exact Hall|]. intros ib [_ H]. exact H.
Defined.

Example latest_of_archive :
  correlate (get_infobases Fixture.two_clusters Fixture.config (py "c1")
               Fixture.env0).1 Fixture.archive_sessions []
  = Normal ([ InfoBase.mk (py "ib3") (py "Archive") [] (py "off") (py "off") 3
                (Some (Fixture.morning 250)) false ], []).
Proof. vm_compute. reflexivity. Qed.

Lemma error_word_means_failure_witness :
  Spec.occurs_ci (py "error") (py "Server ERROR: access denied")
  /\ (block_infobase Fixture.complaining Fixture.config (py "c1") (py "ib3")
        true true inactivity_message Fixture.env0).1 = false
  /\ (terminate_session Fixture.complaining Fixture.config (py "c1") (py "7")
        Fixture.env0).1 = false.
Proof.
  assert (Spec.occurs_ci (py "error") (py "Server ERROR: access denied")) as Hocc.
  { exists (py "Server "), (py "ERROR"), (py ": access denied").
    split; [reflexivity|]. repeat constructor; right; reflexivity. }
  pose proof (error_word_means_failure Fixture.complaining
                Fixture.config (py "c1") (py "ib3") (py "7") inactivity_message
                true true Fixture.env0) as (_ & _ & _ & Hblock & Hterminate).
  split; [exact Hocc|]. split.
  - exact (Hblock _ [] eq_refl Hocc).
  - exact (Hterminate _ [] eq_refl Hocc).
Defined.

(** C7 fails as stated: the call ends with exit status 1 and the word is
    on its standard output, and [terminate_session] reports success; the
    call ends with exit status 1 and a standard output that is not empty
    and free of the word, and [block_infobase] reports failure. *)
Lemma error_word_in_discarded_output :
  (exists stderr,
     (Fixture.unreachable (terminate_session_cmd Fixture.config (py "c1") (py "7"))
        (world Fixture.env0)).1
     = Completed 1 (py "Error: connection refused") stderr)
  /\ Spec.occurs_ci (py "error") (py "Error: connection refused")
  /\ (terminate_session Fixture.unreachable Fixture.config (py "c1") (py "7")
        Fixture.env0).1 = true
  /\ (exists stderr,
        (Fixture.refusing
           (block_infobase_cmd Fixture.config (py "c1") (py "ib3") true true
              inactivity_message) (world Fixture.env0)).1
        = Completed 1 (py "access denied") stderr)
  /\ ~ Spec.occurs_ci (py "error") (py "access denied")
  /\ (block_infobase Fixture.refusing Fixture.config (py "c1") (py "ib3")
        true true inactivity_message Fixture.env0).1 = false.
Proof.
  split; [by exists []|]. split.
  { exists [], (py "Error"), (py ": connection refused").
    split; [reflexivity|]. repeat constructor; (left; reflexivity) || (right; reflexivity). }
  split; [vm_compute; reflexivity|]. split; [by exists []|]. split.
  { rewrite <- (contains_lower_occurs _ _ error_is_lower_case).
    vm_compute. discriminate. }
  vm_compute. reflexivity.
Qed.

(** C6 fails as stated: the cluster query ends with exit status 1, and the
    collection pass that contains it records no error. *)
Lemma failed_query_not_recorded :
  Spec.exit_nonzero
    (Fixture.unreachable (get_clusters_cmd Fixture.config) (world Fixture.env0)).1
  /\ ~ Spec.error_recorded
        (collect_cluster_info Fixture.unreachable Fixture.no_time Fixture.config
           Fixture.clock Fixture.message Fixture.env0).1.
Proof. split; [done|]. intros H. apply H. vm_compute. reflexivity. Qed.

Lemma inactive_iff_no_sessions_witness :
  let report :=
    (collect_cluster_info Fixture.two_clusters Fixture.no_time Fixture.config
       Fixture.clock Fixture.message Fixture.env0).1 in
  ClusterReport.errors report = []
  /\ InfoBase.name <$> ClusterReport.inactive_bases report = [py "Archive"]
  /\ ClusterReport.inactive_bases report
     = filter (fun ib => InfoBase.sessions_count ib = 0%Z)
              (ClusterReport.infobases report).
Proof.
  cbv zeta.
  destruct (inactive_iff_no_sessions Fixture.two_clusters Fixture.no_time
              Fixture.config Fixture.clock Fixture.message Fixture.env0)
    as (_ & _ & Hinactive & Herrors & _).
  assert (ClusterReport.errors
            (collect_cluster_info Fixture.two_clusters Fixture.no_time
               Fixture.config Fixture.clock Fixture.message Fixture.env0).1 = [])
    as Hnone.
  { apply Herrors.
    - intros s t H. discriminate H.
    - intros w. unfold Spec.threshold_in_range. vm_compute.
      split; [|split]; discriminate. }
  split; [exact Hnone|]. split; [vm_compute; reflexivity|].
  exact (Hinactive Hnone).
Defined.

(** C2 fails as stated: the two sessions of the busy infobase were last
    active at times of different kinds; [max] raises in its turn, after
    the idle infobase has been put among the inactive bases and before the
    infobases of the cluster reach the report.  The report has an inactive
    base and no infobase, one error, and the second cluster was not
    asked. *)
Lemma inactive_bases_without_infobases :
  let '(report, e) :=
    collect_cluster_info Fixture.mixed_stamps Fixture.iso_time Fixture.config
      Fixture.clock Fixture.message Fixture.env0 in
  ClusterReport.infobases report = []
  /\ InfoBase.name <$> ClusterReport.inactive_bases report = [py "Idle"]
  /\ ClusterReport.inactive_bases report
     ≠ filter (fun ib => InfoBase.sessions_count ib = 0%Z)
              (ClusterReport.infobases report)
  /\ ClusterReport.errors report
     = [py "Ошибка сбора информации: can't compare offset-naive and offset-aware datetimes"]
  /\ length (calls e) = 4%nat.
Proof. vm_compute. repeat split; try reflexivity. discriminate. Qed.

(** C4 fails as stated: both sessions of the first infobase have
    [last_active_at] set, one offset-naive and one offset-aware; [max]
    raises, the pass is left, and the infobase has no last session
    time. *)
Lemma last_session_time_unset :
  exists ib rest inactive,
    correlate Fixture.busy_infobases Fixture.mixed_sessions []
    = Abrupt TypeError_compare (ib :: rest, inactive)
    /\ InfoBase.last_session_time ib = None
    /\ length (Spec.active_times ib Fixture.mixed_sessions) = 2%nat.
Proof. eexists _, _, _. split; [vm_compute; reflexivity|]. split; reflexivity. Qed.

(** C3 fails on the code: the utility knows two clusters and one infobase
    without sessions; the dry run names that infobase twice. *)
Theorem dry_run_names_base_twice :
  let '(report, e) :=
    collect_cluster_info Fixture.two_clusters Fixture.no_time Fixture.config
      Fixture.clock Fixture.message Fixture.env0 in
  Cluster.cluster_id <$> ClusterReport.clusters report = [py "c1"; py "c2"]
  /\ InfoBase.name <$> ClusterReport.inactive_bases report = [py "Archive"]
  /\ block_inactive_bases Fixture.two_clusters Fixture.config report true e
     = ([py "Archive"; py "Archive"], e).
Proof. vm_compute. repeat split; reflexivity. Qed.

(** ** Record parser *)

Lemma last_wins_snoc (kvs : list (str * str)) (k v : str) :
  Spec.last_wins (kvs ++ [(k, v)]) = <[k := v]> (Spec.last_wins kvs).
Proof. unfold Spec.last_wins. rewrite reverse_snoc. reflexivity. Qed.

Lemma last_wins_nonempty (kvs : list (str * str)) :
  nonempty_item (Spec.last_wins kvs) = nonempty kvs.
Proof.
  unfold nonempty_item. destruct kvs as [|kv kvs _] using rev_ind.
  - reflexivity.
  - destruct kv as [k v]. rewrite last_wins_snoc.
    rewrite bool_decide_eq_false_2 by apply insert_non_empty.
    by destruct kvs.
Qed.

(** Of the values written under a key, the mapping holds the last. *)
Lemma last_wins_lookup (kvs : list (str * str)) (key : str) :
  Spec.last_wins kvs !! key = last (Spec.written key kvs).
Proof.
  unfold Spec.written. induction kvs as [|[k v] kvs IH] using rev_ind.
  - reflexivity.
  - rewrite last_wins_snoc, filter_app, fmap_app, filter_cons, filter_nil.
    cbn [fst]. case_decide as Hk.
    + subst k. rewrite lookup_insert_eq. cbn. by rewrite last_snoc.
    + rewrite lookup_insert_ne by done. cbn. rewrite app_nil_r. exact IH.
Qed.

Lemma parse_line_cases (items : list item) (cur : item) (line : str) :
  parse_line (items, cur) line =
  if Spec.is_blank line then
    if nonempty_item cur then (items ++ [cur], ∅) else (items, cur)
  else match Spec.key_value line with
       | Some (k, v) => (items, <[k := v]> cur)
       | None => (items, cur)
       end.
Proof.
  unfold parse_line, Spec.is_blank, Spec.key_value.
  destruct (nonempty (strip line)); cbn [negb]; [|reflexivity].
  destruct (has_char COLON (strip line)); [|reflexivity].
  destruct (partition COLON (strip line)) as [[key sep] value]. reflexivity.
Qed.

Lemma runs_cons (l : str) (lines : list str) :
  exists b bs, Spec.runs lines = b :: bs
  /\ Spec.runs (l :: lines) = if Spec.is_blank l then [] :: b :: bs else (l :: b) :: bs.
Proof.
  assert (forall ls, Spec.runs ls ≠ []) as Hne.
  { intros ls. destruct ls as [|x ls]; cbn; [done|].
    destruct (Spec.is_blank x); [done|]. by destruct (Spec.runs ls). }
  cbn. destruct (Spec.runs lines) as [|b bs] eqn:Hr; [by apply Hne in Hr|].
  exists b, bs. done.
Qed.


Lemma records_after_nil (pending : list (str * str)) :
  records_after pending [] = if nonempty pending then [Spec.last_wins pending] else [].
Proof.
  unfold records_after. cbn [Spec.runs Spec.fields omap list_omap fmap list_fmap].
  rewrite app_nil_r, filter_cons, filter_nil.
  destruct pending; case_decide; done.
Qed.

Lemma records_after_blank (pending : list (str * str)) l lines :
  Spec.is_blank l = true ->
  records_after pending (l :: lines)
  = (if nonempty pending then [Spec.last_wins pending] else [])
    ++ records_after [] lines.
Proof.
  intros Hl. unfold records_after.
  destruct (runs_cons l lines) as (b & bs & -> & ->). rewrite Hl.
  cbn [Spec.fields omap list_omap fmap list_fmap app].
  rewrite app_nil_r, (filter_cons _ pending).
  destruct pending; case_decide; done.
Qed.

Lemma records_after_line (pending : list (str * str)) l lines :
  Spec.is_blank l = false ->
  records_after pending (l :: lines)
  = records_after (pending ++ match Spec.key_value l with
                              | Some kv => [kv]
                              | None => []
                              end) lines.
Proof.
  intros Hl. unfold records_after.
  destruct (runs_cons l lines) as (b & bs & -> & ->). rewrite Hl.
  cbn [Spec.fields omap list_omap].
  destruct (Spec.key_value l); by rewrite <- app_assoc.
Qed.

Lemma parse_loop (lines : list str) (items : list item) (pending : list (str * str)) :
  (let '(items', cur) := foldl parse_line (items, Spec.last_wins pending) lines in
   if nonempty_item cur then items' ++ [cur] else items')
  = items ++ records_after pending lines.
Proof.
  revert items pending. induction lines as [|l lines IH]; intros items pending.
  - cbn [foldl]. rewrite last_wins_nonempty, records_after_nil.
    destruct pending; cbn [nonempty]; [by rewrite app_nil_r | done].
  - cbn [foldl]. rewrite parse_line_cases, last_wins_nonempty.
    destruct (Spec.is_blank l) eqn:Hblank.
    + rewrite records_after_blank by done.
      destruct pending as [|kv pending]; cbn [nonempty].
      * exact (IH items []).
      * etrans; [exact (IH (items ++ [Spec.last_wins (kv :: pending)]) [])|].
        by rewrite <- app_assoc.
    + rewrite records_after_line by done.
      destruct (Spec.key_value l) as [[k v]|].
      * rewrite <- last_wins_snoc. apply IH.
      * rewrite app_nil_r. apply IH.
Qed.

Lemma parse_output_refines (text : str) : _parse_output text = Spec.parse text.
Proof.
  unfold _parse_output, Spec.parse.
  pose proof (parse_loop (split LF (strip text)) [] []) as H.
  change (Spec.last_wins []) with (∅ : item) in H.
  destruct (foldl parse_line _ _) as [items cur]. rewrite H.
  unfold records_after.
  destruct (runs_cons [] (split LF (strip text))) as (b & bs & -> & _).
  reflexivity.
Qed.

Lemma has_char_elem (sep : N) (s : str) : has_char sep s = true <-> sep ∈ s.
Proof.
  unfold has_char. induction s as [|c s IH]; cbn.
  - split; [done|]. intros H. inversion H.
  - rewrite orb_true_iff, N.eqb_eq, IH, elem_of_cons. done.
Qed.

(** [partition] cuts at the first separator. *)
Lemma partition_first (sep : N) (s : str) :
  sep ∈ s ->
  exists a b, partition sep s = (a, [sep], b) /\ s = a ++ (sep :: b) /\ (sep ∉ a).
Proof.
  induction s as [|c s IH]; intros Hin.
  - inversion Hin.
  - cbn. destruct (N.eqb_spec c sep) as [->|Hne].
    + exists [], s. split; [done|]. split; [done|]. intros H. inversion H.
    + apply elem_of_cons in Hin as [->|Hin]; [done|].
      destruct (IH Hin) as (a & b & -> & -> & Ha).
      exists (c :: a), b. split; [done|]. split; [done|].
      intros H. apply elem_of_cons in H as [->|H]; done.
Qed.

Lemma key_value_none (line : str) :
  Spec.key_value line = None <-> COLON ∉ strip line.
Proof.
  unfold Spec.key_value. rewrite <- has_char_elem.
  destruct (has_char COLON (strip line)).
  - destruct (partition COLON (strip line)) as [[? ?] ?]. split; [done|]. intros H. by destruct H.
  - split; [|done]. intros _ H. done.
Qed.

Lemma key_value_some (line k v : str) :
  Spec.key_value line = Some (k, v) ->
  exists a b, strip line = a ++ (COLON :: b) /\ (COLON ∉ a)
              /\ Spec.trimmed a k /\ Spec.trimmed b v.
Proof.
  unfold Spec.key_value. destruct (has_char COLON (strip line)) eqn:Hc; [|done].
  apply has_char_elem in Hc.
  destruct (partition_first _ _ Hc) as (a & b & -> & Hs & Ha).
  intros [= <- <-]. exists a, b. split; [done|]. split; [done|].
  split; apply strip_trimmed.
Qed.

(** C5: [_parse_output] reads the records of the grammar: the trimmed text
    is cut into lines at the line feeds and the lines into runs at the blank
    ones (those of white space only), each line with a colon gives the key
    before the first colon and the value after it, both trimmed, a line
    without a colon gives nothing, a run that ends the text is a record like
    any other, the empty text has no record, and of two values under one
    key the later stands. *)
Theorem parse_output_records :
  (forall text, _parse_output text = Spec.parse text)
  /\ (forall text, join [LF] (split LF text) = text
                   /\ Forall (fun line => LF ∉ line) (split LF text))
  /\ (forall line, Spec.is_blank line = true
                   <-> Forall (fun c => isspace c = true) line)
  /\ _parse_output [] = []
  /\ (forall text rs b,
        Spec.runs (split LF (strip text)) = rs ++ [b] -> Spec.fields b ≠ [] ->
        last (_parse_output text) = Some (Spec.last_wins (Spec.fields b)))
  /\ (forall line,
        (Spec.key_value line = None <-> COLON ∉ strip line)
        /\ (forall k v, Spec.key_value line = Some (k, v) ->
              exists a b, strip line = a ++ (COLON :: b) /\ (COLON ∉ a)
                          /\ Spec.trimmed a k /\ Spec.trimmed b v))
  /\ (forall kvs key, Spec.last_wins kvs !! key = last (Spec.written key kvs)).
Proof.
  split; [exact parse_output_refines|].
  split; [intros text; split; [apply join_split | apply split_lines_whole]|].
  split; [intros line; unfold Spec.is_blank;
          rewrite negb_true_iff, nonempty_false; apply strip_nil|].
  split; [reflexivity|].
  split; [|split].
  - intros text rs b Hruns Hb. rewrite parse_output_refines. unfold Spec.parse.
    rewrite Hruns, fmap_app, filter_app, fmap_app.
    cbn [fmap list_fmap]. rewrite filter_cons, filter_nil.
    case_decide; [|done]. cbn [fmap list_fmap]. apply last_snoc.
  - intros line. split; [apply key_value_none|]. intros k v. apply key_value_some.
  - exact last_wins_lookup.
Qed.

Lemma parse_output_records_witness :
  last (_parse_output (join [LF] Fixture.unterminated))
  = Some {[ py "name" := py "second" ]}.
Proof.
  pose proof parse_output_records as (_ & _ & _ & _ & Hlast & _).
  rewrite (Hlast (join [LF] Fixture.unterminated) [] Fixture.unterminated).
  - vm_compute. reflexivity.
  - vm_compute. reflexivity.
  - vm_compute. discriminate.
Defined.

Example parse_scenario :
  _parse_output (join [LF] [py "cluster: c1"; py "host: srv1"; py "port: 1540";
                            py "name: Main"; []])
  = [ {[ py "cluster" := py "c1"; py "host" := py "srv1";
         py "port" := py "1540"; py "name" := py "Main" ]} ].
Proof. vm_compute. reflexivity. Qed.

Example parse_last_write_wins :
  _parse_output (join [LF] [py " name : first "; py "no colon here";
                            py "name: second: kept"; py "   "; [];
                            py "name: third"])
  = [ {[ py "name" := py "second: kept" ]}; {[ py "name" := py "third" ]} ].
Proof. vm_compute. reflexivity. Qed.

(** ** Text report *)

Lemma foldl_appending {A} (f : list str -> A -> list str) (g : A -> list str) :
  (forall lines x, f lines x = lines ++ g x) ->
  forall l lines, foldl f lines l = lines ++ concat (g <$> l).
Proof.
  intros Hf l. induction l as [|x l IH]; intros lines; cbn.
  - by rewrite app_nil_r.
  - rewrite IH, Hf, <- app_assoc. reflexivity.
Qed.

Ltac literals :=
  repeat match goal with
         | |- context [py ?s] =>
           let v := eval vm_compute in (py s) in change (py s) with v
         end.

Ltac other_line := literals; cbn [app lookup list_lookup]; discriminate.

Section TextReportProofs.

Variable strftime : datetime -> str.
Variable str_datetime : datetime -> str.

Lemma session_turn_appends lines session :
  session_turn str_datetime lines session
  = lines ++ session_turn str_datetime [] session.
Proof.
  unfold session_turn. destruct (Session.started_at session);
    cbn [app]; rewrite <- ?app_assoc; reflexivity.
Qed.

Lemma sessions_block_appends report lines :
  sessions_block str_datetime report lines
  = lines ++ sessions_block str_datetime report [].
Proof.
  unfold sessions_block.
  rewrite !(foldl_appending _ _ session_turn_appends).
  destruct (_ >? _)%Z; cbn [app]; rewrite <- ?app_assoc; reflexivity.
Qed.

Lemma errors_block_appends report lines :
  errors_block report lines = lines ++ errors_block report [].
Proof.
  unfold errors_block. destruct (nonempty _); [|by rewrite app_nil_r].
  rewrite !(foldl_appending _ (fun error => [py "  ! " ++ error])) by done.
  cbn [app]. rewrite <- ?app_assoc. reflexivity.
Qed.

Lemma recommendations_block_appends report lines :
  recommendations_block report lines = lines ++ recommendations_block report [].
Proof.
  unfold recommendations_block. destruct (nonempty _).
  - rewrite !(foldl_appending _ (fun ib => [py "    * " ++ InfoBase.name ib])) by done.
    cbn [app]. rewrite <- ?app_assoc. reflexivity.
  - cbn [app]. rewrite <- ?app_assoc. reflexivity.
Qed.

Lemma footer_block_appends lines : footer_block lines = lines ++ footer_block [].
Proof. unfold footer_block. cbn [app]. rewrite <- ?app_assoc. reflexivity. Qed.

Lemma session_entry session :
  session_turn str_datetime [] session = SessionSection.entry str_datetime session.
Proof.
  unfold session_turn, SessionSection.entry.
  destruct (Session.started_at session); reflexivity.
Qed.

Lemma listed_user_mark (user : str) :
  SessionSection.listed_user (py "  - Пользователь: " ++ user) = Some user.
Proof.
  unfold SessionSection.listed_user. cbv zeta.
  rewrite (proj2 (starts_with_prefix _ _)) by eauto.
  by rewrite drop_app_length.
Qed.

Lemma listed_user_other (line : str) :
  line !! 2%nat ≠ Some 45 -> SessionSection.listed_user line = None.
Proof.
  intros Hline. unfold SessionSection.listed_user. cbv zeta.
  destruct (starts_with _ line) eqn:Hmark; [|reflexivity].
  apply starts_with_prefix in Hmark as [post ->]. by destruct Hline.
Qed.

Lemma listed_users (shown : list Session.t) :
  omap SessionSection.listed_user
    (concat (SessionSection.entry str_datetime <$> shown))
  = Session.user_name <$> shown.
Proof.
  induction shown as [|s shown IH]; [reflexivity|].
  rewrite !fmap_cons. cbn [concat]. rewrite omap_app, IH.
  unfold SessionSection.entry. cbn [app omap list_omap].
  rewrite listed_user_mark. rewrite (listed_user_other (_ ++ Session.app_id s))
    by other_line.
  destruct (Session.started_at s) as [t|]; cbn [app omap list_omap]; [|reflexivity].
  rewrite listed_user_other by other_line. reflexivity.
Qed.

(** C8: the session section of the text report lists the first 20 sessions
    of the snapshot and no other, each with its user, its application and,
    when it has one, its start time: the users its lines name are those of
    the first 20 sessions, in their order.  A notice follows them exactly
    when the snapshot holds more than 20 sessions, and the number in it is
    the total less 20. *)
Theorem session_section_truncated (report : ClusterReport.t) :
  let sessions := ClusterReport.sessions report in
  let n := length sessions in
  let before :=
    infobases_block str_datetime report
      (servers_block report (clusters_block report (header_block strftime report []))) in
  let after :=
    footer_block (recommendations_block report (errors_block report [])) in
  text_report_lines strftime str_datetime report
  = before ++ sessions_block str_datetime report [] ++ after
  /\ sessions_block str_datetime report []
     = SessionSection.section str_datetime n (take 20 sessions)
         (if decide (20 < n)%nat then [SessionSection.notice (n - 20)] else [])
  /\ omap SessionSection.listed_user (sessions_block str_datetime report [])
     = Session.user_name <$> take 20 sessions
  /\ length (take 20 sessions) = (20 `min` n)%nat.
Proof.
  cbn zeta.
  assert (sessions_block str_datetime report []
          = SessionSection.section str_datetime
              (length (ClusterReport.sessions report))
              (take 20 (ClusterReport.sessions report))
              (if decide (20 < length (ClusterReport.sessions report))%nat
               then [SessionSection.notice
                       (length (ClusterReport.sessions report) - 20)]
               else [])) as Hsection.
  { unfold sessions_block, SessionSection.section, len.
    rewrite (foldl_appending _ _ session_turn_appends).
    rewrite (list_fmap_ext _ (SessionSection.entry str_datetime)
               (take 20 (ClusterReport.sessions report))
               (fun _ s _ => session_entry s)).
    destruct (Z.gtb_spec (Z.of_nat (length (ClusterReport.sessions report))) 20);
      case_decide; try lia.
    - unfold SessionSection.notice.
      replace (Z.of_nat (length (ClusterReport.sessions report) - 20))
        with (Z.of_nat (length (ClusterReport.sessions report)) - 20)%Z by lia.
      cbn [app]. rewrite <- ?app_assoc. reflexivity.
    - cbn [app]. rewrite app_nil_r. reflexivity. }
  split; [|split; [exact Hsection|split]].
  - unfold text_report_lines.
    rewrite footer_block_appends, recommendations_block_appends,
      errors_block_appends, sessions_block_appends.
    rewrite (footer_block_appends (recommendations_block _ _)),
      (recommendations_block_appends _ (errors_block _ _)).
    rewrite <- !app_assoc. reflexivity.
  - rewrite Hsection. unfold SessionSection.section.
    rewrite !omap_app, listed_users. cbn [omap list_omap].
    rewrite !listed_user_other by other_line. cbn [app].
    case_decide; cbn [omap list_omap]; [|by rewrite app_nil_r].
    unfold SessionSection.notice.
    rewrite listed_user_other by other_line. by rewrite app_nil_r.
  - apply length_take.
Qed.

End TextReportProofs.

Example session_section_of_25 :
  let session i := Session.mk (py "s") (py "ib1") (str_of_int i) (py "1CV8C") None None in
  let report :=
    ClusterReport.mk (naive 0) [] [] [] (session <$> seqZ 1 25) [] [] in
  let section := sessions_block (fun d => str_of_int (wall d)) report [] in
  length section = 43%nat
  /\ last section = Some (py "  ... и ещё 5 сеансов")
  /\ section !! 40%nat = Some (py "  - Пользователь: 20").
Proof. vm_compute. repeat split; reflexivity. Qed.

(** ** JSON round trip *)

Module JsonProofs.
Import Json JsonDoc.

Lemma t_nested_ind (P : t -> Prop) :
  P Null -> (forall b, P (Bool b)) -> (forall z, P (Int z)) -> (forall s, P (Str s)) ->
  (forall l, Forall P l -> P (List l)) ->
  (forall d, Forall (fun kv => P kv.2) d -> P (Dict d)) ->
  forall v, P v.
Proof.
  intros HN HB HI HS HL HD. fix IH 1.
  intros [|b|z|s|l|d]; [exact HN | apply HB | apply HI | apply HS | | ].
  - apply HL. induction l as [|x l IHl]; constructor; [apply IH | exact IHl].
  - apply HD. induction d as [|[k x] d IHd]; constructor; [apply IH | exact IHd].
Qed.

Lemma encode_list indent level x xs :
  encode indent level (List (x :: xs))
  = py "[" ++ newline_indent indent (S level) ++ encode indent (S level) x
    ++ encode_more indent (S level) xs ++ newline_indent indent level ++ py "]".
Proof.
  cbn [encode]. do 3 f_equal. f_equal.
  induction xs as [|y r IH]; [reflexivity|].
  cbn [encode_more]. rewrite IH. reflexivity.
Qed.

Lemma encode_dict indent level k x xs :
  encode indent level (Dict ((k, x) :: xs))
  = py "{" ++ newline_indent indent (S level)
    ++ encode_str k ++ py ": " ++ encode indent (S level) x
    ++ encode_more_pairs indent (S level) xs ++ newline_indent indent level ++ py "}".
Proof.
  cbn [encode]. do 5 f_equal. f_equal.
  induction xs as [|[k' y] r IH]; [reflexivity|].
  cbn [encode_more_pairs]. rewrite IH. reflexivity.
Qed.


(** *** Texts *)

Lemma scanstring_plain c r :
  c ≠ QUOTE -> c ≠ BACKSLASH -> 32 <= c ->
  scanstring (c :: r) = '(x, rest) ← scanstring r; Some (c :: x, rest).
Proof.
  intros Hq Hb Hc. cbn [scanstring].
  apply N.eqb_neq in Hq, Hb. rewrite Hq, Hb.
  destruct (N.ltb_spec c 32); [lia|]. reflexivity.
Qed.

Lemma scanstring_letter e x r :
  unescape e = Some x -> e ≠ 117 ->
  scanstring (BACKSLASH :: e :: r) = '(y, rest) ← scanstring r; Some (x :: y, rest).
Proof.
  intros Hx He. cbn [scanstring].
  change (BACKSLASH =? QUOTE) with false. change (BACKSLASH =? BACKSLASH) with true.
  cbv iota. apply N.eqb_neq in He. rewrite He, Hx. reflexivity.
Qed.

Lemma scanstring_u00 h1 h2 uni r :
  hex4 48 48 h1 h2 = Some uni -> uni < 55296 ->
  scanstring (BACKSLASH :: 117 :: 48 :: 48 :: h1 :: h2 :: r)
  = '(x, rest) ← scanstring r; Some (uni :: x, rest).
Proof.
  intros Hh Hu. cbn [scanstring].
  change (BACKSLASH =? QUOTE) with false. change (BACKSLASH =? BACKSLASH) with true.
  change (117 =? 117) with true. cbv iota. rewrite Hh.
  destruct (N.leb_spec 55296 uni); [lia|]. reflexivity.
Qed.

Lemma escape_control c :
  c < 32 ->
  hex4 48 48 (hex_digit (c / 16)) (hex_digit (c mod 16)) = Some c.
Proof.
  intros Hc.
  assert (Forall (fun c => hex4 48 48 (hex_digit (c / 16)) (hex_digit (c mod 16)) = Some c)
                 (N.of_nat <$> seq 0 32)) as Hall
    by (vm_compute; repeat constructor).
  rewrite Forall_forall in Hall. apply Hall.
  apply list_elem_of_fmap. exists (N.to_nat c). split; [lia|].
  apply elem_of_seq. lia.
Qed.

Lemma scanstring_escape c tail s rest :
  scanstring tail = Some (s, rest) ->
  scanstring (escape c ++ tail) = Some (c :: s, rest).
Proof.
  intros Htail. unfold escape.
  destruct (N.eqb_spec c QUOTE) as [->|Hq].
  { cbn [app]. rewrite (scanstring_letter _ QUOTE), Htail; done. }
  destruct (N.eqb_spec c BACKSLASH) as [->|Hb].
  { cbn [app]. rewrite (scanstring_letter _ BACKSLASH), Htail; done. }
  destruct (N.eqb_spec c 10) as [->|?].
  { cbn [app]. rewrite (scanstring_letter _ 10), Htail; done. }
  destruct (N.eqb_spec c 13) as [->|?].
  { cbn [app]. rewrite (scanstring_letter _ 13), Htail; done. }
  destruct (N.eqb_spec c 9) as [->|?].
  { cbn [app]. rewrite (scanstring_letter _ 9), Htail; done. }
  destruct (N.eqb_spec c 8) as [->|?].
  { cbn [app]. rewrite (scanstring_letter _ 8), Htail; done. }
  destruct (N.eqb_spec c 12) as [->|?].
  { cbn [app]. rewrite (scanstring_letter _ 12), Htail; done. }
  destruct (N.ltb_spec c 32) as [Hc|Hc].
  { cbn [app]. rewrite (scanstring_u00 _ _ c), Htail; [done| |lia].
    by apply escape_control. }
  cbn [app]. rewrite scanstring_plain, Htail; done.
Qed.

Lemma scanstring_escape_all s rest :
  scanstring (escape_all s ++ QUOTE :: rest) = Some (s, rest).
Proof.
  induction s as [|c s IH]; [reflexivity|].
  cbn [escape_all]. rewrite <- app_assoc. by apply scanstring_escape.
Qed.

Lemma scan_string fuel s rest :
  scan_once (S fuel) (encode_str s ++ rest) = Some (Str s, rest).
Proof.
  unfold encode_str. cbn [app scan_once].
  change (QUOTE =? QUOTE) with true. cbv iota.
  rewrite <- app_assoc. cbn [app]. rewrite scanstring_escape_all. reflexivity.
Qed.

End JsonProofs.

(** *** Integers *)

Module JsonNumbers.
Import Json JsonDoc.


Ltac digit_step IH :=
  cbn [app read_digits];
  match goal with |- context [is_digit ?c] => change (is_digit c) with true end;
  cbv iota; rewrite IH; reflexivity.

Lemma read_digits_digits u rest :
  no_digit_ahead rest -> read_digits (digits u ++ rest) = (u, rest).
Proof.
  intros Hrest. induction u as [|u IH|u IH|u IH|u IH|u IH|u IH|u IH|u IH|u IH|u IH].
  - destruct rest as [|c r]; [reflexivity|]. cbn in Hrest |- *. by rewrite Hrest.
  - change (digits (Decimal.D0 u)) with (48 :: digits u). digit_step IH.
  - change (digits (Decimal.D1 u)) with (49 :: digits u). digit_step IH.
  - change (digits (Decimal.D2 u)) with (50 :: digits u). digit_step IH.
  - change (digits (Decimal.D3 u)) with (51 :: digits u). digit_step IH.
  - change (digits (Decimal.D4 u)) with (52 :: digits u). digit_step IH.
  - change (digits (Decimal.D5 u)) with (53 :: digits u). digit_step IH.
  - change (digits (Decimal.D6 u)) with (54 :: digits u). digit_step IH.
  - change (digits (Decimal.D7 u)) with (55 :: digits u). digit_step IH.
  - change (digits (Decimal.D8 u)) with (56 :: digits u). digit_step IH.
  - change (digits (Decimal.D9 u)) with (57 :: digits u). digit_step IH.
Qed.

Lemma to_uint_head p : nonzero_head (Pos.to_uint p).
Proof.
  pose proof (DecimalPos.Unsigned.to_of (Pos.to_uint p)) as Hnorm.
  rewrite DecimalPos.Unsigned.of_to in Hnorm. cbn [N.to_uint] in Hnorm.
  pose proof (DecimalPos.Unsigned.to_uint_nonzero p) as Hnz.
  pose proof (DecimalPos.Unsigned.to_uint_nonnil p) as Hnn.
  destruct (Pos.to_uint p) as [|u| | | | | | | | |]; try exact I; [done|].
  unfold Decimal.unorm in Hnorm.
  destruct (Decimal.nzhead (Decimal.D0 u)) eqn:Hh;
    try (by apply DecimalFacts.nzhead_nonzero in Hh); congruence.
Qed.

Lemma digits_head u :
  nonzero_head u -> exists c r, digits u = c :: r /\ is_digit c = true /\ c ≠ 48.
Proof.
  destruct u; cbn [nonzero_head]; intros H; try done;
    (eexists _, _; split; [reflexivity|]; split; [reflexivity | discriminate]).
Qed.

Lemma str_of_int_pos p : str_of_int (Z.pos p) = digits (Pos.to_uint p).
Proof.
  unfold str_of_int, digits. cbn [Z.to_int NilZero.string_of_int].
  unfold NilZero.string_of_uint.
  pose proof (to_uint_head p). by destruct (Pos.to_uint p).
Qed.

Lemma str_of_int_neg p : str_of_int (Z.neg p) = 45 :: digits (Pos.to_uint p).
Proof.
  unfold str_of_int, digits. cbn [Z.to_int NilZero.string_of_int].
  unfold NilZero.string_of_uint.
  pose proof (to_uint_head p). by destruct (Pos.to_uint p).
Qed.

Lemma read_int_part_digits u rest :
  nonzero_head u -> no_digit_ahead rest ->
  read_int_part (digits u ++ rest) = Some (u, rest).
Proof.
  intros Hu Hrest. destruct (digits_head u Hu) as (c & r & Hd & Hc & Hc0).
  pose proof (read_digits_digits u rest Hrest) as Hread.
  rewrite Hd in Hread |- *. cbn [app] in Hread |- *. unfold read_int_part.
  apply N.eqb_neq in Hc0. rewrite Hc0, Hc. by rewrite Hread.
Qed.

Lemma delimited_no_digit rest : delimited rest -> no_digit_ahead rest.
Proof. destruct rest as [|c r]; [done|]. intros [->| ->]; reflexivity. Qed.

Lemma delimited_no_float rest : delimited rest -> float_follows rest = false.
Proof. destruct rest as [|c r]; [done|]. intros [->| ->]; reflexivity. Qed.

Lemma scan_number_int z rest :
  delimited rest -> scan_number (str_of_int z ++ rest) = Some (Int z, rest).
Proof.
  intros Hrest.
  pose proof (delimited_no_digit _ Hrest) as Hnd.
  pose proof (delimited_no_float _ Hrest) as Hnf.
  destruct z as [|p|p].
  - change (str_of_int 0) with [48]. cbn [app]. unfold scan_number.
    cbn. by rewrite Hnf.
  - rewrite str_of_int_pos.
    destruct (digits_head _ (to_uint_head p)) as (c & r & Hd & Hc & _).
    pose proof (read_int_part_digits _ rest (to_uint_head p) Hnd) as Hread.
    rewrite Hd in Hread |- *. cbn [app] in Hread |- *. unfold scan_number.
    assert ((c =? 45) = false) as -> by (apply N.eqb_neq; intros ->; discriminate Hc).
    rewrite Hread. cbn. rewrite Hnf. do 3 f_equal.
    apply (DecimalZ.of_to (Z.pos p)).
  - rewrite str_of_int_neg. cbn [app]. unfold scan_number.
    change (45 =? 45) with true. cbv iota.
    rewrite (read_int_part_digits _ rest (to_uint_head p) Hnd).
    cbn. rewrite Hnf. do 3 f_equal.
    apply (DecimalZ.of_to (Z.neg p)).
Qed.

Lemma str_of_int_head z :
  exists c r, str_of_int z = c :: r /\ (c = 45 \/ is_digit c = true).
Proof.
  destruct z as [|p|p].
  - exists 48, []. split; [reflexivity | by right].
  - rewrite str_of_int_pos.
    destruct (digits_head _ (to_uint_head p)) as (c & r & -> & Hc & _).
    exists c, r. split; [reflexivity | by right].
  - rewrite str_of_int_neg. eexists _, _. split; [reflexivity | by left].
Qed.

End JsonNumbers.

(** *** Documents *)

Module JsonRoundTrip.
Import Json JsonDoc JsonProofs JsonNumbers.

Lemma wf_list l : wf (List l) <-> Forall wf l.
Proof.
  induction l as [|x l IH].
  - split; [constructor | done].
  - change (wf (List (x :: l))) with (wf x /\ wf (List l)).
    rewrite IH, Forall_cons. done.
Qed.

Lemma wf_dict d : wf (Dict d) <-> NoDup d.*1 /\ Forall (fun kv => wf kv.2) d.
Proof.
  enough ((fix all (d : list (str * t)) : Prop :=
             match d with [] => True | (_, x) :: r => wf x /\ all r end) d
          <-> Forall (fun kv => wf kv.2) d) as H by (cbn [wf]; rewrite H; done).
  induction d as [|[k x] d IH].
  - split; [constructor | done].
  - rewrite IH, Forall_cons. done.
Qed.

Lemma skip_ws_head c r : is_ws c = false -> skip_ws (c :: r) = c :: r.
Proof. intros H. cbn. by rewrite H. Qed.

Lemma skip_ws_spaces n s : skip_ws (replicate n SPACE ++ s) = skip_ws s.
Proof. induction n as [|n IH]; [done|]. cbn [replicate app]. exact IH. Qed.

Lemma skip_ws_newline_indent indent level s :
  skip_ws (newline_indent indent level ++ s) = skip_ws s.
Proof. unfold newline_indent. cbn [app]. apply skip_ws_spaces. Qed.

Lemma delimited_newline_indent indent level s :
  delimited (newline_indent indent level ++ s).
Proof. right. reflexivity. Qed.


Lemma encode_str_head s : exists r, encode_str s = QUOTE :: r.
Proof. unfold encode_str. eauto. Qed.

Lemma encode_head indent level v :
  exists c r, encode indent level v = c :: r /\ opens c.
Proof.
  destruct v as [|[|]|z|s|[|x xs]|[|[k x] xs]];
    try (eexists _, _; split; [reflexivity | by repeat split]).
  destruct (str_of_int_head z) as (c & r & Hz & Hc).
  exists c, r. split; [exact Hz|].
  destruct Hc as [->|Hc]; [by repeat split|].
  unfold is_digit in Hc. apply andb_true_iff in Hc as [H1 H2].
  apply N.leb_le in H1, H2. unfold opens, is_ws.
  repeat split; try lia.
  repeat (apply orb_false_iff; split); apply N.eqb_neq; lia.
Qed.

Lemma skip_ws_encode indent level v s :
  skip_ws (encode indent level v ++ s) = encode indent level v ++ s.
Proof.
  destruct (encode_head indent level v) as (c & r & -> & Hc & _).
  by apply skip_ws_head.
Qed.

Lemma scan_once_number fuel c r :
  c = 45 \/ is_digit c = true ->
  scan_once (S fuel) (c :: r) = scan_number (c :: r).
Proof.
  intros Hc. cbn [scan_once].
  assert (c ≠ QUOTE /\ c ≠ 123 /\ c ≠ 91 /\ c ≠ 110 /\ c ≠ 116 /\ c ≠ 102)
    as (H1 & H2 & H3 & H4 & H5 & H6).
  { destruct Hc as [->|Hc]; [by repeat split|].
    unfold is_digit in Hc. apply andb_true_iff in Hc as [Hl Hu].
    apply N.leb_le in Hl, Hu. unfold QUOTE. lia. }
  apply N.eqb_neq in H1, H2, H3. rewrite H1, H2, H3.
  change (py "null") with [110; 117; 108; 108].
  change (py "true") with [116; 114; 117; 101].
  change (py "false") with [102; 97; 108; 115; 101].
  cbn [starts_with].
  assert ((110 =? c) = false) as -> by (apply N.eqb_neq; done).
  assert ((116 =? c) = false) as -> by (apply N.eqb_neq; done).
  assert ((102 =? c) = false) as -> by (apply N.eqb_neq; done).
  reflexivity.
Qed.

Lemma scan_int fuel z rest :
  delimited rest -> scan_once (S fuel) (str_of_int z ++ rest) = Some (Int z, rest).
Proof.
  intros Hrest. destruct (str_of_int_head z) as (c & r & Hz & Hc).
  pose proof (scan_number_int z rest Hrest) as Hscan.
  rewrite Hz in Hscan |- *. cbn [app] in Hscan |- *.
  by rewrite scan_once_number.
Qed.



Lemma scan_items_encode indent level rest xs : forall x fuel,
  Forall reads_back (x :: xs) ->
  (weight_items (x :: xs) <= fuel)%nat ->
  scan_items fuel (encode indent level x ++ encode_more indent level xs
                   ++ newline_indent indent (pred level) ++ py "]" ++ rest)
  = Some (x :: xs, rest).
Proof.
  induction xs as [|y ys IH]; intros x fuel Hall Hfuel;
    apply Forall_cons in Hall as [Hx Hall];
    (destruct fuel as [|fuel]; [cbn in Hfuel; lia|]);
    change (weight_items (x :: ?l)) with (S (weight x + weight_items l)) in Hfuel;
    cbn [scan_items].
  - cbn [encode_more app].
    rewrite Hx; [|apply delimited_newline_indent | lia]. cbn [mbind option_bind].
    rewrite skip_ws_newline_indent. reflexivity.
  - cbn [encode_more]. change (py ",") with [44]. rewrite <- !app_assoc. cbn [app].
    rewrite Hx; [|by left | lia]. cbn [mbind option_bind].
    rewrite skip_ws_head by done. change (44 =? 93) with false.
    change (44 =? 44) with true. cbv iota.
    rewrite skip_ws_newline_indent, skip_ws_encode.
    rewrite IH; [reflexivity | exact Hall | lia].
Qed.

Lemma scan_pairs_encode indent level rest xs : forall k x fuel,
  Forall (fun kv => reads_back kv.2) ((k, x) :: xs) ->
  (weight_pairs ((k, x) :: xs) <= fuel)%nat ->
  scan_pairs fuel (encode_str k ++ py ": " ++ encode indent level x
                   ++ encode_more_pairs indent level xs
                   ++ newline_indent indent (pred level) ++ py "}" ++ rest)
  = Some ((k, x) :: xs, rest).
Proof.
  induction xs as [|[k' y] ys IH]; intros k x fuel Hall Hfuel;
    apply Forall_cons in Hall as [Hx Hall]; cbn [snd] in Hx;
    (destruct fuel as [|fuel]; [cbn in Hfuel; lia|]);
    change (weight_pairs ((k, x) :: ?l)) with (S (weight x + weight_pairs l)) in Hfuel;
    unfold encode_str at 1; change (py ": ") with [58; 32];
    cbn [app]; rewrite <- ?app_assoc; cbn [app scan_pairs];
    change (QUOTE =? QUOTE) with true; cbv iota;
    rewrite scanstring_escape_all; cbn [mbind option_bind];
    rewrite skip_ws_head by done; change (58 =? 58) with true; cbv iota;
    change (skip_ws (32 :: ?s)) with (skip_ws s); rewrite skip_ws_encode.
  - cbn [encode_more_pairs app].
    rewrite Hx; [|apply delimited_newline_indent | lia]. cbn [mbind option_bind].
    rewrite skip_ws_newline_indent. reflexivity.
  - cbn [encode_more_pairs]. change (py ",") with [44]. rewrite <- !app_assoc.
    cbn [app].
    rewrite Hx; [|by left | lia]. cbn [mbind option_bind].
    rewrite skip_ws_head by done. change (44 =? 125) with false.
    change (44 =? 44) with true. cbv iota.
    rewrite skip_ws_newline_indent.
    destruct (encode_str_head k') as (r & Hk'). rewrite Hk' at 1.
    cbn [app]. rewrite skip_ws_head by done. rewrite app_comm_cons, <- Hk'.
    rewrite IH; [reflexivity | exact Hall | lia].
Qed.


Lemma scan_once_list fuel s c r :
  skip_ws s = c :: r -> c ≠ 93 ->
  scan_once (S fuel) (91 :: s)
  = '(l, rest) ← scan_items fuel (skip_ws s); Some (List l, rest).
Proof.
  intros Hs Hc. cbn [scan_once].
  change (91 =? QUOTE) with false. change (91 =? 123) with false.
  change (91 =? 91) with true. cbv iota.
  rewrite Hs. apply N.eqb_neq in Hc. by rewrite Hc.
Qed.

Lemma scan_once_dict fuel s c r :
  skip_ws s = c :: r -> c ≠ 125 ->
  scan_once (S fuel) (123 :: s)
  = '(pairs, rest) ← scan_pairs fuel (skip_ws s);
    Some (Dict (dict_of_pairs pairs), rest).
Proof.
  intros Hs Hc. cbn [scan_once].
  change (123 =? QUOTE) with false. change (123 =? 123) with true. cbv iota.
  rewrite Hs. apply N.eqb_neq in Hc. by rewrite Hc.
Qed.

Lemma dict_set_fresh k v (d : list (str * t)) :
  k ∉ d.*1 -> dict_set k v d = d ++ [(k, v)].
Proof.
  induction d as [|[k' w] d IH]; intros Hk; [reflexivity|].
  cbn [dict_set]. rewrite fmap_cons in Hk. apply not_elem_of_cons in Hk as [Hne Hk].
  cbn [fst] in Hne. rewrite bool_decide_eq_false_2 by (intros ->; by apply Hne).
  rewrite IH by done. reflexivity.
Qed.

Lemma dict_of_pairs_nodup (d : list (str * t)) : NoDup d.*1 -> dict_of_pairs d = d.
Proof.
  unfold dict_of_pairs.
  enough (forall acc, NoDup (acc ++ d).*1 ->
            foldl (fun d kv => dict_set kv.1 kv.2 d) acc d = acc ++ d) as H
    by apply (H []).
  induction d as [|[k v] d IH]; intros acc Hnd; cbn [foldl].
  - by rewrite app_nil_r.
  - rewrite dict_set_fresh.
    + rewrite IH; rewrite <- app_assoc; done.
    + rewrite fmap_app in Hnd. apply NoDup_app in Hnd as (_ & Hdisj & _).
      intros Hin. apply (Hdisj k Hin). left.
Qed.

Lemma wf_reads_back v : wf v -> reads_back v.
Proof.
  induction v as [|b|z|s|l IH|d IH] using t_nested_ind;
    intros Hwf indent level rest fuel Hrest Hfuel;
    (destruct fuel as [|fuel]; [cbn in Hfuel; lia|]).
  - reflexivity.
  - destruct b; reflexivity.
  - by apply scan_int.
  - apply scan_string.
  - apply wf_list in Hwf. destruct l as [|x xs]; [reflexivity|].
    assert (Forall reads_back (x :: xs)) as Hall.
    { apply Forall_forall. intros y Hy.
      rewrite Forall_forall in IH, Hwf. by apply IH, Hwf. }
    rewrite encode_list. change (py "[") with [91]. rewrite <- !app_assoc.
    cbn [app].
    destruct (encode_head indent (S level) x) as (c & r & Hx & _ & Hc & _).
    erewrite scan_once_list;
      [|rewrite skip_ws_newline_indent, skip_ws_encode, Hx; reflexivity | exact Hc].
    rewrite skip_ws_newline_indent, skip_ws_encode.
    pose proof (scan_items_encode indent (S level) rest xs x fuel Hall) as Hscan.
    cbn [pred] in Hscan. rewrite Hscan; [reflexivity|].
    change (weight (List (x :: xs))) with (S (weight_items (x :: xs))) in Hfuel. lia.
  - apply wf_dict in Hwf as [Hnd Hwf]. destruct d as [|[k x] xs]; [reflexivity|].
    assert (Forall (fun kv => reads_back kv.2) ((k, x) :: xs)) as Hall.
    { apply Forall_forall. intros y Hy.
      rewrite Forall_forall in IH, Hwf. by apply IH, Hwf. }
    rewrite encode_dict. change (py "{") with [123]. rewrite <- !app_assoc.
    cbn [app].
    destruct (encode_str_head k) as (r & Hk).
    erewrite scan_once_dict;
      [|rewrite skip_ws_newline_indent, Hk; cbn [app]; by apply skip_ws_head | done].
    rewrite skip_ws_newline_indent.
    assert (forall s, skip_ws (encode_str k ++ s) = encode_str k ++ s) as ->
      by (intros s'; rewrite Hk; by apply skip_ws_head).
    pose proof (scan_pairs_encode indent (S level) rest xs k x fuel Hall) as Hscan.
    cbn [pred] in Hscan. rewrite Hscan.
    + cbn [mbind option_bind]. by rewrite dict_of_pairs_nodup.
    + change (weight (Dict ((k, x) :: xs))) with (S (weight_pairs ((k, x) :: xs))) in Hfuel.
      lia.
Qed.


Lemma weight_le_length v indent level :
  (weight v <= length (encode indent level v))%nat.
Proof.
  revert level.
  induction v as [|b|z|s|l IH|d IH] using t_nested_ind; intros level.
  - vm_compute. lia.
  - destruct b; vm_compute; lia.
  - destruct (str_of_int_head z) as (c & r & Hz & _).
    cbn [encode weight]. rewrite Hz. cbn. lia.
  - cbn [encode weight]. unfold encode_str. cbn [length]. lia.
  - destruct l as [|x xs]; [vm_compute; lia|].
    rewrite encode_list. change (weight (List (x :: xs)))
      with (S (S (weight x + weight_items xs))).
    apply Forall_cons in IH as [Hx IH].
    assert (weight_items xs <= length (encode_more indent (S level) xs))%nat.
    { induction xs as [|y ys IHys]; [cbn; lia|].
      apply Forall_cons in IH as [Hy IH].
      change (weight_items (y :: ys)) with (S (weight y + weight_items ys)).
      cbn [encode_more]. rewrite !length_app. specialize (IHys IH).
      specialize (Hy (S level)). change (py ",") with [44]. cbn [length]. lia. }
    rewrite !length_app. specialize (Hx (S level)).
    change (py "[") with [91]. change (py "]") with [93]. cbn [length]. lia.
  - destruct d as [|[k x] xs]; [vm_compute; lia|].
    rewrite encode_dict. change (weight (Dict ((k, x) :: xs)))
      with (S (S (weight x + weight_pairs xs))).
    apply Forall_cons in IH as [Hx IH]. cbn [snd] in Hx.
    assert (weight_pairs xs <= length (encode_more_pairs indent (S level) xs))%nat.
    { induction xs as [|[k' y] ys IHys]; [cbn; lia|].
      apply Forall_cons in IH as [Hy IH]. cbn [snd] in Hy.
      change (weight_pairs ((k', y) :: ys)) with (S (weight y + weight_pairs ys)).
      cbn [encode_more_pairs]. rewrite !length_app. specialize (IHys IH).
      specialize (Hy (S level)). change (py ",") with [44]. cbn [length]. lia. }
    rewrite !length_app. specialize (Hx (S level)).
    change (py "{") with [123]. change (py "}") with [125]. cbn [length]. lia.
Qed.

(** Decoding what the encoder wrote gives the document back. *)
Lemma loads_dumps indent v : wf v -> loads (dumps indent v) = Some v.
Proof.
  intros Hwf. unfold loads, dumps.
  pose proof (skip_ws_encode indent 0 v []) as Hskip. rewrite app_nil_r in Hskip.
  rewrite Hskip.
  pose proof (wf_reads_back v Hwf indent 0%nat [] (S (length (encode indent 0 v))) I)
    as Hback.
  rewrite app_nil_r in Hback. rewrite Hback; [reflexivity|].
  pose proof (weight_le_length v indent 0). lia.
Qed.

End JsonRoundTrip.

(** *** The JSON report *)

Section JsonReportProofs.

Variable isoformat : datetime -> str.

Ltac distinct_keys := refine (bool_decide_unpack _ _); vm_compute; exact I.

Ltac wf_entry :=
  apply JsonRoundTrip.wf_dict; split;
  [ distinct_keys
  | repeat (apply Forall_cons; split); try apply Forall_nil; cbn [snd];
    try exact I ].

Lemma data_wf report : JsonDoc.wf (data isoformat report).
Proof.
  unfold data. apply JsonRoundTrip.wf_dict. split; [distinct_keys|].
  repeat (apply Forall_cons; split); try apply Forall_nil; cbn [snd];
    try exact I;
    apply JsonRoundTrip.wf_list, Forall_fmap, Forall_true; intros x;
    try exact I; wf_entry.
  by destruct (InfoBase.last_session_time x).
Qed.

(** C9: decoding the JSON report gives back the document the report was
    made from, and its list of infobases has, entry by entry and in the
    order of the snapshot, the id, name, session count and inactivity flag
    of the snapshot's infobases, with the last session time as ISO text or
    null. *)
Theorem json_report_round_trip (report : ClusterReport.t) :
  exists doc entries,
    Json.loads (_generate_json_report isoformat report) = Some doc
    /\ Json.field (py "infobases") doc = Some (Json.List entries)
    /\ Forall2
         (fun ib entry =>
            Json.field (py "id") entry = Some (Json.Str (InfoBase.infobase_id ib))
            /\ Json.field (py "name") entry = Some (Json.Str (InfoBase.name ib))
            /\ Json.field (py "sessions_count") entry
               = Some (Json.Int (InfoBase.sessions_count ib))
            /\ Json.field (py "is_inactive") entry
               = Some (Json.Bool (InfoBase.is_inactive ib))
            /\ Json.field (py "last_session_time") entry
               = Some (match InfoBase.last_session_time ib with
                       | Some t => Json.Str (isoformat t)
                       | None => Json.Null
                       end))
         (ClusterReport.infobases report) entries.
Proof.
  eexists (data isoformat report), _. split; [|split].
  - apply JsonRoundTrip.loads_dumps, data_wf.
  - reflexivity.
  - apply Forall2_fmap_r, Forall_Forall2_diag, Forall_true.
    intros ib. repeat split; reflexivity.
Qed.

End JsonReportProofs.

Example json_report_sample :
  let iso (d : datetime) := py "2024-01-01T00:00:0" ++ str_of_int (wall d) in
  let report :=
    ClusterReport.mk (naive 7) [Cluster.mk (py "c1") (py "srv1") (py "1540") (py "Main")] []
      [ InfoBase.mk (py "ib1") (Json.QUOTE :: py "Бух\" ++ [LF; 1; 31]) [] [] [] 2 (Some (naive 5)) false;
        InfoBase.mk (py "ib2") (py "Zup") [] [] [] 0 None true ]
      [] [] [py "oops"] in
  Json.loads (_generate_json_report iso report) = Some (data iso report).
Proof. vm_compute. reflexivity. Qed.

(** * Further properties of the code *)

(** ** White space around texts and lines *)

Local Abbreviation blank_text := (Forall (fun c => isspace c = true)).

Lemma lstrip_spaces_app (x s : str) : blank_text x -> lstrip (x ++ s) = lstrip s.
Proof.
  induction 1 as [|c x Hc _ IH]; [reflexivity|].
  cbn [app lstrip]. by rewrite Hc.
Qed.

Lemma lstrip_solid_app (c : N) (a b : str) :
  isspace c = false -> lstrip (a ++ c :: b) = lstrip a ++ c :: b.
Proof.
  intros Hc. induction a as [|x a IH]; cbn [app lstrip].
  - by rewrite Hc.
  - destruct (isspace x); [exact IH | reflexivity].
Qed.

Lemma rstrip_spaces_app (s x : str) : blank_text x -> rstrip (s ++ x) = rstrip s.
Proof.
  intros Hx. unfold rstrip. rewrite reverse_app, lstrip_spaces_app; [done|].
  by apply Forall_reverse.
Qed.

Lemma rstrip_solid_app (c : N) (a b : str) :
  isspace c = false -> rstrip (a ++ c :: b) = a ++ c :: rstrip b.
Proof.
  intros Hc. unfold rstrip.
  rewrite reverse_app, reverse_cons, <- app_assoc. cbn [app].
  rewrite lstrip_solid_app by done.
  rewrite reverse_app, reverse_cons, reverse_involutive, <- app_assoc. reflexivity.
Qed.

Lemma strip_solid_app (c : N) (a b : str) :
  isspace c = false -> strip (a ++ c :: b) = lstrip a ++ c :: rstrip b.
Proof.
  intros Hc. unfold strip. by rewrite lstrip_solid_app, rstrip_solid_app.
Qed.

Lemma strip_spaces_before (x s : str) : blank_text x -> strip (x ++ s) = strip s.
Proof. intros Hx. unfold strip. by rewrite lstrip_spaces_app. Qed.

Lemma not_blank_solid (s : str) :
  ~ blank_text s -> exists a c b, s = a ++ c :: b /\ isspace c = false.
Proof.
  intros Hs. apply not_Forall_Exists in Hs; [|apply _].
  apply Exists_exists in Hs as (c & Hin & Hc).
  apply list_elem_of_split in Hin as (a & b & ->).
  exists a, c, b. split; [done|]. apply not_true_is_false. exact Hc.
Qed.

Lemma strip_spaces_after (s x : str) : blank_text x -> strip (s ++ x) = strip s.
Proof.
  intros Hx. destruct (decide (blank_text s)) as [Hs|Hs].
  - rewrite (proj2 (strip_nil s) Hs). apply strip_nil, Forall_app. done.
  - destruct (not_blank_solid s Hs) as (a & c & b & -> & Hc).
    rewrite <- app_assoc. cbn [app]. rewrite !strip_solid_app by done.
    by rewrite rstrip_spaces_app.
Qed.

Lemma lstrip_fixed (s : str) :
  (forall c, head s = Some c -> isspace c = false) -> lstrip s = s.
Proof.
  destruct s as [|c s]; [done|]. intros H. cbn. by rewrite (H c eq_refl).
Qed.

Lemma rstrip_fixed (s : str) :
  (forall c, last s = Some c -> isspace c = false) -> rstrip s = s.
Proof.
  intros H. unfold rstrip. rewrite lstrip_fixed.
  - apply reverse_involutive.
  - intros c Hc. apply H. by rewrite <- head_reverse.
Qed.

(** What [strip] leaves, it leaves alone. *)
Lemma strip_trimmed_fixed (s t : str) : Spec.trimmed s t -> strip t = t.
Proof.
  intros (_ & Hhead & Hlast). unfold strip.
  rewrite (lstrip_fixed t Hhead). by apply rstrip_fixed.
Qed.

Lemma strip_strip (s : str) : strip (strip s) = strip s.
Proof. apply (strip_trimmed_fixed s), strip_trimmed. Qed.

Lemma trimmed_elem (s t : str) c : Spec.trimmed s t -> c ∈ t -> c ∈ s.
Proof.
  intros ((l & r & -> & _) & _) Hc. rewrite !elem_of_app. auto.
Qed.

Lemma strip_lstrip (s : str) : strip (lstrip s) = strip s.
Proof.
  unfold strip. f_equal. apply lstrip_fixed.
  by destruct (lstrip_spec s) as (_ & _ & _ & H).
Qed.

Lemma strip_rstrip (s : str) : strip (rstrip s) = strip s.
Proof.
  destruct (decide (blank_text s)) as [Hs|Hs].
  - by rewrite (proj2 (rstrip_nil s) Hs), (proj2 (strip_nil s) Hs).
  - destruct (not_blank_solid s Hs) as (a & c & b & -> & Hc).
    rewrite rstrip_solid_app, !strip_solid_app by done.
    do 2 f_equal. apply rstrip_fixed.
    by destruct (rstrip_spec b) as (_ & _ & _ & H).
Qed.

(** ** Lines *)

Lemma split_app (sep : N) (a b : str) :
  exists ia la hb tb,
    split sep a = ia ++ [la] /\ split sep b = hb :: tb
    /\ split sep (a ++ b) = ia ++ [la ++ hb] ++ tb.
Proof.
  destruct (split sep b) as [|hb tb] eqn:Hb; [by apply split_nonempty in Hb|].
  induction a as [|c a (ia & la & hb' & tb' & Ha & [= <- <-] & Hab)].
  - exists [], [], hb, tb. by rewrite <- Hb.
  - cbn [app split]. rewrite Ha, Hab. destruct (c =? sep).
    + exists ([] :: ia), la, hb, tb. done.
    + destruct ia as [|x ia]; cbn [app].
      * exists [], (c :: la), hb, tb. done.
      * exists ((c :: x) :: ia), la, hb, tb. done.
Qed.

Lemma split_Forall (P : N -> Prop) (sep : N) (s : str) :
  Forall P s -> Forall (Forall P) (split sep s).
Proof.
  induction 1 as [|c s Hc _ IH]; cbn [split]; [by repeat constructor|].
  destruct (c =? sep); [by constructor|].
  destruct (split sep s) as [|w ws]; [by repeat constructor|].
  apply Forall_cons in IH as [Hw Hws]. by repeat constructor.
Qed.

Lemma split_solid (sep : N) (l : str) : sep ∉ l -> split sep l = [l].
Proof.
  induction l as [|c l IH]; [done|]. intros Hl.
  apply not_elem_of_cons in Hl as [Hc Hl]. cbn [split].
  destruct (N.eqb_spec c sep); [done|]. by rewrite IH.
Qed.

Lemma split_line (sep : N) (l rest : str) :
  sep ∉ l -> split sep (l ++ sep :: rest) = l :: split sep rest.
Proof.
  induction l as [|c l IH]; intros Hl; cbn [app split].
  - by rewrite N.eqb_refl.
  - apply not_elem_of_cons in Hl as [Hc Hl].
    destruct (N.eqb_spec c sep); [done|]. by rewrite IH.
Qed.

(** Lines without a separator, joined and split, are the lines again. *)
Lemma split_join (sep : N) (ls : list str) :
  ls ≠ [] -> Forall (fun l => sep ∉ l) ls -> split sep (join [sep] ls) = ls.
Proof.
  intros Hne Hls. induction Hls as [|l ls Hl Hls IH]; [done|].
  destruct ls as [|l' ls].
  - cbn [join]. by apply split_solid.
  - cbn [join app]. rewrite split_line by done. f_equal. by apply IH.
Qed.

(** ** The parser and white space *)

Lemma parse_line_strip st (a b : str) :
  strip a = strip b -> parse_line st a = parse_line st b.
Proof. intros H. destruct st as [items cur]. unfold parse_line. by rewrite H. Qed.

Lemma parse_line_blank items cur (l : str) :
  blank_text l ->
  parse_line (items, cur) l
  = if nonempty_item cur then (items ++ [cur], ∅) else (items, cur).
Proof.
  intros Hl. unfold parse_line. by rewrite (proj2 (strip_nil l) Hl).
Qed.

Lemma foldl_parse_line_blank_start items (ls : list str) :
  Forall blank_text ls -> foldl parse_line (items, ∅) ls = (items, ∅).
Proof.
  induction 1 as [|l ls Hl _ IH]; [done|].
  cbn [foldl]. by rewrite parse_line_blank.
Qed.

Lemma finish_blank st (ls : list str) :
  Forall blank_text ls -> finish (foldl parse_line st ls) = finish st.
Proof.
  intros Hls. revert st. induction Hls as [|l ls Hl _ IH]; intros [items cur]; [done|].
  cbn [foldl]. rewrite parse_line_blank by done. rewrite IH.
  unfold finish. destruct (nonempty_item cur) eqn:Hcur; [reflexivity|]. by rewrite Hcur.
Qed.

Lemma parse_output_finish (text : str) :
  _parse_output text = finish (foldl parse_line ([], ∅) (split LF (strip text))).
Proof. reflexivity. Qed.

(** The first [strip] of [_parse_output] changes nothing: the lines of the
    text as it came give the same records. *)
Lemma parse_output_lines (text : str) :
  _parse_output text = finish (foldl parse_line ([], ∅) (split LF text)).
Proof.
  rewrite parse_output_finish.
  destruct (lstrip_spec text) as (l & Htext & Hl & _).
  destruct (rstrip_spec (lstrip text)) as (r & Hcore & Hr & _).
  fold (strip text) in Hcore. set (m := strip text) in *.
  rewrite Htext, Hcore. clear Htext Hcore.
  destruct (split_app LF l (m ++ r)) as (il & ll & h & tl & Hsl & Hsm & ->).
  pose proof (split_Forall _ LF l Hl) as Hlines. rewrite Hsl in Hlines.
  apply Forall_app in Hlines as [Hil Hll]. apply Forall_cons in Hll as [Hll _].
  rewrite foldl_app, (foldl_parse_line_blank_start [] il) by done.
  rewrite foldl_app. cbn [foldl].
  rewrite (parse_line_strip _ (ll ++ h) h) by (by apply strip_spaces_before).
  change (foldl parse_line (parse_line ([], ∅) h) tl)
    with (foldl parse_line ([], ∅) (h :: tl)).
  rewrite <- Hsm. clear dependent il. clear dependent ll. clear h tl Hsm.
  destruct (split_app LF m r) as (im & lm & hr & tr & Hsm & Hsr & ->).
  pose proof (split_Forall _ LF r Hr) as Hlines. rewrite Hsr in Hlines.
  apply Forall_cons in Hlines as [Hhr Htr].
  rewrite Hsm, (app_assoc im), (foldl_app _ (im ++ [lm ++ hr])), (finish_blank _ tr) by done.
  rewrite !foldl_app. cbn [foldl].
  by rewrite (parse_line_strip _ (lm ++ hr) lm) by (by apply strip_spaces_after).
Qed.

(** X2: white space around the text, blank lines included, does not
    change what [_parse_output] returns. *)
Theorem parse_output_ignores_margins (l text r : str) :
  Forall (fun c => isspace c = true) l ->
  Forall (fun c => isspace c = true) r ->
  _parse_output (l ++ text ++ r) = _parse_output text.
Proof.
  intros Hl Hr. rewrite !parse_output_finish.
  by rewrite strip_spaces_before, strip_spaces_after.
Qed.

Lemma parse_output_ignores_margins_witness :
  _parse_output ([LF; SPACE; 9] ++ py "name: Main" ++ [13; LF; LF; SPACE])
  = _parse_output (py "name: Main").
Proof.
  apply (parse_output_ignores_margins [LF; SPACE; 9] (py "name: Main")
           [13; LF; LF; SPACE]); repeat constructor.
Defined.

(** ** What a parsed record holds *)

Lemma runs_elem (lines : list str) (b : list str) (line : str) :
  b ∈ Spec.runs lines -> line ∈ b -> line ∈ lines.
Proof.
  revert b. induction lines as [|l lines IH]; intros b Hb Hline.
  - cbn in Hb. apply list_elem_of_singleton in Hb as ->. inversion Hline.
  - destruct (runs_cons l lines) as (b0 & bs & Hruns & Hcons).
    rewrite Hcons in Hb. rewrite Hruns in IH.
    destruct (Spec.is_blank l).
    + apply elem_of_cons in Hb as [->|Hb]; [inversion Hline|].
      right. by apply (IH b).
    + apply elem_of_cons in Hb as [->|Hb].
      * apply elem_of_cons in Hline as [->|Hline]; [left|right].
        apply (IH b0); [left | done].
      * right. apply (IH b); [by right | done].
Qed.

Lemma written_last_elem (kvs : list (str * str)) (k v : str) :
  last (Spec.written k kvs) = Some v -> (k, v) ∈ kvs.
Proof.
  unfold Spec.written. intros Hlast.
  apply last_Some_elem_of, list_elem_of_fmap in Hlast as ([k' v'] & Hv & Hin).
  apply list_elem_of_filter in Hin as [Hk Hin]. cbn in Hv, Hk. by subst.
Qed.

(** X3: [_parse_output] emits no empty record; in a record no key has a
    colon or a line feed in it or white space around it, and no value has a
    line feed in it or white space around it. *)
Theorem parsed_records_are_clean (text : str) :
  Forall (fun d : item =>
            d ≠ ∅
            /\ forall k v, d !! k = Some v ->
                 strip k = k /\ strip v = v
                 /\ (COLON ∉ k) /\ (LF ∉ k) /\ (LF ∉ v))
         (_parse_output text).
Proof.
  rewrite parse_output_refines. unfold Spec.parse.
  apply Forall_fmap, Forall_forall. intros kvs Hkvs.
  apply list_elem_of_filter in Hkvs as [Hne Hkvs].
  apply list_elem_of_fmap in Hkvs as (b & -> & Hb). split.
  - intros Hempty. pose proof (last_wins_nonempty (Spec.fields b)) as Hn.
    unfold nonempty_item in Hn. rewrite Hempty in Hn.
    rewrite bool_decide_eq_true_2 in Hn by done. by destruct (Spec.fields b).
  - intros k v Hkv. rewrite last_wins_lookup in Hkv.
    apply written_last_elem in Hkv. unfold Spec.fields in Hkv.
    apply list_elem_of_omap in Hkv as (line & Hline & Hkv).
    pose proof (runs_elem _ _ _ Hb Hline) as Hin.
    pose proof (split_lines_whole LF (strip text)) as Hlf.
    rewrite Forall_forall in Hlf. specialize (Hlf line Hin).
    destruct (key_value_some line k v Hkv) as (a & c & Hs & Ha & Hk & Hv).
    assert (forall x, LF ∈ x -> x = a \/ x = c -> False) as Hno.
    { intros x Hx Hac. apply Hlf.
      apply (trimmed_elem line (strip line)); [apply strip_trimmed|].
      rewrite Hs, elem_of_app, elem_of_cons. destruct Hac as [->| ->]; auto. }
    repeat split.
    + by apply (strip_trimmed_fixed a).
    + by apply (strip_trimmed_fixed c).
    + intros H. by apply Ha, (trimmed_elem a k).
    + intros H. apply (Hno a); [by apply (trimmed_elem a k) | by left].
    + intros H. apply (Hno c); [by apply (trimmed_elem c v) | by right].
Qed.

Lemma parsed_records_are_clean_witness :
  strip (py "Main") = py "Main" /\ (COLON ∉ py "name").
Proof.
  pose proof (parsed_records_are_clean (py " name :  Main ")) as H.
  assert (_parse_output (py " name :  Main ") = [ {[ py "name" := py "Main" ]} ])
    as Hparse by (vm_compute; reflexivity).
  rewrite Hparse in H. apply Forall_cons in H as [[_ H] _].
  destruct (H (py "name") (py "Main")) as (_ & Hv & Hk & _).
  - vm_compute. reflexivity.
  - split; [exact Hv | exact Hk].
Defined.

(** ** Reading a listing back *)

Lemma partition_at (sep : N) (a b : str) :
  sep ∉ a -> partition sep (a ++ sep :: b) = (a, [sep], b).
Proof.
  induction a as [|c a IH]; intros Ha; cbn [app partition].
  - by rewrite N.eqb_refl.
  - apply not_elem_of_cons in Ha as [Hc Ha].
    destruct (N.eqb_spec c sep); [done|]. by rewrite IH.
Qed.

Lemma lstrip_elem (s : str) c : c ∈ lstrip s -> c ∈ s.
Proof.
  destruct (lstrip_spec s) as (l & Hs & _). intros Hc.
  rewrite Hs, elem_of_app. by right.
Qed.

(** The key and the value of a line are the trimmed texts on either side
    of its first colon. *)
Lemma key_value_colon (a b : str) :
  COLON ∉ a -> Spec.key_value (a ++ COLON :: b) = Some (strip a, strip b).
Proof.
  intros Ha. unfold Spec.key_value.
  rewrite strip_solid_app by reflexivity.
  assert (COLON ∉ lstrip a) as Hla by (intros H; by apply Ha, lstrip_elem).
  rewrite (proj2 (has_char_elem _ _)) by (rewrite elem_of_app, elem_of_cons; auto).
  rewrite partition_at by done. by rewrite strip_lstrip, strip_rstrip.
Qed.

Lemma line_key_value (kv : str * str) :
  Listing.printable kv -> Spec.key_value (Listing.line kv) = Some kv.
Proof.
  destruct kv as [k v]. intros (Hk & Hv & Hc & _). cbn [fst snd] in *.
  unfold Listing.line. cbn [fst snd]. change (py " : ") with [SPACE; COLON; SPACE].
  change (k ++ [SPACE; COLON; SPACE] ++ v) with (k ++ [SPACE] ++ COLON :: [SPACE] ++ v).
  rewrite app_assoc, key_value_colon.
  - rewrite strip_spaces_after, strip_spaces_before, Hk, Hv by (by repeat constructor).
    reflexivity.
  - rewrite elem_of_app, list_elem_of_singleton. intros [H|H]; [done | discriminate].
Qed.

Lemma line_not_blank (kv : str * str) : Spec.is_blank (Listing.line kv) = false.
Proof.
  unfold Spec.is_blank. apply negb_false_iff.
  destruct (strip (Listing.line kv)) eqn:Hs; [|done].
  apply strip_nil in Hs. unfold Listing.line in Hs.
  change (py " : ") with [SPACE; COLON; SPACE] in Hs.
  apply Forall_app in Hs as [_ Hs]. apply Forall_app in Hs as [Hs _].
  apply Forall_cons in Hs as [_ Hs]. apply Forall_cons in Hs as [Hs _].
  discriminate Hs.
Qed.

Lemma line_whole (kv : str * str) : Listing.printable kv -> LF ∉ Listing.line kv.
Proof.
  intros (_ & _ & _ & Hk & Hv). unfold Listing.line.
  change (py " : ") with [SPACE; COLON; SPACE].
  rewrite !elem_of_app. intros [H|[H|H]]; [done| |done].
  repeat (apply elem_of_cons in H as [H|H]; [discriminate|]). inversion H.
Qed.

Lemma records_after_fields (kvs pending : list (str * str)) (lines : list str) :
  Forall Listing.printable kvs ->
  records_after pending ((Listing.line <$> kvs) ++ lines)
  = records_after (pending ++ kvs) lines.
Proof.
  intros Hkvs. revert pending. induction Hkvs as [|kv kvs Hkv _ IH]; intros pending.
  - by rewrite app_nil_r.
  - cbn [fmap list_fmap app].
    rewrite records_after_line, line_key_value by (done || apply line_not_blank).
    rewrite IH, <- app_assoc. reflexivity.
Qed.

Lemma records_after_listing (records : list (list (str * str))) :
  Forall (fun kvs => kvs ≠ [] /\ Forall Listing.printable kvs) records ->
  records_after [] (Listing.lines records ++ [[]]) = Spec.last_wins <$> records.
Proof.
  unfold Listing.lines. induction 1 as [|kvs records [Hne Hkvs] _ IH].
  - reflexivity.
  - cbn [fmap list_fmap concat]. unfold Listing.record at 1.
    rewrite <- !app_assoc, records_after_fields by done. cbn [app].
    rewrite records_after_blank by reflexivity. rewrite IH.
    by destruct kvs.
Qed.

Lemma listing_lines_whole (records : list (list (str * str))) :
  Forall (fun kvs => kvs ≠ [] /\ Forall Listing.printable kvs) records ->
  Forall (fun l => LF ∉ l) (Listing.lines records ++ [[]]).
Proof.
  intros Hrecords. apply Forall_app. split; [|repeat constructor; by inversion 1].
  unfold Listing.lines. induction Hrecords as [|kvs records [_ Hkvs] _ IH].
  - constructor.
  - cbn [fmap list_fmap concat]. apply Forall_app. split; [|exact IH].
    unfold Listing.record. apply Forall_app. split.
    + apply Forall_fmap. eapply Forall_impl; [exact Hkvs|]. apply line_whole.
    + repeat constructor. by inversion 1.
Qed.

Lemma parse_listing (records : list (list (str * str))) :
  Forall (fun kvs => kvs ≠ [] /\ Forall Listing.printable kvs) records ->
  _parse_output (Listing.text records) = Spec.last_wins <$> records.
Proof.
  intros Hrecords. rewrite parse_output_lines. unfold Listing.text.
  rewrite split_join; [|by destruct (Listing.lines records) | by apply listing_lines_whole].
  pose proof (parse_loop (Listing.lines records ++ [[]]) [] []) as Hloop.
  change (Spec.last_wins []) with (∅ : item) in Hloop.
  unfold finish. destruct (foldl parse_line _ _) as [items cur].
  rewrite Hloop. by apply records_after_listing.
Qed.

(** X4: a listing of records, each with at least one field and all fields
    printable, is parsed into those records, in their order, each as the
    mapping of its fields. *)
Theorem parse_output_reads_listing (records : list (list (str * str))) :
  Forall (fun kvs => kvs ≠ [] /\ Forall Listing.printable kvs) records ->
  _parse_output (Listing.text records) = Spec.last_wins <$> records.
Proof. apply parse_listing. Qed.

Ltac forall_items :=
  repeat lazymatch goal with
         | |- Forall _ [] => constructor
         | |- Forall _ (_ :: _) => constructor
         end.

Ltac printable_fields :=
  forall_items; unfold Listing.printable; cbn [fst snd]; repeat split;
  first [ reflexivity | refine (bool_decide_unpack _ _); vm_compute; exact I ].

Lemma parse_output_reads_listing_witness :
  _parse_output
    (Listing.text [ [ (py "cluster", py "c1"); (py "name", py "Main") ];
                    [ (py "cluster", py "c2"); (py "name", []) ] ])
  = [ {[ py "cluster" := py "c1"; py "name" := py "Main" ]};
      {[ py "cluster" := py "c2"; py "name" := [] ]} ].
Proof.
  rewrite parse_output_reads_listing.
  - vm_compute. reflexivity.
  - forall_items; (split; [discriminate | printable_fields]).
Defined.

Lemma parse_command_output (stdout stderr : str) :
  _parse_output (command_output (Completed 0 stdout stderr)) = _parse_output stdout.
Proof.
  cbn [command_output]. change (negb (0 =? 0)%Z) with false. cbv iota.
  destruct (strip stdout) eqn:Hs; cbn [nonempty negb]; [|reflexivity].
  rewrite !parse_output_finish, Hs. reflexivity.
Qed.

Lemma cluster_of_listing (c : Cluster.t) :
  let it := Spec.last_wins (Listing.cluster c) in
  Cluster.mk (get it (py "cluster")) (get it (py "host"))
             (get it (py "port")) (get it (py "name")) = c.
Proof.
  destruct c as [cluster_id host port name]. cbn zeta. unfold get.
  rewrite !last_wins_lookup. reflexivity.
Qed.

Section RacRuns.

Context {World : Type}.
Variable subprocess_run : list str -> World -> RunResult * World.
Variable fromisoformat : str -> option datetime.
Variable config : ClusterConfig.t.
Variable datetime_now : World -> datetime.
Variable str_exception : Exception -> str.

Local Abbreviation M := (@M World).

(** X5: when the utility answers [cluster list] with exit status 0 and the
    listing of some clusters whose fields are printable, [get_clusters]
    returns those clusters, in the order of the listing. *)
Theorem get_clusters_reads_listing (clusters : list Cluster.t) (stderr : str) (e : Env) :
  (subprocess_run (get_clusters_cmd config) (world e)).1
  = Completed 0 (Listing.text (Listing.cluster <$> clusters)) stderr ->
  Forall (fun c => Forall Listing.printable (Listing.cluster c)) clusters ->
  (get_clusters subprocess_run config e).1 = clusters.
Proof using Type.
  intros Hrun Hfields.
  rewrite get_clusters_result, execute_command_output, Hrun, parse_command_output.
  rewrite parse_listing.
  - rewrite <- !list_fmap_compose.
    rewrite <- (list_fmap_id clusters) at 2. apply list_fmap_ext.
    intros i c _. apply cluster_of_listing.
  - apply Forall_fmap. eapply Forall_impl; [exact Hfields|].
    intros c Hc. split; [discriminate | exact Hc].
Qed.

(** *** What [_execute_command] hands on *)

(** X6: [_execute_command] hands [subprocess.run] the command line once;
    what it returns is either empty or the whole standard output of a run
    that ended with exit status 0 and printed more than white space. *)
Theorem execute_command_all_or_nothing (cmd : list str) (e : Env) :
  let '(output, e') := _execute_command subprocess_run cmd e in
  calls e' = calls e ++ [cmd]
  /\ world e' = (subprocess_run cmd (world e)).2
  /\ (output = []
      \/ (strip output ≠ []
          /\ exists stderr,
               (subprocess_run cmd (world e)).1 = Completed 0 output stderr)).
Proof using Type.
  unfold _execute_command. destruct (subprocess_run cmd (world e)) as [r w].
  split; [reflexivity|]. split; [reflexivity|].
  destruct r as [rc out err| |]; cbn [command_output fst]; [|by left..].
  destruct (Z.eqb_spec rc 0) as [->|Hrc]; cbn [negb]; [|by left].
  destruct (strip out) eqn:Hs; cbn [nonempty negb]; [by left|].
  right. split; [by rewrite Hs | by exists err].
Qed.

(** *** The command lines of a collection pass *)

Lemma query_calls {A} (cmd : list str) (f : str -> A) (e : Env) :
  calls ((output ← _execute_command subprocess_run cmd; mret (M := M) (f output)) e).2
  = calls e ++ [cmd].
Proof using Type.
  rewrite bind_run. pose proof (execute_command_calls subprocess_run cmd e) as H.
  destruct (_execute_command subprocess_run cmd e). exact H.
Qed.

Lemma get_clusters_calls (e : Env) :
  calls (get_clusters subprocess_run config e).2 = calls e ++ [get_clusters_cmd config].
Proof using Type. apply query_calls. Qed.

Lemma get_servers_calls cluster_id (e : Env) :
  calls (get_servers subprocess_run config cluster_id e).2
  = calls e ++ [get_servers_cmd config cluster_id].
Proof using Type. apply query_calls. Qed.

Lemma get_infobases_calls cluster_id (e : Env) :
  calls (get_infobases subprocess_run config cluster_id e).2
  = calls e ++ [get_infobases_cmd config cluster_id].
Proof using Type. apply query_calls. Qed.

Lemma get_sessions_calls cluster_id infobase_id (e : Env) :
  calls (get_sessions subprocess_run fromisoformat config cluster_id infobase_id e).2
  = calls e ++ [get_sessions_cmd config cluster_id infobase_id].
Proof using Type. apply query_calls. Qed.

Lemma collect_cluster_calls report cluster (e : Env) :
  calls (collect_cluster subprocess_run fromisoformat config datetime_now
           report cluster e).2
  = calls e ++ [ get_servers_cmd config (Cluster.cluster_id cluster);
                 get_infobases_cmd config (Cluster.cluster_id cluster);
                 get_sessions_cmd config (Cluster.cluster_id cluster) None ].
Proof using Type.
  destruct (collect_cluster_outcome subprocess_run fromisoformat config
              datetime_now report cluster e)
    as (servers & infobases & all_sessions & e1 & e2 & e3 & H1 & H2 & H3 & ->).
  pose proof (get_servers_calls (Cluster.cluster_id cluster) e) as Hc1.
  pose proof (get_infobases_calls (Cluster.cluster_id cluster) e1) as Hc2.
  pose proof (get_sessions_calls (Cluster.cluster_id cluster) None e2) as Hc3.
  rewrite H1 in Hc1. rewrite H2 in Hc2. rewrite H3 in Hc3. cbn [snd] in *.
  rewrite Hc3, Hc2, Hc1, <- !app_assoc. reflexivity.
Qed.

Lemma collect_cluster_clusters report cluster (e : Env) :
  ClusterReport.clusters
    (state_of (collect_cluster subprocess_run fromisoformat config datetime_now
                 report cluster e).1)
  = ClusterReport.clusters report.
Proof using Type.
  destruct (collect_cluster_outcome subprocess_run fromisoformat config
              datetime_now report cluster e)
    as (servers & infobases & all_sessions & e1 & e2 & e3 & _ & _ & _ & ->).
  cbn zeta. cbn [fst]. destruct (inactive_threshold _ _); [reflexivity|].
  destruct (correlate _ _ _) as [[B' inactive']|exc [B' inactive']]; reflexivity.
Qed.

(** A property of the report that every turn keeps holds of the report
    the loop ends with, however it ends. *)
Lemma try_each_state {A S} (P : S -> Prop) (body : S -> A -> M (completion S)) :
  (forall s x e, P s -> P (state_of (body s x e).1)) ->
  forall l s e, P s -> P (state_of (try_each l body s e).1).
Proof using Type.
  intros Hbody. apply (try_each_outcome P (fun c => P (state_of c))).
  - intros s Hs. exact Hs.
  - intros s x e Hs. specialize (Hbody s x e Hs).
    destruct (body s x e).1; exact Hbody.
Qed.

(** The loop over clusters asks about the clusters it gets to, in their
    order: all of them when it ends normally, those up to the one whose
    turn raised otherwise. *)
Lemma collect_loop_calls (clusters : list Cluster.t) report (e : Env) :
  let run :=
    try_each clusters
      (collect_cluster subprocess_run fromisoformat config datetime_now) report e in
  exists k,
    (k <= length clusters)%nat
    /\ calls run.2
       = calls e
         ++ concat ((fun c => [ get_servers_cmd config (Cluster.cluster_id c);
                                get_infobases_cmd config (Cluster.cluster_id c);
                                get_sessions_cmd config (Cluster.cluster_id c) None ])
                    <$> take k clusters)
    /\ match run.1 with
       | Normal _ => k = length clusters
       | Abrupt _ _ => (0 < k)%nat
       end.
Proof using Type.
  cbn zeta. revert report e. induction clusters as [|c clusters IH]; intros report e.
  - exists 0%nat. cbn. by rewrite app_nil_r.
  - rewrite try_each_cons.
    pose proof (collect_cluster_calls report c e) as Hc.
    destruct (collect_cluster _ _ _ _ report c e) as [[report'|exc report'] e'];
      cbn [snd] in Hc.
    + destruct (IH report' e') as (k & Hk & Hcalls & Hend).
      exists (S k). split; [cbn [length]; lia|]. split.
      * rewrite Hcalls, Hc. cbn [take]. rewrite fmap_cons. cbn [concat].
        by rewrite <- !app_assoc.
      * destruct (try_each _ _ _ _).1; cbn [length]; lia.
    + exists 1%nat. cbn [fst snd]. split; [cbn [length]; lia|]. split; [|lia].
      rewrite Hc. cbn [take]. rewrite take_0. reflexivity.
Qed.

Lemma add_cluster_auth_extends (cmd : list str) :
  exists flags, _add_cluster_auth config cmd = cmd ++ flags.
Proof using Type.
  unfold _add_cluster_auth.
  destruct (nonempty (ClusterConfig.cluster_user config)),
           (nonempty (ClusterConfig.cluster_pwd config));
    rewrite <- ?app_assoc; eauto. exists []. by rewrite app_nil_r.
Qed.

Lemma collect_commands_list (clusters : list Cluster.t) :
  Forall listing_command (collect_commands config clusters).
Proof using Type.
  unfold collect_commands, listing_command. constructor; [by left|].
  induction clusters as [|c clusters IH]; [constructor|].
  rewrite fmap_cons. cbn [concat app].
  unfold get_servers_cmd, get_infobases_cmd, get_sessions_cmd.
  repeat (constructor;
          [ match goal with
            | |- context [_add_cluster_auth config ?cmd] =>
              destruct (add_cluster_auth_extends cmd) as (flags & ->)
            end;
            rewrite lookup_app_l by (cbn; lia); first [by left | by right] |]).
  exact IH.
Qed.

Lemma collect_commands_length (clusters : list Cluster.t) :
  length (collect_commands config clusters) = (1 + 3 * length clusters)%nat.
Proof using Type.
  unfold collect_commands. cbn [length].
  induction clusters as [|c cs IH]; [reflexivity|].
  rewrite fmap_cons. cbn [concat app length] in *. lia.
Qed.

(** X7: a collection pass asks for the list of clusters and then, cluster
    by cluster in the order of that list, for the servers, the infobases
    and all the sessions of the cluster: one command, and three for each
    cluster it gets to.  It gets to all of them when it records no error;
    an exception ends it after the three commands of the cluster whose
    turn raised.  Each command is a listing command, none an update or a
    termination; the clusters of the report are those it was given. *)
Theorem collection_pass_commands (e : Env) :
  let clusters := (get_clusters subprocess_run config e).1 in
  let '(report, e') :=
    collect_cluster_info subprocess_run fromisoformat config datetime_now
      str_exception e in
  ClusterReport.clusters report = clusters
  /\ (exists k,
        (k <= length clusters)%nat
        /\ calls e' = calls e ++ collect_commands config (take k clusters)
        /\ length (collect_commands config (take k clusters)) = (1 + 3 * k)%nat
        /\ (ClusterReport.errors report = [] -> k = length clusters)
        /\ (ClusterReport.errors report ≠ [] -> (0 < k)%nat))
  /\ Forall listing_command (collect_commands config clusters).
Proof using Type.
  cbn zeta.
  destruct (collect_cluster_info_outcome subprocess_run fromisoformat config
              datetime_now str_exception e)
    as (clusters & e1 & c & e2 & Hclusters & Hloop & ->).
  rewrite Hclusters. cbn [fst].
  pose proof (get_clusters_calls e) as H0. rewrite Hclusters in H0. cbn [snd] in H0.
  set (report0 := ClusterReport.mk (datetime_now (world e)) clusters [] [] [] [] [])
    in Hloop.
  pose proof (try_each_state
                (fun r => ClusterReport.clusters r = clusters
                          /\ ClusterReport.errors r = [])
                (collect_cluster subprocess_run fromisoformat config datetime_now)) as Hinv.
  specialize (Hinv (fun s x e0 Hs =>
                      conj (eq_trans (collect_cluster_clusters s x e0) (proj1 Hs))
                           (eq_trans (collect_cluster_errors subprocess_run
                                        fromisoformat config datetime_now s x e0)
                                     (proj2 Hs)))
                   clusters report0 e1 (conj eq_refl eq_refl)).
  destruct (collect_loop_calls clusters report0 e1) as (k & Hk & Hcalls & Hend).
  cbn zeta in Hcalls, Hend. rewrite Hloop in Hinv, Hcalls, Hend.
  cbn [fst snd] in Hinv, Hcalls, Hend. destruct Hinv as [Hcl Herr].
  split; [|split].
  - destruct c; exact Hcl.
  - exists k. split; [exact Hk|]. split; [|split; [|split]].
    + rewrite Hcalls, H0, <- app_assoc. reflexivity.
    + rewrite collect_commands_length, length_take. lia.
    + destruct c as [report|exc report]; [intros _; exact Hend|].
      cbn in Herr |- *. rewrite Herr. intros H. discriminate.
    + destruct c as [report|exc report]; [|intros _; exact Hend].
      cbn in Herr |- *. intros H. by destruct H.
  - apply collect_commands_list.
Qed.

(** *** A live run of the planner *)

Local Abbreviation block_turn cid :=
  (fun (blocked : list str) ib =>
     ok ← block_infobase subprocess_run config cid (InfoBase.infobase_id ib)
            true true inactivity_message;
     mret (M := M) (if ok : bool then blocked ++ [InfoBase.name ib] else blocked)).

Lemma block_infobase_calls cid ibid sd sjd msg (e : Env) :
  calls (block_infobase subprocess_run config cid ibid sd sjd msg e).2
  = calls e ++ [block_infobase_cmd config cid ibid sd sjd msg].
Proof using Type. apply (query_calls _ (fun output => no_error_in output false)). Qed.

Lemma block_command_word cid ibid sd sjd msg :
  block_infobase_cmd config cid ibid sd sjd msg !! 3%nat = Some (py "update").
Proof using Type.
  unfold block_infobase_cmd, _add_infobase_auth. cbv zeta.
  match goal with
  | |- context [_add_cluster_auth config ?cmd] =>
    destruct (add_cluster_auth_extends cmd) as (flags & ->);
    assert (forall more : list str, (cmd ++ more) !! 3%nat = Some (py "update"))
      as Hword by (intros more; rewrite lookup_app_l by (cbn; lia); reflexivity)
  end.
  destruct (nonempty (ClusterConfig.infobase_user config)),
           (nonempty (ClusterConfig.infobase_pwd config));
    rewrite <- ?app_assoc; apply Hword.
Qed.

Lemma live_run_inner cid (l : list InfoBase.t) (blocked : list str) (e : Env) :
  calls (for_each l (block_turn cid) blocked e).2
  = calls e ++ ((fun ib => block_infobase_cmd config cid (InfoBase.infobase_id ib)
                             true true inactivity_message) <$> l)
  /\ exists names, (for_each l (block_turn cid) blocked e).1 = blocked ++ names
                   /\ names `sublist_of` (InfoBase.name <$> l).
Proof using Type.
  revert blocked e. induction l as [|ib l IH]; intros blocked e.
  - cbn. rewrite !app_nil_r. split; [done|]. exists []. by rewrite app_nil_r.
  - rewrite for_each_cons, bind_run.
    pose proof (block_infobase_calls cid (InfoBase.infobase_id ib) true true
                  inactivity_message e) as Hcall.
    destruct (block_infobase _ _ _ _ _ _ _ e) as [ok e1]. rewrite ret_run.
    cbn [snd] in Hcall.
    destruct (IH (if ok then blocked ++ [InfoBase.name ib] else blocked) e1)
      as (Hcalls & names & Hnames & Hsub).
    split.
    + rewrite Hcalls, Hcall, fmap_cons, <- app_assoc. reflexivity.
    + rewrite Hnames, fmap_cons. destruct ok.
      * exists (InfoBase.name ib :: names). rewrite <- app_assoc.
        split; [reflexivity|]. by apply sublist_skip.
      * exists names. split; [reflexivity|]. by apply sublist_cons.
Qed.

Lemma live_run_outer (cs : list Cluster.t) (l : list InfoBase.t)
    (blocked : list str) (e : Env) :
  let run :=
    for_each cs
      (fun blocked c => for_each l (block_turn (Cluster.cluster_id c)) blocked)
      blocked e in
  calls run.2
  = calls e
    ++ concat ((fun c =>
                  (fun ib => block_infobase_cmd config (Cluster.cluster_id c)
                               (InfoBase.infobase_id ib) true true inactivity_message)
                  <$> l) <$> cs)
  /\ exists names, run.1 = blocked ++ names
       /\ names `sublist_of` concat (replicate (length cs) (InfoBase.name <$> l)).
Proof using Type.
  cbn zeta. revert blocked e. induction cs as [|c cs IH]; intros blocked e.
  - cbn. rewrite !app_nil_r. split; [done|]. exists []. by rewrite app_nil_r.
  - rewrite for_each_cons.
    destruct (live_run_inner (Cluster.cluster_id c) l blocked e)
      as (Hcall & names1 & Hnames1 & Hsub1).
    destruct (for_each l _ blocked e) as [blocked1 e1]. cbn [fst snd] in *.
    destruct (IH blocked1 e1) as (Hcalls & names & Hnames & Hsub).
    split.
    + rewrite Hcalls, Hcall, fmap_cons, <- app_assoc. reflexivity.
    + exists (names1 ++ names). rewrite Hnames, Hnames1, <- app_assoc.
      split; [reflexivity|]. cbn [length replicate concat].
      by apply sublist_app.
Qed.

(** X8: a live run of the planner issues one update command for every
    pair of a cluster and an inactive base of the report, cluster by
    cluster, whatever the earlier commands answered; none of them is a
    listing command; and the names it returns are picked, in order, from
    the names a dry run on the same report returns. *)
Theorem live_run_commands (report : ClusterReport.t) (e : Env) :
  let live := block_inactive_bases subprocess_run config report false e in
  let dry := block_inactive_bases subprocess_run config report true e in
  calls live.2 = calls e ++ block_commands config report
  /\ live.1 `sublist_of` dry.1
  /\ dry.2 = e
  /\ Forall (fun cmd => ~ listing_command cmd) (block_commands config report).
Proof using Type.
  cbn zeta.
  assert (block_inactive_bases subprocess_run config report true e
          = (concat (replicate (length (ClusterReport.clusters report))
                       (InfoBase.name <$> ClusterReport.inactive_bases report)), e))
    as ->.
  { unfold block_inactive_bases. cbv iota. apply (dry_run_outer _ _ []). }
  cbn [fst snd]. unfold block_inactive_bases. cbv iota.
  destruct (live_run_outer (ClusterReport.clusters report)
              (ClusterReport.inactive_bases report) [] e)
    as (Hcalls & names & Hnames & Hsub).
  cbn zeta in Hcalls, Hnames. split; [exact Hcalls|].
  split; [by rewrite Hnames|]. split; [reflexivity|].
  unfold block_commands. apply Forall_concat, Forall_fmap, Forall_true.
  intros c. apply Forall_fmap, Forall_true. intros ib.
  unfold compose, listing_command. rewrite block_command_word.
  intros [H|H]; vm_compute in H; discriminate.
Qed.

(** X9: when the utility has nothing to say to any command (a non-zero
    exit status, the time limit, or blank output), a live run reports no
    base as blocked. *)
Theorem live_run_blocks_nothing (report : ClusterReport.t) (e : Env)
    (Hsilent : forall cmd w, Spec.empty_outcome (subprocess_run cmd w).1) :
  (block_inactive_bases subprocess_run config report false e).1 = [].
Proof using Type.
  unfold block_inactive_bases. cbv iota.
  apply (for_each_invariant (fun blocked => blocked = [])); [|reflexivity].
  intros blocked c e1 ->.
  apply (for_each_invariant (fun blocked => blocked = [])); [|reflexivity].
  intros blocked ib e2 ->. rewrite bind_run.
  pose proof (block_infobase_result subprocess_run config (Cluster.cluster_id c)
                (InfoBase.infobase_id ib) true true inactivity_message e2) as Hok.
  rewrite execute_command_output in Hok.
  rewrite (proj1 (empty_outcome_output _) (Hsilent _ _)) in Hok.
  destruct (block_infobase _ _ _ _ _ _ _ e2) as [ok e3]. cbn [fst] in Hok.
  rewrite Hok. reflexivity.
Qed.

Lemma block_turns_succeed cid (l : list InfoBase.t) (blocked : list str) (e : Env) :
  (forall cmd w, exists stdout stderr,
      (subprocess_run cmd w).1 = Completed 0 stdout stderr
      /\ strip stdout ≠ [] /\ ~ Spec.occurs_ci (py "error") stdout) ->
  (for_each l (block_turn cid) blocked e).1 = blocked ++ (InfoBase.name <$> l).
Proof using Type.
  intros Hfine. revert blocked e. induction l as [|ib l IH]; intros blocked e.
  - cbn. by rewrite app_nil_r.
  - rewrite for_each_cons, bind_run.
    pose proof (block_infobase_result subprocess_run config cid
                  (InfoBase.infobase_id ib) true true inactivity_message e) as Hok.
    rewrite execute_command_output in Hok.
    destruct (Hfine (block_infobase_cmd config cid (InfoBase.infobase_id ib)
                       true true inactivity_message) (world e))
      as (stdout & stderr & Hrun & Hsolid & Hno).
    rewrite Hrun, (command_output_completed _ _ Hsolid) in Hok.
    destruct (block_infobase _ _ _ _ _ _ _ e) as [ok e1]. cbn [fst] in Hok.
    rewrite ret_run, IH, Hok.
    assert (no_error_in stdout false = true) as ->.
    { apply no_error_in_true. right. split; [|exact Hno].
      intros ->. by apply Hsolid. }
    rewrite fmap_cons, <- app_assoc. reflexivity.
Qed.

(** X10: when the utility answers every command with exit status 0 and
    some text in which the word "error" does not occur, a live run returns
    the very names the dry run announced. *)
Theorem live_run_as_announced (report : ClusterReport.t) (e : Env)
    (Hfine : forall cmd w, exists stdout stderr,
        (subprocess_run cmd w).1 = Completed 0 stdout stderr
        /\ strip stdout ≠ [] /\ ~ Spec.occurs_ci (py "error") stdout) :
  (block_inactive_bases subprocess_run config report false e).1
  = (block_inactive_bases subprocess_run config report true e).1.
Proof using Type.
  assert (block_inactive_bases subprocess_run config report true e
          = (concat (replicate (length (ClusterReport.clusters report))
                       (InfoBase.name <$> ClusterReport.inactive_bases report)), e))
    as ->.
  { unfold block_inactive_bases. cbv iota. apply (dry_run_outer _ _ []). }
  cbn [fst]. unfold block_inactive_bases. cbv iota.
  enough (forall blocked,
    (for_each (ClusterReport.clusters report)
       (fun blocked c =>
          for_each (ClusterReport.inactive_bases report)
            (block_turn (Cluster.cluster_id c)) blocked) blocked e).1
    = blocked ++ concat (replicate (length (ClusterReport.clusters report))
                           (InfoBase.name <$> ClusterReport.inactive_bases report)))
    as Hall by apply (Hall []).
  revert e.
  induction (ClusterReport.clusters report) as [|c cs IH]; intros e blocked.
  - cbn. by rewrite app_nil_r.
  - rewrite for_each_cons.
    pose proof (block_turns_succeed (Cluster.cluster_id c)
                  (ClusterReport.inactive_bases report) blocked e Hfine) as Hturn.
    destruct (for_each (ClusterReport.inactive_bases report) _ blocked e)
      as [blocked1 e1]. cbn [fst] in Hturn. subst blocked1.
    cbn [length replicate concat]. rewrite IH, <- app_assoc. reflexivity.
Qed.

(** *** The report of a collection pass *)

Lemma backed_by_more (S S' : list Session.t) ib :
  (forall s, s ∈ S -> s ∈ S') -> (length S <= length S')%nat ->
  backed_by S ib -> backed_by S' ib.
Proof using Type.
  intros Hsub Hlen (Hcount & Hflag & Htime). split; [unfold len in *; lia|].
  split; [exact Hflag|]. intros t Ht.
  destruct (Htime t Ht) as (Hpos & s & Hs & Hid & Hact).
  split; [exact Hpos|]. exists s. auto.
Qed.

Lemma correlated_backed (S : list Session.t) ib :
  Spec.uniform (Spec.active_times ib S) ->
  fresh ib -> backed_by S (correlated S ib).
Proof using Type.
  intros Huniform [Hlast Hflag]. unfold backed_by, correlated.
  cbn [InfoBase.sessions_count InfoBase.is_inactive InfoBase.last_session_time
       InfoBase.infobase_id].
  pose proof (length_filter
                (fun s => Session.infobase_id s = InfoBase.infobase_id ib) S) as Hle.
  fold (Spec.sessions_of ib S) in Hle.
  assert (forall s, s ∈ Spec.sessions_of ib S ->
                    s ∈ S /\ Session.infobase_id s = InfoBase.infobase_id ib) as Hof.
  { intros s Hs. apply list_elem_of_filter in Hs as [Hid Hs]. done. }
  pose proof (active_times_nil S ib) as Hnil.
  unfold Spec.active_times in *.
  destruct (Spec.sessions_of ib S) as [|s0 rest] eqn:Hsessions.
  - cbn. rewrite Hlast. split; [unfold len; lia|]. split; done.
  - assert ((len (s0 :: rest) =? 0)%Z = false) as ->
      by (apply Z.eqb_neq; unfold len; cbn [length]; lia).
    rewrite Hflag. split; [unfold len in *; cbn [length] in *; lia|].
    split; [done|]. intros t Ht. split; [unfold len; cbn [length]; lia|].
    destruct (omap Session.last_active_at (s0 :: rest)) as [|t0 ts] eqn:Htimes;
      [congruence|].
    destruct (py_max_uniform t0 ts Huniform) as (latest & Hmax & Hin & _).
    rewrite Hmax in Ht. injection Ht as <-. rewrite <- Htimes in Hin.
    apply list_elem_of_omap in Hin as (s & Hs & Hact).
    destruct (Hof s Hs) as [HsS Hid]. exists s. done.
Qed.

(** An inactive base has been counted, flagged and left without a last
    session time. *)
Lemma correlated_idle S (B : list InfoBase.t) :
  Forall fresh B ->
  Forall idle (filter Spec.no_sessions (correlated S <$> B)).
Proof using Type.
  intros HB. apply Forall_forall. intros x Hx.
  apply list_elem_of_filter in Hx as [Hzero Hx].
  apply list_elem_of_fmap in Hx as (ib & -> & Hib).
  rewrite Forall_forall in HB. destruct (HB ib Hib) as [Hlast Hflag].
  split; [by apply correlated_inactive|]. split; [exact Hzero|].
  unfold Spec.no_sessions, correlated, len in *.
  cbn [InfoBase.sessions_count InfoBase.last_session_time] in *.
  rewrite (active_times_nil S ib); [exact Hlast|].
  destruct (Spec.sessions_of ib S); [done|]. cbn [length] in Hzero. lia.
Qed.

Lemma collect_cluster_settled now report cluster (e : Env) :
  settled now report ->
  settled now
    (state_of (collect_cluster subprocess_run fromisoformat config datetime_now
                 report cluster e).1).
Proof using Type.
  intros (Hnow & Hall & Hidle).
  destruct (collect_cluster_outcome subprocess_run fromisoformat config
              datetime_now report cluster e)
    as (servers & infobases & all_sessions & e1 & e2 & e3 & _ & Hib & _ & ->).
  pose proof (get_infobases_fresh subprocess_run config
                (Cluster.cluster_id cluster) e1) as Hfresh.
  rewrite Hib in Hfresh. cbn [fst] in Hfresh. cbn zeta. cbn [fst].
  assert (Forall (backed_by (ClusterReport.sessions report ++ all_sessions))
                 (ClusterReport.infobases report)) as Hmore.
  { eapply Forall_impl; [exact Hall|]. intros ib. apply backed_by_more.
    - intros s Hs. apply elem_of_app. by left.
    - rewrite length_app. lia. }
  destruct (inactive_threshold _ _) as [exc|_]; [by repeat split|].
  destruct (correlate_cases infobases all_sessions
              (ClusterReport.inactive_bases report))
    as [[Hcomparable ->]|(before & ib & rest & -> & _ & _ & ->)].
  - split; [exact Hnow|]. cbn. split.
    + apply Forall_app. split; [exact Hmore|]. apply Forall_fmap.
      unfold Spec.comparable_times in Hcomparable.
      rewrite Forall_forall in Hfresh, Hcomparable. apply Forall_forall.
      intros ib Hin.
      apply (backed_by_more all_sessions);
        [| |apply correlated_backed; [apply Hcomparable | apply Hfresh]; exact Hin].
      * intros s Hs. apply elem_of_app. by right.
      * rewrite length_app. lia.
    + apply Forall_app. split; [exact Hidle | by apply correlated_idle].
  - apply Forall_app in Hfresh as [Hbefore _].
    split; [exact Hnow|]. cbn. split; [exact Hmore|].
    apply Forall_app. split; [exact Hidle | by apply correlated_idle].
Qed.

(** X11: the report of a collection pass carries the time at which the pass
    began, and its infobases are backed by its sessions: no session count
    is negative or exceeds the number of sessions of the report, a base
    flagged inactive has no last session time, and every last session time
    is the last activity of a session of the report on that very base,
    whose count is then positive.  Every inactive base is flagged, has no
    session and no last session time; when the pass recorded no error, the
    inactive bases are picked, in order, from the infobases.  The pass
    records one error at most. *)
Theorem collected_infobases_backed (e : Env) :
  let report :=
    (collect_cluster_info subprocess_run fromisoformat config datetime_now
       str_exception e).1 in
  ClusterReport.generated_at report = datetime_now (world e)
  /\ Forall (backed_by (ClusterReport.sessions report))
            (ClusterReport.infobases report)
  /\ Forall (fun ib => InfoBase.is_inactive ib = true
                       /\ InfoBase.sessions_count ib = 0%Z
                       /\ InfoBase.last_session_time ib = None)
            (ClusterReport.inactive_bases report)
  /\ (ClusterReport.errors report = [] ->
      ClusterReport.inactive_bases report `sublist_of` ClusterReport.infobases report)
  /\ (length (ClusterReport.errors report) <= 1)%nat.
Proof using Type.
  cbn zeta.
  destruct (collect_cluster_info_outcome subprocess_run fromisoformat config
              datetime_now str_exception e)
    as (clusters & e1 & c & e2 & _ & Hloop & ->).
  cbn [fst].
  set (report0 := ClusterReport.mk (datetime_now (world e)) clusters [] [] [] [] [])
    in Hloop.
  pose proof (try_each_state (settled (datetime_now (world e)))
                (collect_cluster subprocess_run fromisoformat config datetime_now)
                (collect_cluster_settled (datetime_now (world e)))
                clusters report0 e1) as Hsettled.
  rewrite Hloop in Hsettled. cbn [fst] in Hsettled.
  destruct Hsettled as (Hnow & Hall & Hidle);
    [split; [reflexivity|]; split; constructor|].
  pose proof (collect_loop_consistent subprocess_run fromisoformat config
                datetime_now clusters report0 e1
                (conj (Forall_nil_2 _) eq_refl) eq_refl) as Hc.
  rewrite Hloop in Hc. cbn [fst] in Hc.
  destruct c as [report|exc report]; cbn [state_of] in *; cbn.
  - destruct Hc as [[_ Hinactive] Herrors].
    split; [exact Hnow|]. split; [exact Hall|]. split; [exact Hidle|]. split.
    + intros _. rewrite Hinactive. apply sublist_filter.
    + rewrite Herrors. cbn. lia.
  - destruct Hc as [_ Herrors].
    split; [exact Hnow|]. split; [exact Hall|]. split; [exact Hidle|]. split.
    + rewrite Herrors. intros H. discriminate.
    + rewrite Herrors. cbn. lia.
Qed.

(** *** The JSON document of a collection pass *)

Variable isoformat : datetime -> str.

Lemma filter_fmap_agree {A B} (f : A -> B) (P : B -> Prop) (Q : A -> Prop)
    `{!forall y, Decision (P y)} `{!forall x, Decision (Q x)} (l : list A) :
  Forall (fun x => P (f x) <-> Q x) l -> filter P (f <$> l) = f <$> filter Q l.
Proof using Type.
  induction 1 as [|x l Hx _ IH]; [reflexivity|].
  rewrite fmap_cons, !filter_cons, IH.
  repeat case_decide; try reflexivity; tauto.
Qed.

(** X12: in the JSON report of a collection pass, read back, the count of
    inactive bases is no less than the number of infobase entries flagged
    inactive, and equal to it when the list of errors is empty; the
    session count of an entry is never negative and never more than the
    session count of the document. *)
Theorem json_report_of_pass (e : Env) :
  let report :=
    (collect_cluster_info subprocess_run fromisoformat config datetime_now
       str_exception e).1 in
  exists doc entries count total,
    Json.loads (_generate_json_report isoformat report) = Some doc
    /\ Json.field (py "infobases") doc = Some (Json.List entries)
    /\ Json.field (py "inactive_bases_count") doc = Some (Json.Int count)
    /\ (len (filter (fun entry => flagged entry = true) entries) <= count)%Z
    /\ (Json.field (py "errors") doc = Some (Json.List []) ->
        count = len (filter (fun entry => flagged entry = true) entries))
    /\ Json.field (py "sessions_count") doc = Some (Json.Int total)
    /\ Forall (fun entry =>
                 exists n, Json.field (py "sessions_count") entry = Some (Json.Int n)
                           /\ (0 <= n <= total)%Z)
              entries.
Proof using Type.
  cbn zeta.
  set (report := (collect_cluster_info subprocess_run fromisoformat config
                    datetime_now str_exception e).1).
  assert (Forall (backed_by (ClusterReport.sessions report))
                 (ClusterReport.infobases report)
          /\ inactive_sound report
          /\ (ClusterReport.errors report = [] -> inactive_consistent report))
    as (Hbacked & (Hflags & _ & Hprefix) & Hconsistent).
  { subst report.
    destruct (collect_cluster_info_outcome subprocess_run fromisoformat config
                datetime_now str_exception e)
      as (clusters & e1 & c & e2 & _ & Hloop & ->).
    cbn [fst].
    set (report0 := ClusterReport.mk (datetime_now (world e)) clusters [] [] [] [] [])
      in Hloop.
    pose proof (try_each_state (settled (datetime_now (world e)))
                  (collect_cluster subprocess_run fromisoformat config datetime_now)
                  (collect_cluster_settled (datetime_now (world e)))
                  clusters report0 e1) as Hsettled.
    rewrite Hloop in Hsettled. cbn [fst] in Hsettled.
    destruct Hsettled as (_ & Hall & _);
      [split; [reflexivity|]; split; constructor|].
    pose proof (collect_loop_consistent subprocess_run fromisoformat config
                  datetime_now clusters report0 e1
                  (conj (Forall_nil_2 _) eq_refl) eq_refl) as Hc.
    rewrite Hloop in Hc. cbn [fst] in Hc.
    destruct c as [report|exc report]; cbn [state_of] in *.
    - destruct Hc as [Hc _]. split; [exact Hall|].
      split; [apply (consistent_sound _ Hc) | intros _; exact Hc].
    - destruct Hc as [Hc Herrors]. split; [exact Hall|]. split; [exact Hc|].
      cbn. rewrite Herrors. intros H. discriminate. }
  pose (entry := fun ib => Json.Dict
          [ (py "id", Json.Str (InfoBase.infobase_id ib));
            (py "name", Json.Str (InfoBase.name ib));
            (py "sessions_count", Json.Int (InfoBase.sessions_count ib));
            (py "is_inactive", Json.Bool (InfoBase.is_inactive ib));
            (py "last_session_time",
             match InfoBase.last_session_time ib with
             | Some t => Json.Str (isoformat t)
             | None => Json.Null
             end) ]).
  assert (filter (fun entry => flagged entry = true)
            (entry <$> ClusterReport.infobases report)
          = entry <$> filter Spec.no_sessions (ClusterReport.infobases report))
    as Hfilter.
  { apply filter_fmap_agree. eapply Forall_impl; [exact Hflags|].
    intros ib Hib. exact Hib. }
  exists (data isoformat report), (entry <$> ClusterReport.infobases report),
    (len (ClusterReport.inactive_bases report)),
    (len (ClusterReport.sessions report)).
  split; [apply JsonRoundTrip.loads_dumps, data_wf|].
  split; [reflexivity|]. split; [reflexivity|].
  split; [|split; [|split; [reflexivity|]]].
  - rewrite Hfilter. unfold len. rewrite length_fmap.
    apply prefix_length in Hprefix. lia.
  - cbn. intros [= Herrors]. apply fmap_nil_inv in Herrors.
    destruct (Hconsistent Herrors) as [_ ->].
    rewrite Hfilter. unfold len. by rewrite length_fmap.
  - apply Forall_fmap. eapply Forall_impl; [exact Hbacked|].
    intros ib (Hcount & _). eexists. split; [reflexivity | exact Hcount].
Qed.

End RacRuns.

Lemma get_clusters_reads_listing_witness :
  (get_clusters Scenario.lists_two Fixture.config Fixture.env0).1
  = [Scenario.main_cluster; Scenario.spare_cluster].
Proof.
  apply (get_clusters_reads_listing Scenario.lists_two Fixture.config
           [Scenario.main_cluster; Scenario.spare_cluster] [] Fixture.env0).
  - reflexivity.
  - forall_items; printable_fields.
Defined.

Lemma live_run_blocks_nothing_witness :
  (block_inactive_bases Fixture.unreachable Fixture.config Scenario.planned false
     Fixture.env0).1 = [].
Proof.
  apply (live_run_blocks_nothing Fixture.unreachable Fixture.config
           Scenario.planned Fixture.env0).
  intros cmd w. left. discriminate.
Defined.

Lemma live_run_as_announced_witness :
  (block_inactive_bases Scenario.obliging Fixture.config Scenario.planned false
     Fixture.env0).1
  = (block_inactive_bases Scenario.obliging Fixture.config Scenario.planned true
       Fixture.env0).1.
Proof.
  apply (live_run_as_announced Scenario.obliging Fixture.config
           Scenario.planned Fixture.env0).
  intros cmd w. exists (py "Infobase updated"), []. split; [reflexivity|].
  split; [vm_compute; discriminate|].
  rewrite <- (contains_lower_occurs _ _ error_is_lower_case).
  vm_compute. discriminate.
Defined.

(** *** Saving a report *)

Section SaveReportProofs.

Variable strftime : datetime -> str.
Variable str_datetime : datetime -> str.
Variable isoformat : datetime -> str.
Variable timestamp : datetime -> str.
Variable asctime : datetime -> str.

Lemma default_filename_not_log (now : datetime) (output_format : str) :
  default_filename timestamp now output_format ≠ LOG_FILE.
Proof using Type.
  unfold default_filename, LOG_FILE. cbv zeta. literals. cbn [app].
  intros H. discriminate H.
Qed.

Lemma logger_info_other (t : datetime) (message name : str) (files : gmap str str) :
  name ≠ LOG_FILE -> logger_info asctime t message files !! name = files !! name.
Proof using Type. intros H. unfold logger_info. by rewrite lookup_insert_ne. Qed.

Lemma logger_info_log (t : datetime) (message : str) (files : gmap str str) :
  logger_info asctime t message files !! LOG_FILE
  = Some (default [] (files !! LOG_FILE)
          ++ asctime t ++ py " - INFO - " ++ message ++ [LF]).
Proof using Type. unfold logger_info. by rewrite lookup_insert_eq. Qed.

(** X13: saved under the names [save_report] makes up, a text report and a
    JSON report of the same moment go to two different files, neither of
    them the log: the first holds the text report, the second the JSON
    report, which reads back as the document of the report; the log has
    grown by one line for each, which names the file; and no other file
    is touched. *)
Theorem save_report_both_formats (report : ClusterReport.t) (output_format : str)
    (now logged1 logged2 : datetime) (files : gmap str str)
    (Hformat : output_format ≠ py "json") :
  let '(text_name, files1) :=
    save_report strftime str_datetime isoformat timestamp asctime report None
      output_format now logged1 files in
  let '(json_name, files2) :=
    save_report strftime str_datetime isoformat timestamp asctime report None
      (py "json") now logged2 files1 in
  text_name ≠ json_name /\ text_name ≠ LOG_FILE /\ json_name ≠ LOG_FILE
  /\ files2 !! text_name = Some (_generate_text_report strftime str_datetime report)
  /\ (exists content, files2 !! json_name = Some content
        /\ Json.loads content = Some (data isoformat report))
  /\ files2 !! LOG_FILE
     = Some (default [] (files !! LOG_FILE)
             ++ (asctime logged1 ++ py " - INFO - "
                 ++ (py "Отчёт сохранён: " ++ text_name) ++ [LF])
             ++ (asctime logged2 ++ py " - INFO - "
                 ++ (py "Отчёт сохранён: " ++ json_name) ++ [LF]))
  /\ (forall name, name ≠ text_name -> name ≠ json_name -> name ≠ LOG_FILE ->
                   files2 !! name = files !! name).
Proof using Type.
  unfold save_report, generate_report. cbv zeta.
  rewrite (bool_decide_eq_false_2 _ Hformat), (bool_decide_eq_true_2 _ eq_refl).
  pose proof (default_filename_not_log now output_format) as Htext.
  pose proof (default_filename_not_log now (py "json")) as Hjson.
  assert (default_filename timestamp now output_format
          ≠ default_filename timestamp now (py "json")) as Hnames.
  { unfold default_filename. cbv zeta.
    rewrite (bool_decide_eq_false_2 _ Hformat), (bool_decide_eq_true_2 _ eq_refl).
    intros H. do 3 apply app_inv_head in H. discriminate. }
  set (text_name := default_filename timestamp now output_format) in *.
  set (json_name := default_filename timestamp now (py "json")) in *.
  split; [exact Hnames|]. split; [exact Htext|]. split; [exact Hjson|].
  split; [|split; [|split]].
  - rewrite logger_info_other, lookup_insert_ne, logger_info_other by done.
    apply lookup_insert_eq.
  - eexists. split.
    + rewrite logger_info_other by done. apply lookup_insert_eq.
    + apply JsonRoundTrip.loads_dumps, data_wf.
  - rewrite logger_info_log, lookup_insert_ne, logger_info_log by done.
    rewrite lookup_insert_ne by done. unfold default at 1. cbn [from_option id].
    rewrite <- !app_assoc. reflexivity.
  - intros name H1 H2 H3.
    rewrite logger_info_other, lookup_insert_ne, logger_info_other,
      lookup_insert_ne by done.
    reflexivity.
Qed.

End SaveReportProofs.

Lemma save_report_both_formats_witness :
  let iso (d : datetime) := py "2024-01-01T00:00:0" ++ str_of_int (wall d) in
  let stamp (d : datetime) := py "20240101_00000" ++ str_of_int (wall d) in
  let '(text_name, files1) :=
    save_report iso iso iso stamp iso (ClusterReport.new (naive 7)) None (py "text")
      (naive 7) (naive 8) ∅ in
  let '(json_name, files2) :=
    save_report iso iso iso stamp iso (ClusterReport.new (naive 7)) None (py "json")
      (naive 7) (naive 9) files1 in
  text_name = py "cluster_report_20240101_000007.txt"
  /\ json_name = py "cluster_report_20240101_000007.json"
  /\ text_name ≠ json_name.
Proof.
  cbv zeta.
  pose proof (save_report_both_formats
                (fun d => py "2024-01-01T00:00:0" ++ str_of_int (wall d))
                (fun d => py "2024-01-01T00:00:0" ++ str_of_int (wall d))
                (fun d => py "2024-01-01T00:00:0" ++ str_of_int (wall d))
                (fun d => py "20240101_00000" ++ str_of_int (wall d))
                (fun d => py "2024-01-01T00:00:0" ++ str_of_int (wall d))
                (ClusterReport.new (naive 7)) (py "text") (naive 7) (naive 8)
                (naive 9) ∅) as H.
  unfold save_report in *.
  split; [reflexivity|]. split; [reflexivity|].
  apply H. vm_compute. discriminate.
Defined.

(** *** The headings of the text report *)

Lemma filter_heading_plain (lines : list str) :
  Forall (fun line => head line ≠ Some LF) lines -> filter heading lines = [].
Proof.
  induction 1 as [|line lines Hline _ IH]; [reflexivity|].
  rewrite filter_cons, decide_False by exact Hline. exact IH.
Qed.

Lemma filter_heading_mark (line : str) (lines : list str) :
  filter heading ((LF :: line) :: lines) = (LF :: line) :: filter heading lines.
Proof. rewrite filter_cons, decide_True; done. Qed.

Lemma filter_heading_concat {A} (g : A -> list str) (l : list A) :
  (forall x, Forall (fun line => head line ≠ Some LF) (g x)) ->
  filter heading (concat (g <$> l)) = [].
Proof.
  intros Hg. induction l as [|x l IH]; [reflexivity|].
  rewrite fmap_cons. cbn [concat].
  rewrite filter_app, IH, (filter_heading_plain _ (Hg x)). reflexivity.
Qed.

Ltac plain_lines := forall_items; literals; cbn [app head]; discriminate.

Section TextHeadings.

Variable strftime : datetime -> str.
Variable str_datetime : datetime -> str.

Lemma rule_plain : head rule ≠ Some LF.
Proof using Type. vm_compute. discriminate. Qed.

Lemma header_block_headings report :
  filter heading (header_block strftime report []) = [].
Proof using Type.
  apply filter_heading_plain. unfold header_block. cbn [app].
  forall_items; try apply rule_plain; literals; cbn [app head]; discriminate.
Qed.

Lemma clusters_block_headings report lines :
  filter heading (clusters_block report lines)
  = filter heading lines ++ [LF :: py "### КЛАСТЕРЫ ###"].
Proof using Type.
  unfold clusters_block. cbv zeta.
  rewrite (foldl_appending _
             (fun cluster =>
                [ py "  - " ++ Cluster.name cluster;
                  py "    ID: " ++ Cluster.cluster_id cluster;
                  py "    Хост: " ++ Cluster.host cluster ++ py ":"
                    ++ Cluster.port cluster ]))
    by (intros; rewrite <- !app_assoc; reflexivity).
  rewrite !filter_app, filter_heading_mark, filter_heading_concat, filter_nil.
  - by rewrite app_nil_r.
  - intros c. plain_lines.
Qed.

Lemma servers_block_headings report lines :
  filter heading (servers_block report lines)
  = filter heading lines ++ [LF :: py "### РАБОЧИЕ СЕРВЕРЫ ###"].
Proof using Type.
  unfold servers_block. cbv zeta.
  rewrite (foldl_appending _
             (fun server =>
                [ py "  - " ++ WorkingServer.name server;
                  py "    ID: " ++ WorkingServer.server_id server;
                  py "    Хост: " ++ WorkingServer.host server ++ py ":"
                    ++ WorkingServer.port server ]))
    by (intros; rewrite <- !app_assoc; reflexivity).
  rewrite !filter_app, filter_heading_mark, filter_heading_concat, filter_nil.
  - by rewrite app_nil_r.
  - intros c. plain_lines.
Qed.

Lemma infobases_block_headings report lines :
  filter heading (infobases_block str_datetime report lines)
  = filter heading lines ++ [LF :: py "### ИНФОРМАЦИОННЫЕ БАЗЫ ###"].
Proof using Type.
  unfold infobases_block. cbv zeta.
  rewrite (foldl_appending _
             (fun ib =>
                [ py "  " ++ (if InfoBase.is_inactive ib
                              then py "[НЕАКТИВНА]" else py "[АКТИВНА]")
                    ++ py " " ++ InfoBase.name ib;
                  py "    ID: " ++ InfoBase.infobase_id ib;
                  py "    Сеансов: " ++ str_of_int (InfoBase.sessions_count ib) ]
                ++ match InfoBase.last_session_time ib with
                   | Some t => [py "    Последняя активность: " ++ str_datetime t]
                   | None => []
                   end)).
  - rewrite !filter_app, filter_heading_mark, filter_heading_concat.
    + rewrite !(filter_heading_plain [_]), !app_nil_r; [reflexivity|..];
        constructor; try constructor; try discriminate;
        literals; cbn [app head]; discriminate.
    + intros ib. apply Forall_app. split; [plain_lines|].
      destruct (InfoBase.last_session_time ib); plain_lines.
  - intros l ib. destruct (InfoBase.last_session_time ib);
      rewrite <- ?app_assoc; cbn [app]; rewrite ?app_nil_r; reflexivity.
Qed.

Lemma sessions_block_headings report lines :
  filter heading (sessions_block str_datetime report lines)
  = filter heading lines ++ [LF :: py "### АКТИВНЫЕ СЕАНСЫ ###"].
Proof using Type.
  unfold sessions_block. cbv zeta.
  rewrite (foldl_appending _ (fun session => session_turn str_datetime [] session))
    by (intros; apply session_turn_appends).
  assert (filter heading
            (concat ((fun session => session_turn str_datetime [] session)
                     <$> take 20 (ClusterReport.sessions report))) = []) as Hturns.
  { apply filter_heading_concat. intros session. unfold session_turn.
    destruct (Session.started_at session); cbn [app]; plain_lines. }
  destruct (_ >? _)%Z;
    rewrite !filter_app, filter_heading_mark, Hturns,
      !(filter_heading_plain [_]), ?app_nil_r;
    try reflexivity; plain_lines.
Qed.

Lemma errors_block_headings report lines :
  filter heading (errors_block report lines)
  = filter heading lines
    ++ (if nonempty (ClusterReport.errors report)
        then [LF :: py "### ERRORS ###"] else []).
Proof using Type.
  unfold errors_block. destruct (nonempty _); [|by rewrite app_nil_r].
  rewrite (foldl_appending _ (fun error => [py "  ! " ++ error])) by done.
  rewrite !filter_app, filter_heading_mark, filter_heading_concat, filter_nil.
  - by rewrite app_nil_r.
  - intros error. plain_lines.
Qed.

Lemma recommendations_block_headings report lines :
  filter heading (recommendations_block report lines)
  = filter heading lines ++ [LF :: py "### RECOMMENDATIONS ###"].
Proof using Type.
  unfold recommendations_block. cbv zeta. destruct (nonempty _).
  - rewrite (foldl_appending _ (fun ib => [py "    * " ++ InfoBase.name ib])) by done.
    rewrite !filter_app, filter_heading_mark, filter_heading_concat, filter_nil.
    + rewrite (filter_heading_plain [_]), !app_nil_r; [reflexivity|plain_lines].
    + intros ib. plain_lines.
  - rewrite !filter_app, filter_heading_mark, filter_nil.
    rewrite (filter_heading_plain [_]), !app_nil_r; [reflexivity|plain_lines].
Qed.

(** X14: the lines of the text report that begin with a line feed are its
    section headings and the rule of the footer, each once and in the order
    of the sections, whatever names and texts the report carries; the
    heading of the errors is among them exactly when the report has
    errors. *)
Theorem text_report_headings (report : ClusterReport.t) :
  filter heading (text_report_lines strftime str_datetime report)
  = [ LF :: py "### КЛАСТЕРЫ ###";
      LF :: py "### РАБОЧИЕ СЕРВЕРЫ ###";
      LF :: py "### ИНФОРМАЦИОННЫЕ БАЗЫ ###";
      LF :: py "### АКТИВНЫЕ СЕАНСЫ ###" ]
    ++ (if nonempty (ClusterReport.errors report)
        then [LF :: py "### ERRORS ###"] else [])
    ++ [ LF :: py "### RECOMMENDATIONS ###"; LF :: rule ].
Proof using Type.
  unfold text_report_lines, footer_block. cbv zeta.
  rewrite !filter_app, filter_heading_mark, filter_nil.
  rewrite !(filter_heading_plain [_]), !app_nil_r;
    [|constructor; [apply rule_plain | constructor]
     |constructor; [literals; cbn [head]; discriminate | constructor]].
  rewrite recommendations_block_headings, errors_block_headings,
    sessions_block_headings, infobases_block_headings, servers_block_headings,
    clusters_block_headings, header_block_headings.
  rewrite <- !app_assoc. reflexivity.
Qed.

End TextHeadings.
